(** * Exituity document parsing: the asynchronous extraction pipeline

    A shallow embedding of the document-processing back end
    (controllers/documentController.js, utils/progressTracker.js and the
    parsers under utils/) together with the properties its design
    document states about it.

    JavaScript strings are sequences of UTF-16 code units, numbers that
    the code only uses as integers are [Z], numbers that may carry a
    fraction are [Q].  Objects that are shared by reference (the progress
    trackers) live in a heap indexed by location.

    The libraries the code calls (the file system, mammoth, xlsx,
    tesseract.js, pdf-parse, path and string helpers) are a record of
    functions, [World]; [EventEmitter] and the mongoose model are
    embedded with the behaviour the code relies on: an ['error'] event
    without a listener is thrown at the emitter's caller, and
    [findByIdAndUpdate] changes the document of that id when there is
    one.  An asynchronous function is a computation in a state and
    exception monad; it runs to its end without interleaving and without
    time passing, and a call that is not awaited is a job the system runs
    in a later step.  Writes to the store succeed; console output is left
    out, and of a response body's fields the human-readable [message] is
    left out. *)

From Stdlib Require Import ZArith QArith Qround Lia List Bool String Ascii Sorted.
From stdpp Require Import base gmap list.
Import ListNotations.

Local Open Scope Z_scope.

(** ** JavaScript strings *)

Abbreviation jsstring := (list N).

(** An ASCII literal as a JavaScript string. *)
Definition js (s : string) : jsstring :=
  List.map N_of_ascii (list_ascii_of_string s).

Arguments js : simpl never.

Definition TAB : N := 9%N.
Definition LF : N := 10%N.
Definition SPACE : N := 32%N.

Definition jsstring_eqb (a b : jsstring) : bool := bool_decide (a = b).

(** [\s] of a regular expression without the [u] flag, which is also the
    set [String.prototype.trim] strips: WhiteSpace and LineTerminator. *)
Definition is_space (c : N) : bool :=
  ((9 <=? c) && (c <=? 13) || (c =? 32) || (c =? 160) || (c =? 5760)
   || (8192 <=? c) && (c <=? 8202) || (c =? 8232) || (c =? 8233)
   || (c =? 8239) || (c =? 8287) || (c =? 12288) || (c =? 65279))%N.

Fixpoint dropWhile {A} (p : A -> bool) (l : list A) : list A :=
  match l with
  | [] => []
  | x :: l' => if p x then dropWhile p l' else l
  end.

Fixpoint takeWhile {A} (p : A -> bool) (l : list A) : list A :=
  match l with
  | [] => []
  | x :: l' => if p x then x :: takeWhile p l' else []
  end.

(** [String.prototype.trim] *)
Definition trim (s : jsstring) : jsstring :=
  rev (dropWhile is_space (rev (dropWhile is_space s))).

(** [s.includes(c)] for a one-character needle *)
Definition includes (c : N) (s : jsstring) : bool :=
  existsb (N.eqb c) s.

(** *** [String.prototype.split]

    A separator pattern is given by its matcher: applied to the rest of
    the string at some position it returns the length of the match that
    starts there, if any.  [split_from] is the loop of the ECMAScript
    algorithm: [cur] is the segment collected since the end of the last
    match, [skip] counts the code units of the current match that are
    still to be passed over. *)
Definition matcher := jsstring -> option nat.

Fixpoint split_from (m : matcher) (skip : nat) (cur s : jsstring)
  : list jsstring :=
  match s with
  | [] => [cur]
  | c :: s' =>
      match skip with
      | S k => split_from m k cur s'
      | O =>
          match m s with
          | Some (S k) => cur :: split_from m k [] s'
          | Some O =>
              match cur with
              | [] => split_from m 0 [c] s'
              | _ => cur :: split_from m 0 [c] s'
              end
          | None => split_from m 0 (cur ++ [c]) s'
          end
      end
  end.

Definition split_re (m : matcher) (s : jsstring) : list jsstring :=
  match s with
  | [] => match m [] with Some _ => [] | None => [[]] end
  | _ => split_from m 0 [] s
  end.

(** The greedy run of white space at the head of [s], when it has at
    least [n] code units. *)
Definition space_run (n : nat) (s : jsstring) : option nat :=
  let k := length (takeWhile is_space s) in
  if (n <=? k)%nat then Some k else None.

(** [/\s+/] *)
Definition re_spaces : matcher := space_run 1.
(** [/\s{2,}/] *)
Definition re_spaces2 : matcher := space_run 2.
(** [/\t|\s{2,}/]: the first alternative wins where it matches. *)
Definition re_tab_or_spaces2 : matcher := fun s =>
  match s with
  | c :: _ => if (c =? TAB)%N then Some 1%nat else space_run 2 s
  | [] => None
  end.

(** [s.split(c)] for a one-character separator string *)
Fixpoint split_char_from (sep : N) (cur s : jsstring) : list jsstring :=
  match s with
  | [] => [cur]
  | c :: s' =>
      if (c =? sep)%N then cur :: split_char_from sep [] s'
      else split_char_from sep (cur ++ [c]) s'
  end.

Definition split_char (sep : N) (s : jsstring) : list jsstring :=
  split_char_from sep [] s.

(** ** Extraction results *)

(** A cell of a table: the parsers store strings, the spreadsheet reader
    also numbers and booleans. *)
Inductive Cell :=
| CStr (s : jsstring)
| CNum (q : Q)
| CBool (b : bool).

Record Structure := { rows : Z; columns : Z }.

Record Table := {
  pageNumber : Z;
  tableIndex : Z;
  data : list (list Cell);
  structure : Structure
}.

Record Metadata := {
  pageCount : Z;
  extractionConfidence : Z;
  processedPages : list Z
}.

Record ExtractionResult := {
  text : jsstring;
  metadata : Metadata;
  tables : list Table
}.

Definition len {A} (l : list A) : Z := Z.of_nat (length l).

(** [currentTable[0] ? currentTable[0].length : 0] *)
Definition first_row_length {A} (t : list (list A)) : Z :=
  match t with
  | r :: _ => len r
  | [] => 0
  end.

Definition mkTable (page idx : Z) (d : list (list Cell)) : Table :=
  {| pageNumber := page; tableIndex := idx; data := d;
     structure := {| rows := len d; columns := first_row_length d |} |}.

(** [Array.from({ length: n }, (_, i) => i + 1)] *)
Definition pages_upto (n : Z) : list Z :=
  List.map (fun i => i + 1) (seqZ 0 n).

(** [text.split(/\s+/).filter(word => word.length > 0).length] *)
Definition wordCount (text : jsstring) : Z :=
  len (List.filter (fun word => 0 <? len word) (split_re re_spaces text)).

(** [Math.max(1, Math.ceil(wordCount / 500))] *)
Definition estimatedPages (text : jsstring) : Z :=
  Z.max 1 (Qceiling (wordCount text # 500)).

(** ** The table heuristic of the word-processor parser

    The loop of [extractDOCXText] over [text.split('\n')], with its three
    variables [currentTable], [tableIndex] and [extractedTables]. *)
Record TableScan := {
  currentTable : list (list Cell);
  nextIndex : Z;
  foundTables : list Table
}.

Definition is_row_candidate (line : jsstring) : bool :=
  includes TAB line || (2 <? len (split_re re_spaces2 line)).

Definition row_cells (line : jsstring) : list jsstring :=
  List.filter (fun cell => negb (jsstring_eqb (trim cell) []))
    (split_re re_tab_or_spaces2 line).

Definition scan_line (st : TableScan) (raw : jsstring) : TableScan :=
  let line := trim raw in
  if is_row_candidate line then
    let cells := row_cells line in
    if 1 <? len cells then
      {| currentTable := currentTable st ++ [List.map CStr cells];
         nextIndex := nextIndex st;
         foundTables := foundTables st |}
    else st
  else if 0 <? len (currentTable st) then
    if 1 <? len (currentTable st) then
      {| currentTable := [];
         nextIndex := nextIndex st + 1;
         foundTables :=
           foundTables st ++ [mkTable 1 (nextIndex st) (currentTable st)] |}
    else
      {| currentTable := [];
         nextIndex := nextIndex st;
         foundTables := foundTables st |}
  else st.

Definition scan_flush (st : TableScan) : list Table :=
  if 1 <? len (currentTable st) then
    foundTables st ++ [mkTable 1 (nextIndex st) (currentTable st)]
  else foundTables st.

Definition detectTables (lines : list jsstring) : list Table :=
  scan_flush
    (fold_left scan_line lines
       {| currentTable := []; nextIndex := 0; foundTables := [] |}).

(** ** Errors and the external engines *)

(** Payload of a tracker's ['error'] event. *)
Record ErrorEvent := {
  ee_documentId : jsstring;
  ee_error : jsstring;
  ee_elapsed : Z
}.

(** A thrown value: an [Error] with its message; an error raised by
    Node's [EventEmitter] for an ['error'] event that has no listener
    also carries the event's payload as its context. *)
Record Exn := {
  message : jsstring;
  context : option ErrorEvent
}.

Definition Error (msg : jsstring) : Exn :=
  {| message := msg; context := None |}.

Inductive Outcome (A : Type) :=
| Return (a : A)
| Throw (e : Exn).
Arguments Return {A} a.
Arguments Throw {A} e.

Global Instance Outcome_ret : MRet Outcome := fun A a => Return a.

Global Instance Outcome_bind : MBind Outcome := fun A B f o =>
  match o with
  | Return a => f a
  | Throw e => Throw e
  end.

(** The page-structured engine ([pdf-parse]). *)
Record PdfCell := { cell_text : option jsstring }.
Record PdfRow := { row_cells_ : option (list PdfCell) }.
Record PdfTable := { table_rows : option (list PdfRow) }.
Record PdfDoc := {
  numPages : Z;
  getText : Outcome jsstring;
  getPageTables : Z -> Outcome (option (list (option PdfTable)))
}.

(** A workbook as [XLSX.readFile] returns it; [Sheets] gives for a sheet
    the rows [XLSX.utils.sheet_to_json] computes for it with
    [{ header: 1, defval: '' }], every missing cell being [CStr []]. *)
Record Workbook := {
  SheetNames : list jsstring;
  Sheets : gmap jsstring (list (list Cell))
}.

(** What the code takes from its libraries and from the file system. *)
Record World := {
  fs_readFileSync : jsstring -> Outcome (list N);
  utf8_decode : list N -> jsstring;
  mammoth_extractRawText : jsstring -> Outcome (jsstring * list jsstring);
  XLSX_readFile : jsstring -> Outcome Workbook;
  Tesseract_recognize : list N -> Outcome (jsstring * Q);
  PDFParse_load : list N -> Outcome PdfDoc;
  path_extname : jsstring -> jsstring;
  toLowerCase : jsstring -> jsstring;
  toUpperCase : jsstring -> jsstring;
  number_toString : Q -> jsstring;
  util_inspect : ErrorEvent -> jsstring
}.

(** ** Documents, trackers and the state of the process *)

Inductive Status := pending | processing | completed | failed.

Global Instance Status_eq_dec : EqDecision Status.
Proof. solve_decision. Defined.

Definition status_string (st : Status) : jsstring :=
  match st with
  | pending => js "pending"
  | processing => js "processing"
  | completed => js "completed"
  | failed => js "failed"
  end.

(** models/Document.js *)
Record Document := {
  fileName : jsstring;
  originalName : jsstring;
  filePath : jsstring;
  fileType : jsstring;
  fileSize : Z;
  processingStatus : Status;
  extractedText : jsstring;
  extractedTables : list Table;
  doc_metadata : Metadata;
  extractionDate : Z;
  errorMessage : option jsstring
}.

(** utils/progressTracker.js; [errorListeners] counts the listeners
    registered on the emitter for ['error']. *)
Record ProgressTracker := {
  documentId : jsstring;
  progress : Z;
  status : Status;
  currentStep : jsstring;
  startTime : Z;
  errorListeners : nat
}.

Inductive Event :=
| EvProgress (id : jsstring) (p : Z) (step : jsstring) (st : Status) (elapsed : Z)
| EvStatus (id : jsstring) (st : Status) (step : jsstring) (p : Z) (elapsed : Z)
| EvError (ev : ErrorEvent).

Inductive Extractor := PDF | DOCX | EXCEL | TXT | OCR.

Inductive DbWrite :=
| WriteProcessing
| WriteCompleted (r : ExtractionResult) (date : Z)
| WriteFailed (msg : jsstring).

(** What a run does to the outside, in program order; [Invoke] marks the
    entry into a parser. *)
Inductive Effect :=
| Emit (tracker : nat) (e : Event)
| DbSave (id : jsstring)
| DbUpdate (id : jsstring) (w : DbWrite)
| Invoke (x : Extractor) (path : jsstring)
| SetTimeout (delay : Z) (id : jsstring).

(** A call of [processDocument] that has been started and not awaited. *)
Record Job := {
  job_id : jsstring;
  job_path : jsstring;
  job_type : jsstring;
  job_tracker : nat
}.

Record State := {
  documents : gmap jsstring Document;
  heap : list ProgressTracker;
  activeProgress : gmap jsstring nat;
  timers : list (Z * jsstring);
  spawned : list Job;
  clock : Z;
  trace : list Effect
}.

Definition initial_state : State :=
  {| documents := ∅; heap := []; activeProgress := ∅; timers := [];
     spawned := []; clock := 0; trace := [] |}.

Definition set_documents (f : gmap jsstring Document -> gmap jsstring Document)
  (s : State) : State :=
  {| documents := f (documents s); heap := heap s;
     activeProgress := activeProgress s; timers := timers s;
     spawned := spawned s; clock := clock s; trace := trace s |}.

Definition set_heap (f : list ProgressTracker -> list ProgressTracker)
  (s : State) : State :=
  {| documents := documents s; heap := f (heap s);
     activeProgress := activeProgress s; timers := timers s;
     spawned := spawned s; clock := clock s; trace := trace s |}.

Definition set_activeProgress (f : gmap jsstring nat -> gmap jsstring nat)
  (s : State) : State :=
  {| documents := documents s; heap := heap s;
     activeProgress := f (activeProgress s); timers := timers s;
     spawned := spawned s; clock := clock s; trace := trace s |}.

Definition set_timers (f : list (Z * jsstring) -> list (Z * jsstring))
  (s : State) : State :=
  {| documents := documents s; heap := heap s;
     activeProgress := activeProgress s; timers := f (timers s);
     spawned := spawned s; clock := clock s; trace := trace s |}.

Definition set_spawned (f : list Job -> list Job) (s : State) : State :=
  {| documents := documents s; heap := heap s;
     activeProgress := activeProgress s; timers := timers s;
     spawned := f (spawned s); clock := clock s; trace := trace s |}.

Definition log (e : Effect) (s : State) : State :=
  {| documents := documents s; heap := heap s;
     activeProgress := activeProgress s; timers := timers s;
     spawned := spawned s; clock := clock s; trace := trace s ++ [e] |}.

(** ** A state and exception monad for the asynchronous functions *)

Definition M (A : Type) : Type := State -> Outcome A * State.

Global Instance M_ret : MRet M := fun A a s => (Return a, s).

Global Instance M_bind : MBind M := fun A B f c s =>
  match c s with
  | (Return a, s') => f a s'
  | (Throw e, s') => (Throw e, s')
  end.

Definition throw {A} (e : Exn) : M A := fun s => (Throw e, s).

Definition gets {A} (f : State -> A) : M A := fun s => (Return (f s), s).

Definition modify (f : State -> State) : M unit := fun s => (Return tt, f s).

Definition tell (e : Effect) : M unit := modify (log e).

(** The result of a library call *)
Definition lift {A} (o : Outcome A) : M A := fun s => (o, s).

(** [try { c } catch (error) { h error }] *)
Definition try_catch {A} (c : M A) (h : Exn -> M A) : M A := fun s =>
  match c s with
  | (Return a, s') => (Return a, s')
  | (Throw e, s') => h e s'
  end.

(** [try { c } finally { f }] *)
Definition try_finally {A} (c : M A) (f : M unit) : M A := fun s =>
  match c s with
  | (o, s') =>
      match f s' with
      | (Return _, s'') => (o, s'')
      | (Throw e, s'') => (Throw e, s'')
      end
  end.

Definition Date_now : M Z := gets clock.

(** ** utils/progressTracker.js *)

Section Pipeline.

Variable W : World.

(** The object a reference points to; a reference that does not denote a
    tracker is a [TypeError] at its first use. *)
Definition readTracker (l : nat) : M ProgressTracker := fun s =>
  match heap s !! l with
  | Some t => (Return t, s)
  | None => (Throw (Error (js "Cannot read properties of undefined")), s)
  end.

Definition put_tracker (l : nat) (t : ProgressTracker) (s : State) : State :=
  set_heap (fun h => <[l := t]> h) s.

Definition writeTracker (l : nat) (t : ProgressTracker) : M unit :=
  modify (put_tracker l t).

(** [this.progress = Math.min(100, Math.max(0, progress));
     this.currentStep = step] *)
Definition with_progress (p : Z) (step : jsstring) (t : ProgressTracker)
  : ProgressTracker :=
  {| documentId := documentId t;
     progress := Z.min 100 (Z.max 0 p);
     status := status t;
     currentStep := step;
     startTime := startTime t;
     errorListeners := errorListeners t |}.

(** [this.status = status; this.currentStep = step] *)
Definition with_status (st : Status) (step : jsstring) (t : ProgressTracker)
  : ProgressTracker :=
  {| documentId := documentId t;
     progress := progress t;
     status := st;
     currentStep := step;
     startTime := startTime t;
     errorListeners := errorListeners t |}.

Definition progress_event (now : Z) (t : ProgressTracker) : Event :=
  EvProgress (documentId t) (progress t) (currentStep t) (status t)
    (now - startTime t).

Definition status_event (now : Z) (t : ProgressTracker) : Event :=
  EvStatus (documentId t) (status t) (currentStep t) (progress t)
    (now - startTime t).

Definition error_event (now : Z) (t : ProgressTracker) (error : Exn) : Event :=
  EvError {| ee_documentId := documentId t;
             ee_error := message error;
             ee_elapsed := now - startTime t |}.

Definition ERR_UNHANDLED_ERROR (ev : ErrorEvent) : Exn :=
  {| message := js "Unhandled error. (" ++ util_inspect W ev ++ js ")";
     context := Some ev |}.

(** [EventEmitter.prototype.emit]: an ['error'] event that no listener is
    registered for is thrown at the caller. *)
Definition emit (l : nat) (e : Event) : M unit :=
  t ← readTracker l;
  match e with
  | EvError ev =>
      if (errorListeners t =? 0)%nat then throw (ERR_UNHANDLED_ERROR ev)
      else tell (Emit l e)
  | _ => tell (Emit l e)
  end.

(** [new ProgressTracker(documentId)] *)
Definition new_ProgressTracker (id : jsstring) (now : Z) : ProgressTracker :=
  {| documentId := id; progress := 0; status := pending; currentStep := [];
     startTime := now; errorListeners := 0 |}.

Definition updateProgress (l : nat) (p : Z) (step : jsstring) : M unit :=
  t ← readTracker l;
  let t' := with_progress p step t in
  writeTracker l t' ;;
  now ← Date_now;
  emit l (progress_event now t').

Definition setStatus (l : nat) (st : Status) (step : jsstring) : M unit :=
  t ← readTracker l;
  let t' := with_status st step t in
  writeTracker l t' ;;
  now ← Date_now;
  emit l (status_event now t').

Definition complete (l : nat) : M unit :=
  setStatus l completed (js "Processing complete") ;;
  updateProgress l 100 (js "Complete").

Definition fail (l : nat) (error : Exn) : M unit :=
  setStatus l failed (js "Error: " ++ message error) ;;
  t ← readTracker l;
  now ← Date_now;
  emit l (error_event now t error).

(** The registry [activeProgress] *)
Definition createProgressTracker (id : jsstring) : M nat :=
  now ← Date_now;
  l ← gets (fun s => length (heap s));
  modify (set_heap (fun h => h ++ [new_ProgressTracker id now])) ;;
  modify (set_activeProgress (fun m => <[id := l]> m)) ;;
  mret l.

Definition getProgressTracker (id : jsstring) : M (option nat) :=
  gets (fun s => activeProgress s !! id).

Definition removeProgressTracker (id : jsstring) : M unit :=
  modify (set_activeProgress (fun m => delete id m)).

(** ** The document store (mongoose) *)

Definition apply_write (w : DbWrite) (d : Document) : Document :=
  match w with
  | WriteProcessing =>
      {| fileName := fileName d; originalName := originalName d;
         filePath := filePath d; fileType := fileType d;
         fileSize := fileSize d; processingStatus := processing;
         extractedText := extractedText d;
         extractedTables := extractedTables d;
         doc_metadata := doc_metadata d;
         extractionDate := extractionDate d;
         errorMessage := errorMessage d |}
  | WriteCompleted r date =>
      {| fileName := fileName d; originalName := originalName d;
         filePath := filePath d; fileType := fileType d;
         fileSize := fileSize d; processingStatus := completed;
         extractedText := text r;
         extractedTables := tables r;
         doc_metadata :=
           {| pageCount := pageCount (metadata r);
              extractionConfidence := extractionConfidence (metadata r);
              processedPages := processedPages (metadata r) |};
         extractionDate := date;
         errorMessage := errorMessage d |}
  | WriteFailed msg =>
      {| fileName := fileName d; originalName := originalName d;
         filePath := filePath d; fileType := fileType d;
         fileSize := fileSize d; processingStatus := failed;
         extractedText := extractedText d;
         extractedTables := extractedTables d;
         doc_metadata := doc_metadata d;
         extractionDate := extractionDate d;
         errorMessage := Some msg |}
  end.

(** [Document.findByIdAndUpdate(id, update)]: nothing is written when no
    document has that id. *)
Definition Document_findByIdAndUpdate (id : jsstring) (w : DbWrite)
  : M (option Document) :=
  tell (DbUpdate id w) ;;
  modify (set_documents (fun m => alter (apply_write w) id m)) ;;
  gets (fun s => documents s !! id).

(** [Document.findById(id)] for an id as the store gives it
    ([document._id.toString()]).  What mongoose does with any other
    string (a [CastError] for one that is no ObjectId, the same record
    for another spelling of an ObjectId) is not part of this definition:
    the statements about a lookup take an id that is registered or
    stored, or one that [getDocumentById] and [deleteDocument] let
    through. *)
Definition Document_findById (id : jsstring) : M (option Document) :=
  gets (fun s => documents s !! id).

(** The schema's [required] paths: a required string must not be empty. *)
Definition schema_valid (d : Document) : bool :=
  negb (jsstring_eqb (fileName d) [])
  && negb (jsstring_eqb (originalName d) [])
  && negb (jsstring_eqb (filePath d) []).

(** [document.save()] of a new document with id [id] *)
Definition Document_save (id : jsstring) (d : Document) : M unit :=
  if schema_valid d then
    tell (DbSave id) ;;
    modify (set_documents (fun m => <[id := d]> m))
  else throw (Error (js "Document validation failed")).

(** ** The parsers *)

Definition result (t : jsstring) (pages confidence : Z) (tbls : list Table)
  : ExtractionResult :=
  {| text := t;
     metadata := {| pageCount := pages;
                    extractionConfidence := confidence;
                    processedPages := pages_upto pages |};
     tables := tbls |}.

(** The items of an array with their indices, as [forEach] passes them. *)
Definition indexed {A} (l : list A) : list (Z * A) :=
  combine (seqZ 0 (len l)) l.

(** utils/txtParser.js *)
Definition extractTXTText (path : jsstring) : M ExtractionResult :=
  tell (Invoke TXT path) ;;
  try_catch
    (bytes ← lift (fs_readFileSync W path);
     let text := utf8_decode W bytes in
     mret (result text (estimatedPages text) 100 []))
    (fun error =>
       throw (Error (js "Failed to extract TXT content: " ++ message error))).

(** utils/docxParser.js *)
Definition extractDOCXText (path : jsstring) : M ExtractionResult :=
  tell (Invoke DOCX path) ;;
  try_catch
    (r ← lift (mammoth_extractRawText W path);
     let text := fst r in
     let messages := snd r in
     extractedTables ←
       try_catch
         (_ ← lift (mammoth_extractRawText W path);
          mret (detectTables (split_char LF text)))
         (fun tableError => mret []);
     mret (result text (estimatedPages text)
             (if len messages =? 0 then 95 else 85) extractedTables))
    (fun error =>
       throw (Error (js "Failed to extract DOCX content: " ++ message error))).

(** utils/excelParser.js *)
Definition cell_toString (c : Cell) : jsstring :=
  match c with
  | CStr s => s
  | CNum q => number_toString W q
  | CBool true => js "true"
  | CBool false => js "false"
  end.

(** [Array.prototype.join] *)
Fixpoint join (sep : jsstring) (l : list jsstring) : jsstring :=
  match l with
  | [] => []
  | [x] => x
  | x :: l' => x ++ sep ++ join sep l'
  end.

(** [cell !== ''] *)
Definition cell_filled (c : Cell) : bool :=
  match c with
  | CStr [] => false
  | _ => true
  end.

(** [jsonData.filter(row => row.some(cell => cell !== ''))] *)
Definition cleanRows (jsonData : list (list Cell)) : list (list Cell) :=
  List.filter (fun row => existsb cell_filled row) jsonData.

Definition sheet_rows (wb : Workbook) (sheetName : jsstring)
  : list (list Cell) :=
  default [] (Sheets wb !! sheetName).

(** The body of [sheetNames.forEach((sheetName, index) => ...)] on the two
    variables [combinedText] and [extractedTables] it updates. *)
Definition sheet_step (wb : Workbook) (acc : jsstring * list Table)
  (item : Z * jsstring) : jsstring * list Table :=
  let index := fst item in
  let sheetName := snd item in
  let jsonData := sheet_rows wb sheetName in
  let textData :=
    join [LF] (List.map (fun row => join [TAB] (List.map cell_toString row))
                 jsonData) in
  let combinedText :=
    fst acc ++ js "Sheet: " ++ sheetName ++ [LF] ++ textData ++ [LF; LF] in
  let cleanData := cleanRows jsonData in
  (combinedText,
   if 0 <? len cleanData
   then snd acc ++ [mkTable (index + 1) index cleanData]
   else snd acc).

Definition extractExcelData (path : jsstring) : M ExtractionResult :=
  tell (Invoke EXCEL path) ;;
  try_catch
    (workbook ← lift (XLSX_readFile W path);
     let sheetNames := SheetNames workbook in
     let acc := fold_left (sheet_step workbook) (indexed sheetNames) ([], []) in
     mret {| text := trim (fst acc);
             metadata := {| pageCount := len sheetNames;
                            extractionConfidence := 98;
                            processedPages := pages_upto (len sheetNames) |};
             tables := snd acc |})
    (fun error =>
       throw (Error (js "Failed to extract Excel content: " ++ message error))).

(** utils/ocrParser.js *)

(** [Math.round]: the nearest integer, a tie going up. *)
Definition Math_round (q : Q) : Z := Qfloor (q + (1 # 2)).

Definition extractOCRText (path : jsstring) : M ExtractionResult :=
  tell (Invoke OCR path) ;;
  try_catch
    (imageBuffer ← lift (fs_readFileSync W path);
     r ← lift (Tesseract_recognize W imageBuffer);
     let text := fst r in
     let confidence := snd r in
     mret (result (trim text) (estimatedPages text) (Math_round confidence) []))
    (fun error =>
       throw (Error (js "Failed to extract OCR content: " ++ message error))).

(** utils/pdfParser.js *)
Definition pdf_cell (c : PdfCell) : Cell :=
  match cell_text c with
  | Some (x :: t) => CStr (x :: t)
  | _ => CStr []
  end.

Definition pdf_row (r : PdfRow) : list Cell :=
  match row_cells_ r with
  | Some cs => List.map pdf_cell cs
  | None => []
  end.

Definition pdf_table (pageNum : Z) (item : Z * option PdfTable) : list Table :=
  match snd item with
  | Some {| table_rows := Some rs |} =>
      if 0 <? len rs
      then [mkTable pageNum (fst item) (List.map pdf_row rs)]
      else []
  | _ => []
  end.

(** One turn of the loop over the pages; an error of the table detector
    leaves the page without tables. *)
Definition pdf_page (doc : PdfDoc) (pageNum : Z) : list Table :=
  match getPageTables doc pageNum with
  | Return (Some pageTables) =>
      if 0 <? len pageTables
      then concat (List.map (pdf_table pageNum) (indexed pageTables))
      else []
  | _ => []
  end.

Definition extractPDFText (path : jsstring) : M ExtractionResult :=
  tell (Invoke PDF path) ;;
  try_catch
    (dataBuffer ← lift (fs_readFileSync W path);
     parser ← lift (PDFParse_load W dataBuffer);
     textResult ← lift (getText parser);
     let extractedTables :=
       concat (List.map (pdf_page parser) (seqZ 1 (numPages parser))) in
     mret {| text := textResult;
             metadata := {| pageCount := numPages parser;
                            extractionConfidence := 95;
                            processedPages := pages_upto (numPages parser) |};
             tables := extractedTables |})
    (fun error =>
       throw (Error (js "Failed to extract PDF content: " ++ message error))).

(** ** controllers/documentController.js *)

Definition allowedTypes : list jsstring :=
  [js "pdf"; js "docx"; js "xlsx"; js "xls"; js "txt"; js "jpg"; js "jpeg";
   js "png"].

Definition is_image (fileType : jsstring) : bool :=
  jsstring_eqb fileType (js "jpg") || jsstring_eqb fileType (js "jpeg")
  || jsstring_eqb fileType (js "png").

(** The [switch (fileType)] of [processDocument] *)
Definition dispatch (fileType path : jsstring) (tracker : nat)
  : M ExtractionResult :=
  if jsstring_eqb fileType (js "pdf") then extractPDFText path
  else if jsstring_eqb fileType (js "docx") then extractDOCXText path
  else if jsstring_eqb fileType (js "xlsx") || jsstring_eqb fileType (js "xls")
  then extractExcelData path
  else if jsstring_eqb fileType (js "txt") then extractTXTText path
  else if is_image fileType then
    updateProgress tracker 50 (js "Performing OCR on image") ;;
    extractOCRText path
  else throw (Error (js "Unsupported file type")).

Definition cleanup_delay : Z := 5 * 60 * 1000.

Definition processDocument (id path fileType : jsstring) (tracker : nat)
  : M unit :=
  try_finally
    (try_catch
       (_ ← Document_findByIdAndUpdate id WriteProcessing;
        updateProgress tracker 10 (js "Reading file") ;;
        updateProgress tracker 30
          (js "Processing " ++ toUpperCase W fileType ++ js " file") ;;
        extractedData ← dispatch fileType path tracker;
        updateProgress tracker 80 (js "Saving extracted data") ;;
        now ← Date_now;
        _ ← Document_findByIdAndUpdate id (WriteCompleted extractedData now);
        complete tracker)
       (fun error =>
          fail tracker error ;;
          _ ← Document_findByIdAndUpdate id (WriteFailed (message error));
          mret tt))
    (tell (SetTimeout cleanup_delay id) ;;
     modify (set_timers (fun t => t ++ [(cleanup_delay, id)]))).

(** The uploaded file as multer hands it over ([req.file]) *)
Record File := {
  originalname : jsstring;
  filename : jsstring;
  path_ : jsstring;
  size : Z
}.

Inductive Body :=
| ErrorBody (error code : jsstring)
| UploadedBody (id fileName_ fileType_ : jsstring) (st : Status)
| ProgressBody (id : jsstring) (st : Status) (p : Z) (step : jsstring)
    (elapsed : Z).

Record Response := { statusCode : Z; body : Body }.

Definition json (code : Z) (b : Body) : M Response :=
  mret {| statusCode := code; body := b |}.

Definition fileExt_of (file : File) : jsstring :=
  drop 1 (toLowerCase W (path_extname W (originalname file))).

Definition maxSize : Z := 10 * 1024 * 1024.

(** [uploadDocument]; [oid] is the identifier the store gives the new
    document.  The call of [processDocument] is not awaited: it is
    recorded as a spawned job, which runs when the system takes it up. *)
Definition uploadDocument (req_file : option File) (oid : jsstring)
  : M Response :=
  try_catch
    (match req_file with
     | None => json 400 (ErrorBody (js "No file uploaded") (js "NO_FILE_UPLOADED"))
     | Some file =>
         let fileExt := fileExt_of file in
         if negb (bool_decide (fileExt ∈ allowedTypes)) then
           json 400 (ErrorBody (js "Invalid file type") (js "INVALID_FILE_TYPE"))
         else if maxSize <? size file then
           json 400 (ErrorBody (js "File too large") (js "FILE_TOO_LARGE"))
         else if jsstring_eqb (originalname file) []
                 || (len (trim (originalname file)) =? 0) then
           json 400 (ErrorBody (js "Invalid file name") (js "INVALID_FILE_NAME"))
         else
           now ← Date_now;
           let document :=
             {| fileName := trim (filename file);
                originalName := originalname file;
                filePath := path_ file;
                fileType := fileExt;
                fileSize := size file;
                processingStatus := pending;
                extractedText := [];
                extractedTables := [];
                doc_metadata := {| pageCount := 0; extractionConfidence := 0;
                                   processedPages := [] |};
                extractionDate := now;
                errorMessage := None |} in
           Document_save oid document ;;
           progressTracker ← createProgressTracker oid;
           setStatus progressTracker processing
             (js "Starting document processing") ;;
           modify (set_spawned (fun q =>
             q ++ [{| job_id := oid; job_path := path_ file;
                      job_type := fileExt; job_tracker := progressTracker |}])) ;;
           json 201 (UploadedBody oid (originalName document)
                       (fileType document) (processingStatus document))
     end)
    (fun error =>
       json 500 (ErrorBody (js "Failed to upload document") (js "UPLOAD_ERROR"))).

(** [getDocumentProgress] for [req.params.id = id] *)
Definition getDocumentProgress (id : jsstring) : M Response :=
  try_catch
    (progressTracker ← getProgressTracker id;
     match progressTracker with
     | None =>
         document ← Document_findById id;
         match document with
         | None =>
             json 404 (ErrorBody (js "Document not found")
                         (js "DOCUMENT_NOT_FOUND"))
         | Some document =>
             json 200 (ProgressBody id (processingStatus document)
                         (if bool_decide (processingStatus document = completed)
                          then 100 else 0)
                         (status_string (processingStatus document)) 0)
         end
     | Some l =>
         t ← readTracker l;
         now ← Date_now;
         json 200 (ProgressBody id (status t) (progress t) (currentStep t)
                     (now - startTime t))
     end)
    (fun error =>
       json 500 (ErrorBody (js "Failed to get progress")
                   (js "GET_PROGRESS_ERROR"))).

End Pipeline.

(** ** A concrete world for the examples *)

Definition ascii_upper (s : jsstring) : jsstring :=
  List.map (fun c => if ((97 <=? c) && (c <=? 122))%N then (c - 32)%N else c) s.

Definition ascii_lower (s : jsstring) : jsstring :=
  List.map (fun c => if ((65 <=? c) && (c <=? 90))%N then (c + 32)%N else c) s.

(** The extension of a plain file name: from its last dot on. *)
Fixpoint last_dot_suffix (s : jsstring) : option jsstring :=
  match s with
  | [] => None
  | c :: s' =>
      match last_dot_suffix s' with
      | Some r => Some r
      | None => if (c =? 46)%N then Some s else None
      end
  end.

Definition plain_extname (s : jsstring) : jsstring :=
  match s with
  | [] => []
  | c :: s' => default [] (last_dot_suffix s')
  end.

Definition ENOENT : Exn := Error (js "ENOENT: no such file or directory").

Definition demo_workbook : Workbook :=
  {| SheetNames := [js "Sheet1"; js "Sheet2"];
     Sheets := {[ js "Sheet1" := [[CStr (js "name"); CStr (js "qty")];
                                  [CStr []; CStr []];
                                  [CStr (js "bolt"); CStr (js "4")]];
                  js "Sheet2" := [[CStr []; CStr []]; [CStr []]] ]} |}.

Definition demo_world : World :=
  {| fs_readFileSync := fun p =>
       if jsstring_eqb p (js "uploads/notes.txt") then Return (js "hello wide world")
       else if jsstring_eqb p (js "uploads/scan.png") then Return [137; 80; 78; 71]%N
       else if jsstring_eqb p (js "uploads/paper.pdf") then Return [37; 80; 68; 70]%N
       else Throw ENOENT;
     utf8_decode := fun b => b;
     mammoth_extractRawText := fun p =>
       if jsstring_eqb p (js "uploads/report.docx")
       then Return (js "Title" ++ [LF] ++ js "a" ++ [TAB] ++ js "b" ++ [LF]
                    ++ js "1" ++ [TAB] ++ js "2" ++ [LF], [])
       else Throw ENOENT;
     XLSX_readFile := fun p =>
       if jsstring_eqb p (js "uploads/book.xlsx") then Return demo_workbook
       else Throw ENOENT;
     Tesseract_recognize := fun _ => Return (js " scanned words ", 175 # 2);
     PDFParse_load := fun _ => Throw (Error (js "Invalid PDF structure"));
     path_extname := plain_extname;
     toLowerCase := ascii_lower;
     toUpperCase := ascii_upper;
     number_toString := fun _ => js "0";
     util_inspect := fun ev => ee_error ev |}.

Definition demo_file (name stored : string) : File :=
  {| originalname := js name; filename := js stored;
     path_ := js "uploads/" ++ js stored; size := 2048 |}.

(** The state a run ends in, and its outcome. *)
Definition exec {A} (c : M A) (s : State) : State := snd (c s).
Definition eval {A} (c : M A) (s : State) : Outcome A := fst (c s).

(** ** The system: request handlers, spawned jobs and timers

    A coarse view of the running server: a step is a whole upload
    request, a whole run of a spawned job, a progress query, a cleanup
    timer that fires, or time that passes.  A run of a job counts as one
    step: the states the server is in while a job waits for the store or
    for a parser are not states of this relation, and the relation does
    not end where the runtime ends the process after a job's promise is
    rejected. *)

Definition advance (dt : Z) (s : State) : State :=
  {| documents := documents s; heap := heap s;
     activeProgress := activeProgress s; timers := timers s;
     spawned := spawned s; clock := clock s + dt; trace := trace s |}.

Definition run_job (W : World) (j : Job) : M unit :=
  processDocument W (job_id j) (job_path j) (job_type j) (job_tracker j).

Inductive step (W : World) : State -> State -> Prop :=
| step_upload (f : option File) (oid : jsstring) (s : State) :
    documents s !! oid = None ->
    step W s (exec (uploadDocument W f oid) s)
| step_job (j : Job) (q1 q2 : list Job) (s : State) :
    spawned s = q1 ++ j :: q2 ->
    step W s (exec (run_job W j) (set_spawned (fun _ => q1 ++ q2) s))
| step_query (id : jsstring) (s : State) :
    step W s (exec (getDocumentProgress id) s)
| step_timer (d : Z) (id : jsstring) (t1 t2 : list (Z * jsstring)) (s : State) :
    timers s = t1 ++ (d, id) :: t2 ->
    step W s (exec (removeProgressTracker id) (set_timers (fun _ => t1 ++ t2) s))
| step_time (dt : Z) (s : State) :
    0 <= dt ->
    step W s (advance dt s).

Inductive reachable (W : World) : State -> Prop :=
| reach_init : reachable W initial_state
| reach_step (s s' : State) : reachable W s -> step W s s' -> reachable W s'.

(** ** The design document's wording, for comparison *)

(** Words: the maximal runs of code units that are not white space. *)
Fixpoint tokens_from (cur s : jsstring) : list jsstring :=
  match s with
  | [] => match cur with [] => [] | _ => [cur] end
  | c :: s' =>
      if is_space c then
        match cur with
        | [] => tokens_from [] s'
        | _ => cur :: tokens_from [] s'
        end
      else tokens_from (cur ++ [c]) s'
  end.

Definition tokens (s : jsstring) : list jsstring := tokens_from [] s.

(** [max(1, ceil(n / 500))] on integers *)
Definition spec_pageCount (words : Z) : Z := Z.max 1 ((words + 499) / 500).

(** How the heuristic sees a line: a row with its cells, a row candidate
    that is not accumulated, or a line that is no row. *)
Inductive LineKind :=
| Row (cells : list jsstring)
| Skipped
| Prose.

Definition spec_cells (line : jsstring) : list jsstring :=
  List.filter (fun seg => negb (jsstring_eqb seg []))
    (split_re re_tab_or_spaces2 line).

Definition classify (raw : jsstring) : LineKind :=
  let line := trim raw in
  if includes TAB line || (2 <? len (split_re re_spaces2 line)) then
    let cells := spec_cells line in
    if 1 <? len cells then Row cells else Skipped
  else Prose.

(** The accumulators in the order they are closed, the one left after the
    last line included. *)
Fixpoint spec_groups (acc : list (list Cell)) (lines : list jsstring)
  : list (list (list Cell)) :=
  match lines with
  | [] => [acc]
  | l :: ls =>
      match classify l with
      | Row cells => spec_groups (acc ++ [List.map CStr cells]) ls
      | Skipped => spec_groups acc ls
      | Prose => acc :: spec_groups [] ls
      end
  end.

(** Tables numbered from [i] in the order of discovery, on page 1. *)
Fixpoint number_tables (i : Z) (gs : list (list (list Cell))) : list Table :=
  match gs with
  | [] => []
  | g :: gs' => mkTable 1 i g :: number_tables (i + 1) gs'
  end.

Definition spec_detectTables (lines : list jsstring) : list Table :=
  number_tables 0
    (List.filter (fun g => 1 <? len g) (spec_groups [] lines)).

(** One table for each sheet that keeps a row, at the sheet's index. *)
Definition sheet_has_data (wb : Workbook) (name : jsstring) : bool :=
  existsb (existsb cell_filled) (sheet_rows wb name).

Definition spec_sheet_table (wb : Workbook) (item : Z * jsstring) : list Table :=
  if sheet_has_data wb (snd item)
  then [mkTable (fst item + 1) (fst item) (cleanRows (sheet_rows wb (snd item)))]
  else [].

Definition spec_sheet_tables (wb : Workbook) : list Table :=
  concat (List.map (spec_sheet_table wb) (indexed (SheetNames wb))).

(** *** The parsers as functions of the engines' answers *)

(** [catch (error) { throw new Error(prefix + error.message) }] *)
Definition rethrow {A} (prefix : string) (o : Outcome A) : Outcome A :=
  match o with
  | Return a => Return a
  | Throw e => Throw (Error (js prefix ++ message e))
  end.

(** A result whose page count is estimated from the words of [words] and
    whose processed pages are [1..pageCount]. *)
Definition estimated_result (t words : jsstring) (confidence : Z)
  (tbls : list Table) : ExtractionResult :=
  {| text := t;
     metadata := {| pageCount := spec_pageCount (len (tokens words));
                    extractionConfidence := confidence;
                    processedPages := seqZ 1 (spec_pageCount (len (tokens words))) |};
     tables := tbls |}.

Definition txt_outcome (W : World) (path : jsstring) : Outcome ExtractionResult :=
  rethrow "Failed to extract TXT content: "
    (bytes ← fs_readFileSync W path;
     let text := utf8_decode W bytes in
     mret (estimated_result text text 100 [])).

Definition docx_outcome (W : World) (path : jsstring) : Outcome ExtractionResult :=
  rethrow "Failed to extract DOCX content: "
    (r ← mammoth_extractRawText W path;
     mret (estimated_result (fst r) (fst r)
             (match snd r with [] => 95 | _ => 85 end)
             (spec_detectTables (split_char LF (fst r))))).

Definition ocr_outcome (W : World) (path : jsstring) : Outcome ExtractionResult :=
  rethrow "Failed to extract OCR content: "
    (imageBuffer ← fs_readFileSync W path;
     r ← Tesseract_recognize W imageBuffer;
     mret (estimated_result (trim (fst r)) (fst r) (Math_round (snd r)) [])).

Definition sheet_text (W : World) (wb : Workbook) (sheetName : jsstring)
  : jsstring :=
  js "Sheet: " ++ sheetName ++ [LF]
  ++ join [LF] (List.map (fun row => join [TAB] (List.map (cell_toString W) row))
                  (sheet_rows wb sheetName))
  ++ [LF; LF].

Definition excel_outcome (W : World) (path : jsstring) : Outcome ExtractionResult :=
  rethrow "Failed to extract Excel content: "
    (wb ← XLSX_readFile W path;
     mret {| text := trim (concat (List.map (sheet_text W wb) (SheetNames wb)));
             metadata := {| pageCount := len (SheetNames wb);
                            extractionConfidence := 98;
                            processedPages := seqZ 1 (len (SheetNames wb)) |};
             tables := spec_sheet_tables wb |}).

Definition pdf_outcome (W : World) (path : jsstring) : Outcome ExtractionResult :=
  rethrow "Failed to extract PDF content: "
    (dataBuffer ← fs_readFileSync W path;
     parser ← PDFParse_load W dataBuffer;
     textResult ← getText parser;
     mret {| text := textResult;
             metadata := {| pageCount := numPages parser;
                            extractionConfidence := 95;
                            processedPages := seqZ 1 (numPages parser) |};
             tables := concat (List.map (pdf_page parser)
                                 (seqZ 1 (numPages parser))) |}).

(** The parser the dispatcher chooses for a tag *)
Definition extractor_of (fileType : jsstring) : option Extractor :=
  if jsstring_eqb fileType (js "pdf") then Some PDF
  else if jsstring_eqb fileType (js "docx") then Some DOCX
  else if jsstring_eqb fileType (js "xlsx") || jsstring_eqb fileType (js "xls")
  then Some EXCEL
  else if jsstring_eqb fileType (js "txt") then Some TXT
  else if is_image fileType then Some OCR
  else None.

Definition extractor_outcome (W : World) (x : Extractor) (path : jsstring)
  : Outcome ExtractionResult :=
  match x with
  | PDF => pdf_outcome W path
  | DOCX => docx_outcome W path
  | EXCEL => excel_outcome W path
  | TXT => txt_outcome W path
  | OCR => ocr_outcome W path
  end.

Definition dispatch_outcome (W : World) (fileType path : jsstring)
  : Outcome ExtractionResult :=
  match extractor_of fileType with
  | Some x => extractor_outcome W x path
  | None => Throw (Error (js "Unsupported file type"))
  end.

(** What a run adds to the trace, and the progress values it reports. *)
Definition new_trace {A} (c : M A) (s : State) : list Effect :=
  drop (length (trace s)) (trace (exec c s)).

Definition progress_of (e : Effect) : list Z :=
  match e with
  | Emit _ (EvProgress _ p _ _ _) => [p]
  | _ => []
  end.

Definition progress_values (tr : list Effect) : list Z :=
  concat (List.map progress_of tr).

Definition returned {A} (o : Outcome A) : option A :=
  match o with
  | Return a => Some a
  | Throw _ => None
  end.

Definition returned_error {A} (o : Outcome A) : option Exn :=
  match o with
  | Return _ => None
  | Throw e => Some e
  end.

(** ** Notions used in the statements *)

Definition nonempty (w : jsstring) : bool := 0 <? len w.

Definition clean_end (s : jsstring) : Prop :=
  forall c, last s = Some c -> is_space c = false.

Definition has_nonspace (s : jsstring) : Prop :=
  exists c, In c s /\ is_space c = false.

(** A piece is good when it is empty or holds a code unit that is not
    white space: those are the pieces on which "empty" and "blank after
    trimming" agree. *)
Definition good (seg : jsstring) : Prop := seg = [] \/ has_nonspace seg.

(** While a piece is collected it is good, or it is a single blank that
    the next code unit will make good. *)
Definition collecting (cur s : jsstring) : Prop :=
  good cur \/ exists c s', s = c :: s' /\ is_space c = false.

Definition big (g : list (list Cell)) : bool := 1 <? len g.

Definition ex_table_lines : list jsstring :=
  [ js "a" ++ [TAB] ++ js "b" ++ [TAB] ++ js "c";
    js "1" ++ [TAB] ++ js "2" ++ [TAB] ++ js "3";
    js "not a table line" ].

Definition ex_single_row : list jsstring :=
  [ js "x" ++ [TAB] ++ js "y" ++ [TAB] ++ js "z"; js "prose" ].

(** The tracker at the checkpoints of a run that starts with tracker [t]. *)
Definition t_read (t : ProgressTracker) : ProgressTracker :=
  with_progress 10 (js "Reading file") t.

Definition t_processing (W : World) (tag : jsstring) (t : ProgressTracker)
  : ProgressTracker :=
  with_progress 30 (js "Processing " ++ toUpperCase W tag ++ js " file")
    (t_read t).

Definition t_dispatched (W : World) (tag : jsstring) (t : ProgressTracker)
  : ProgressTracker :=
  if is_image tag
  then with_progress 50 (js "Performing OCR on image") (t_processing W tag t)
  else t_processing W tag t.

Definition t_saving (W : World) (tag : jsstring) (t : ProgressTracker)
  : ProgressTracker :=
  with_progress 80 (js "Saving extracted data") (t_dispatched W tag t).

Definition t_completed (W : World) (tag : jsstring) (t : ProgressTracker)
  : ProgressTracker :=
  with_status completed (js "Processing complete") (t_saving W tag t).

Definition t_done (W : World) (tag : jsstring) (t : ProgressTracker)
  : ProgressTracker :=
  with_progress 100 (js "Complete") (t_completed W tag t).

Definition t_failed (W : World) (tag : jsstring) (error : Exn)
  (t : ProgressTracker) : ProgressTracker :=
  with_status failed (js "Error: " ++ message error) (t_dispatched W tag t).

(** The effects of a run up to the point where the parser has answered. *)
Definition opening_effects (W : World) (id path tag : jsstring) (l : nat)
  (t : ProgressTracker) (now : Z) : list Effect :=
  [ DbUpdate id WriteProcessing;
    Emit l (progress_event now (t_read t));
    Emit l (progress_event now (t_processing W tag t)) ]
  ++ match extractor_of tag with
     | None => []
     | Some x =>
         (if is_image tag
          then [Emit l (progress_event now (t_dispatched W tag t))]
          else [])
         ++ [Invoke x path]
     end.

Definition success_effects (W : World) (id path tag : jsstring) (l : nat)
  (t : ProgressTracker) (now : Z) (r : ExtractionResult) : list Effect :=
  opening_effects W id path tag l t now
  ++ [ Emit l (progress_event now (t_saving W tag t));
       DbUpdate id (WriteCompleted r now);
       Emit l (status_event now (t_completed W tag t));
       Emit l (progress_event now (t_done W tag t));
       SetTimeout cleanup_delay id ].

Definition demo_upload : M Response :=
  uploadDocument demo_world (Some (demo_file "Notes.TXT" "notes.txt")) (js "id1").

Definition s_uploaded : State := exec demo_upload initial_state.

Definition unsupported : Exn := Error (js "Unsupported file type").

Definition is_terminal_write (e : Effect) : bool :=
  match e with
  | DbUpdate _ (WriteCompleted _ _) => true
  | DbUpdate _ (WriteFailed _) => true
  | _ => false
  end.

(** A text file that was uploaded and can no longer be read. *)
Definition lost_upload : M Response :=
  uploadDocument demo_world (Some (demo_file "Lost.txt" "lost.txt")) (js "id7").

Definition s_lost : State := exec lost_upload initial_state.

Definition lost_job : Job :=
  {| job_id := js "id7"; job_path := js "uploads/lost.txt";
     job_type := js "txt"; job_tracker := 0 |}.

(** A page-structured document the engine rejects. *)
Definition corrupt_upload : M Response :=
  uploadDocument demo_world (Some (demo_file "Paper.pdf" "paper.pdf")) (js "id9").

Definition s_corrupt : State := exec corrupt_upload initial_state.

Definition corrupt_job : Job :=
  {| job_id := js "id9"; job_path := js "uploads/paper.pdf";
     job_type := js "pdf"; job_tracker := 0 |}.

Definition notes_job : Job :=
  {| job_id := js "id1"; job_path := js "uploads/notes.txt";
     job_type := js "txt"; job_tracker := 0 |}.

(** [P] holds of the result when the engines answer, and the parser
    fails when they fail. *)
Definition on_success {A} (engine : Outcome A)
  (o : Outcome ExtractionResult) (P : A -> ExtractionResult -> Prop) : Prop :=
  match engine with
  | Return a => exists r, o = Return r /\ P a r
  | Throw _ => returned o = None
  end.

Definition estimated_pages (words : jsstring) (r : ExtractionResult) : Prop :=
  pageCount (metadata r) = Z.max 1 (Qceiling (len (tokens words) # 500))
  /\ processedPages (metadata r) = seqZ 1 (pageCount (metadata r)).

Definition text_world (content : jsstring) : World :=
  {| fs_readFileSync := fun _ => Return content;
     utf8_decode := fun b => b;
     mammoth_extractRawText := mammoth_extractRawText demo_world;
     XLSX_readFile := XLSX_readFile demo_world;
     Tesseract_recognize := Tesseract_recognize demo_world;
     PDFParse_load := PDFParse_load demo_world;
     path_extname := plain_extname;
     toLowerCase := ascii_lower;
     toUpperCase := ascii_upper;
     number_toString := number_toString demo_world;
     util_inspect := util_inspect demo_world |}.

Definition thousand_words : jsstring := concat (repeat (js "lorem ") 1000).

Definition confidence (r : ExtractionResult) : Z :=
  extractionConfidence (metadata r).

(** The integer nearest to [q], the upper one of two that are equally
    near. *)
Definition nearest_integer (q : Q) (z : Z) : Prop :=
  (inject_Z z - (1 # 2) <= q)%Q /\ (q < inject_Z z + (1 # 2))%Q.

Definition d_notes_done : Document :=
  {| fileName := js "notes.txt"; originalName := js "Notes.TXT";
     filePath := js "uploads/notes.txt"; fileType := js "txt";
     fileSize := 2048; processingStatus := completed;
     extractedText := js "hello wide world"; extractedTables := [];
     doc_metadata := {| pageCount := 1; extractionConfidence := 100;
                        processedPages := [1] |};
     extractionDate := 0; errorMessage := None |}.

(** The notes have been processed and the cleanup timer has fired. *)
Definition s_notes_done : State :=
  exec (removeProgressTracker (js "id1"))
    (exec (run_job demo_world notes_job)
       (set_spawned (fun _ => []) s_uploaded)).

(** No tracker that the registry holds is in status [pending]. *)
Definition registry_not_pending (s : State) : Prop :=
  forall id l, activeProgress s !! id = Some l ->
    exists t, heap s !! l = Some t /\ status t <> pending.

Definition preserves {A} (I : State -> Prop) (c : M A) : Prop :=
  forall s, I s -> I (snd (c s)).

(** A record agrees with its status: no error message when [completed],
    one when [failed]. *)
Definition record_consistent (d : Document) : Prop :=
  (processingStatus d = completed -> errorMessage d = None)
  /\ (processingStatus d = failed -> errorMessage d <> None).

(** A record as [uploadDocument] saves it. *)
Definition fresh_record (d : Document) : Prop :=
  processingStatus d = pending /\ errorMessage d = None.

(** Every record is consistent; the jobs that wait have distinct ids, an
    untouched record, a tracker and a supported file type. *)
Definition store_invariant (s : State) : Prop :=
  (forall id d, documents s !! id = Some d -> record_consistent d)
  /\ (forall j, j ∈ spawned s ->
        (exists d, documents s !! job_id j = Some d /\ fresh_record d)
        /\ (job_tracker j < length (heap s))%nat
        /\ job_type j ∈ allowedTypes)
  /\ NoDup (List.map job_id (spawned s)).

(** ** Further notions: uploads *)

(** The record [uploadDocument] saves for [file] at time [now]. *)
Definition uploaded_record (W : World) (file : File) (now : Z) : Document :=
  {| fileName := trim (filename file);
     originalName := originalname file;
     filePath := path_ file;
     fileType := fileExt_of W file;
     fileSize := size file;
     processingStatus := pending;
     extractedText := [];
     extractedTables := [];
     doc_metadata := {| pageCount := 0; extractionConfidence := 0;
                        processedPages := [] |};
     extractionDate := now;
     errorMessage := None |}.

(** The tracker [uploadDocument] leaves in the registry. *)
Definition uploaded_tracker (oid : jsstring) (now : Z) : ProgressTracker :=
  with_status processing (js "Starting document processing")
    (new_ProgressTracker oid now).

(** The state after an upload that is accepted. *)
Definition uploaded_state (W : World) (file : File) (oid : jsstring)
  (s : State) : State :=
  {| documents := <[oid := uploaded_record W file (clock s)]> (documents s);
     heap := heap s ++ [uploaded_tracker oid (clock s)];
     activeProgress := <[oid := length (heap s)]> (activeProgress s);
     timers := timers s;
     spawned := spawned s
       ++ [{| job_id := oid; job_path := path_ file;
              job_type := fileExt_of W file;
              job_tracker := length (heap s) |}];
     clock := clock s;
     trace := trace s
       ++ [DbSave oid;
           Emit (length (heap s))
             (status_event (clock s) (uploaded_tracker oid (clock s)))] |}.

(** What the code's helpers from [path] and [String] are known to do:
    the extension is a piece of the name, and white space has no other
    lower-case form. *)
Definition extname_within_name (W : World) : Prop :=
  forall name, exists p q, name = p ++ path_extname W name ++ q.

Definition lower_keeps_space (W : World) : Prop :=
  forall x, Forall (fun c => is_space c = true) x -> toLowerCase W x = x.

Definition invalid_file_name : Body :=
  ErrorBody (js "Invalid file name") (js "INVALID_FILE_NAME").

Definition blank_file : File :=
  {| originalname := [SPACE; SPACE; TAB]; filename := js "upload-1";
     path_ := js "uploads/upload-1"; size := 12 |}.

(** ** Further notions: what a run leaves alone *)

(** From [s] to [s'] nothing has changed but the tracker at [l], the
    record of [id] and the trace: the registry, the queue, the timers,
    the clock, every other tracker and every other record are the same,
    and no record has appeared or disappeared. *)
Definition job_frame (l : nat) (id : jsstring) (s s' : State) : Prop :=
  activeProgress s' = activeProgress s
  /\ spawned s' = spawned s
  /\ timers s' = timers s
  /\ clock s' = clock s
  /\ length (heap s') = length (heap s)
  /\ (forall l', l' <> l -> heap s' !! l' = heap s !! l')
  /\ (forall id', id' <> id -> documents s' !! id' = documents s !! id')
  /\ (forall id', is_Some (documents s' !! id') <-> is_Some (documents s !! id'))
  /\ (exists tr, trace s' = trace s ++ tr).

Definition frames {A} (l : nat) (id : jsstring) (c : M A) : Prop :=
  forall s, job_frame l id s (snd (c s)).


Definition progress_reply (id : jsstring) (st : Status) (p : Z)
  (step : jsstring) (elapsed : Z) : Response :=
  {| statusCode := 200; body := ProgressBody id st p step elapsed |}.

(** The notes have been processed; their tracker is still registered. *)
Definition s_notes_processed : State :=
  exec (run_job demo_world notes_job) (set_spawned (fun _ => [] ++ []) s_uploaded).

(** ** Further notions: reading and deleting documents *)

Definition is_hex (c : N) : bool :=
  ((48 <=? c) && (c <=? 57) || (65 <=? c) && (c <=? 70)
   || (97 <=? c) && (c <=? 102))%N.

(** [id.match(/^[0-9a-fA-F]{24}$/)] *)
Definition is_objectId (id : jsstring) : bool :=
  (length id =? 24)%nat && forallb is_hex id.

Inductive DocBody :=
| DocError (error code : jsstring)
| DocFound (d : Document)
| DocDeleted (id fileName_ fileType_ : jsstring).

Record DocResponse := { doc_status : Z; doc_body : DocBody }.

Definition doc_json (code : Z) (b : DocBody) : M DocResponse :=
  mret {| doc_status := code; doc_body := b |}.

(** [getDocumentById] for [req.params.id = id] *)
Definition getDocumentById (id : jsstring) : M DocResponse :=
  try_catch
    (if negb (is_objectId id) then
       doc_json 400 (DocError (js "Invalid document ID")
                       (js "INVALID_DOCUMENT_ID"))
     else
       document ← Document_findById id;
       match document with
       | None =>
           doc_json 404 (DocError (js "Document not found")
                           (js "DOCUMENT_NOT_FOUND"))
       | Some document => doc_json 200 (DocFound document)
       end)
    (fun error =>
       doc_json 500 (DocError (js "Failed to fetch document")
                       (js "FETCH_DOCUMENT_ERROR"))).

(** [Document.findByIdAndDelete(id)] *)
Definition Document_findByIdAndDelete (id : jsstring) : M unit :=
  modify (set_documents (fun m => delete id m)).

(** [deleteDocument] for [req.params.id = id]; [fs_unlink] is the answer
    of [fs.unlink] for a path (what it does to the file system is outside
    the state). *)
Definition deleteDocument (fs_unlink : jsstring -> Outcome unit)
  (id : jsstring) : M DocResponse :=
  try_catch
    (if negb (is_objectId id) then
       doc_json 400 (DocError (js "Invalid document ID")
                       (js "INVALID_DOCUMENT_ID"))
     else
       document ← Document_findById id;
       match document with
       | None =>
           doc_json 404 (DocError (js "Document not found")
                           (js "DOCUMENT_NOT_FOUND"))
       | Some document =>
           try_catch (lift (fs_unlink (filePath document)))
             (fun fileError => mret tt) ;;
           Document_findByIdAndDelete id ;;
           doc_json 200 (DocDeleted id (originalName document)
                           (fileType document))
       end)
    (fun error =>
       doc_json 500 (DocError (js "Failed to delete document")
                       (js "DELETE_DOCUMENT_ERROR"))).

Definition not_found : DocResponse :=
  {| doc_status := 404;
     doc_body := DocError (js "Document not found") (js "DOCUMENT_NOT_FOUND") |}.

Definition demo_oid : jsstring := js "507f1f77bcf86cd799439011".

Definition s_demo_oid : State :=
  exec (uploadDocument demo_world (Some (demo_file "Notes.TXT" "notes.txt"))
          demo_oid) initial_state.

(** ** Further notions: the parsers *)

Definition run_extractor (W : World) (x : Extractor) (path : jsstring)
  : M ExtractionResult :=
  match x with
  | PDF => extractPDFText W path
  | DOCX => extractDOCXText W path
  | EXCEL => extractExcelData W path
  | TXT => extractTXTText W path
  | OCR => extractOCRText W path
  end.

(** The prefix a parser puts before the message of the error it caught. *)
Definition failure_prefix (x : Extractor) : jsstring :=
  match x with
  | PDF => js "Failed to extract PDF content: "
  | DOCX => js "Failed to extract DOCX content: "
  | EXCEL => js "Failed to extract Excel content: "
  | TXT => js "Failed to extract TXT content: "
  | OCR => js "Failed to extract OCR content: "
  end.

(** The answers of the page-structured engine up to the text. *)
Definition pdf_engine (W : World) (path : jsstring)
  : Outcome (PdfDoc * jsstring) :=
  dataBuffer ← fs_readFileSync W path;
  parser ← PDFParse_load W dataBuffer;
  textResult ← getText parser;
  mret (parser, textResult).

(** The error of the first engine call that fails in a parser, when one
    does. *)
Definition engine_failure (W : World) (x : Extractor) (path : jsstring)
  : option Exn :=
  match x with
  | PDF => returned_error (pdf_engine W path)
  | DOCX => returned_error (mammoth_extractRawText W path)
  | EXCEL => returned_error (XLSX_readFile W path)
  | TXT => returned_error (fs_readFileSync W path)
  | OCR => returned_error (fs_readFileSync W path ≫= Tesseract_recognize W)
  end.

Definition table_well_formed (t : Table) : Prop :=
  0 < rows (structure t)
  /\ rows (structure t) = len (data t)
  /\ columns (structure t) = first_row_length (data t).

(** A cell the table heuristic produces: a string that holds a code unit
    other than white space, and no tab. *)
Definition text_cell (c : Cell) : Prop :=
  exists s, c = CStr s /\ has_nonspace s /\ ~ In TAB s.

Definition heuristic_row (row : list Cell) : Prop :=
  1 < len row /\ Forall text_cell row.

(** A table of the page-structured parser: on a page of the document,
    at an index of the list its page's detector answered. *)
Definition pdf_table_placed (doc : PdfDoc) (t : Table) : Prop :=
  1 <= pageNumber t <= numPages doc
  /\ exists pageTables,
       getPageTables doc (pageNumber t) = Return (Some pageTables)
       /\ 0 <= tableIndex t < len pageTables.


(** ** Further notions: trackers over time *)

(** A tracker whose progress is a percentage and that was not started
    after [now]. *)
Definition tracker_sane (now : Z) (t : ProgressTracker) : Prop :=
  0 <= progress t <= 100 /\ startTime t <= now.

Definition trackers_sane (s : State) : Prop :=
  Forall (tracker_sane (clock s)) (heap s).

(** [tracker.on('error', listener)], inherited from [EventEmitter]. *)
Definition on_error (t : ProgressTracker) : ProgressTracker :=
  {| documentId := documentId t; progress := progress t; status := status t;
     currentStep := currentStep t; startTime := startTime t;
     errorListeners := S (errorListeners t) |}.

(** The state after the upload of the unreadable file, with a listener
    on its tracker. *)
Definition s_lost_listening : State := set_heap (List.map on_error) s_lost.


(** ** Further notions: what the store never holds *)

(** No tracker has a listener for ['error'], and no record is [failed]
    or carries an error message. *)
Definition never_failed (s : State) : Prop :=
  Forall (fun t => errorListeners t = 0%nat) (heap s)
  /\ forall id d, documents s !! id = Some d ->
       processingStatus d <> failed /\ errorMessage d = None.


(** ** Further notions: file types in the store *)

(** Every record has a supported file type. *)
Definition records_supported (s : State) : Prop :=
  forall id d, documents s !! id = Some d -> fileType d ∈ allowedTypes.

(** * Properties *)

(** ** Strings *)

Lemma takeWhile_Forall {A} (p : A -> bool) (l : list A) :
  Forall (fun x => p x = true) (takeWhile p l).
Proof.
  induction l as [|x l IH]; simpl; [constructor|].
  destruct (p x) eqn:Hx; constructor; auto.
Qed.

Lemma take_takeWhile {A} (p : A -> bool) (l : list A) :
  take (length (takeWhile p l)) l = takeWhile p l.
Proof.
  induction l as [|x l IH]; simpl; [reflexivity|].
  destruct (p x); simpl; [by rewrite IH | reflexivity].
Qed.

Lemma space_run_spaces n s k :
  space_run n s = Some k ->
  (n <= k)%nat /\ k = length (takeWhile is_space s).
Proof.
  unfold space_run. destruct (Nat.leb_spec n (length (takeWhile is_space s)));
    intros [= <-]; auto.
Qed.

Lemma space_run_cons n c s k :
  space_run n (c :: s) = Some (S k) ->
  is_space c = true /\ k = length (takeWhile is_space s).
Proof.
  intros H. apply space_run_spaces in H as [_ H]. simpl in H.
  destruct (is_space c); simpl in H; [split; congruence | discriminate].
Qed.

(** *** Words: splitting on white space and dropping the empty pieces
    gives the maximal runs of non-space code units. *)

Lemma nonempty_filter_cons cur l :
  List.filter nonempty (cur :: l)
  = match cur with [] => List.filter nonempty l
                 | _ => cur :: List.filter nonempty l end.
Proof. destruct cur; reflexivity. Qed.

Lemma split_spaces_tokens s : forall skip cur,
  (skip = 0%nat \/ cur = []) ->
  Forall (fun c => is_space c = true) (take skip s) ->
  List.filter nonempty (split_from re_spaces skip cur s) = tokens_from cur s.
Proof.
  induction s as [|c s IH]; intros skip cur Hsk Hsp.
  - simpl. destruct cur; reflexivity.
  - destruct skip as [|k].
    + cbn [split_from]. destruct (re_spaces (c :: s)) as [[|k]|] eqn:Hm.
      * apply space_run_spaces in Hm as [Hle _]. lia.
      * apply space_run_cons in Hm as [Hc ->].
        rewrite nonempty_filter_cons, IH.
        -- simpl. rewrite Hc. destruct cur; reflexivity.
        -- by right.
        -- rewrite take_takeWhile. apply takeWhile_Forall.
      * assert (is_space c = false) as Hc.
        { unfold re_spaces, space_run in Hm. simpl in Hm.
          destruct (is_space c); [discriminate | reflexivity]. }
        rewrite IH; [| by left | constructor].
        simpl. rewrite Hc. reflexivity.
    + destruct Hsk as [ | -> ]; [discriminate|].
      simpl in Hsp. apply Forall_cons in Hsp as [Hc Hsp].
      cbn [split_from]. rewrite IH; [| by right | done].
      simpl. rewrite Hc. reflexivity.
Qed.

Lemma wordCount_tokens (text : jsstring) : wordCount text = len (tokens text).
Proof.
  unfold wordCount, tokens. f_equal.
  destruct text as [|c s]; [reflexivity|].
  change (List.filter nonempty (split_from re_spaces 0 [] (c :: s))
          = tokens_from [] (c :: s)).
  apply split_spaces_tokens; [by left | constructor].
Qed.

Lemma Qceiling_div500 (n : Z) : Qceiling (n # 500) = (n + 499) / 500.
Proof.
  unfold Qceiling, Qfloor, Qopp. simpl.
  assert (n + 499 = 500 * ((n + 499) / 500) + (n + 499) mod 500) as H1
    by (apply Z.div_mod; lia).
  assert (- n = 500 * (- n / 500) + (- n) mod 500) as H2
    by (apply Z.div_mod; lia).
  pose proof (Z.mod_pos_bound (n + 499) 500 ltac:(lia)).
  pose proof (Z.mod_pos_bound (- n) 500 ltac:(lia)).
  lia.
Qed.

Lemma estimatedPages_spec (text : jsstring) :
  estimatedPages text = spec_pageCount (len (tokens text)).
Proof.
  unfold estimatedPages, spec_pageCount.
  by rewrite Qceiling_div500, wordCount_tokens.
Qed.

Lemma pages_upto_seqZ (n : Z) : pages_upto n = seqZ 1 n.
Proof.
  unfold pages_upto. change (seqZ 1 n) with (seqZ (1 + 0) n).
  rewrite <- (fmap_add_seqZ 1 0 n).
  apply map_ext. intros i. lia.
Qed.

(** *** Trimming *)

Lemma dropWhile_keeps {A} (p : A -> bool) (x : A) (l : list A) :
  In x l -> p x = false -> In x (dropWhile p l).
Proof.
  induction l as [|y l IH]; simpl; [tauto|].
  intros [->|Hin] Hx.
  - rewrite Hx. by left.
  - destruct (p y); [auto | by right].
Qed.

Lemma dropWhile_head {A} (p : A -> bool) (l : list A) (x : A) (l' : list A) :
  dropWhile p l = x :: l' -> p x = false.
Proof.
  induction l as [|y l IH]; simpl; [discriminate|].
  destruct (p y) eqn:Hy; [auto|]. intros [= -> _]. exact Hy.
Qed.

Lemma trim_clean_end (s : jsstring) : clean_end (trim s).
Proof.
  unfold clean_end, trim. intros c.
  destruct (dropWhile is_space (rev (dropWhile is_space s))) as [|x l] eqn:Hd.
  - discriminate.
  - simpl. rewrite last_snoc. intros [= <-].
    by apply dropWhile_head in Hd.
Qed.

Lemma clean_end_tail c s : s <> [] -> clean_end (c :: s) -> clean_end s.
Proof.
  intros Hs H x Hx. apply H. destruct s; [done|]. exact Hx.
Qed.

Lemma trim_nonempty (s : jsstring) : has_nonspace s -> trim s <> [].
Proof.
  intros (c & Hin & Hc) Ht. unfold trim in Ht.
  apply (f_equal (@rev N)) in Ht. rewrite rev_involutive in Ht. simpl in Ht.
  assert (In c (dropWhile is_space (rev (dropWhile is_space s)))) as H.
  { apply dropWhile_keeps; [|done]. apply in_rev. rewrite rev_involutive.
    by apply dropWhile_keeps. }
  rewrite Ht in H. destruct H.
Qed.

Lemma good_filter (seg : jsstring) :
  good seg ->
  negb (jsstring_eqb (trim seg) []) = negb (jsstring_eqb seg []).
Proof.
  unfold jsstring_eqb. intros [->|H]; [reflexivity|].
  rewrite !bool_decide_eq_false_2; [reflexivity | | by apply trim_nonempty].
  destruct H as (c & Hin & _). intros ->. destruct Hin.
Qed.

Lemma good_snoc cur c : is_space c = false -> good (cur ++ [c]).
Proof.
  intros Hc. right. exists c. split; [|done]. apply in_or_app. right. by left.
Qed.

Lemma good_snoc_l cur c : has_nonspace cur -> good (cur ++ [c]).
Proof.
  intros (x & Hin & Hx). right. exists x. split; [|done].
  apply in_or_app. by left.
Qed.

Lemma tab_is_space : is_space TAB = true.
Proof. reflexivity. Qed.

Lemma split_pieces_good s : forall skip cur,
  clean_end s ->
  (skip <> 0%nat -> cur = []) ->
  (skip = 0%nat -> collecting cur s) ->
  Forall good (split_from re_tab_or_spaces2 skip cur s).
Proof.
  induction s as [|c s IH]; intros skip cur Hend Hskip Hcur.
  - simpl. constructor; [|constructor].
    destruct skip as [|k].
    + destruct (Hcur eq_refl) as [H|(x & s' & H & _)]; [done | discriminate].
    + left. by apply Hskip.
  - assert (s <> [] -> clean_end s) as Hend' by (intros; by eapply clean_end_tail).
    assert (forall k, Forall good (split_from re_tab_or_spaces2 k [] s)) as Hnext.
    { intros k. destruct s as [|c' s'] eqn:Hs.
      - simpl. repeat constructor.
      - apply IH; [by apply Hend' | done | intros _; left; by left]. }
    destruct skip as [|k]; cbn [split_from].
    + specialize (Hcur eq_refl).
      assert (is_space c = true -> good cur) as Hgood.
      { intros Hc. destruct Hcur as [H|(x & s' & [= <- _] & Hx)]; [done|congruence]. }
      destruct (re_tab_or_spaces2 (c :: s)) as [[|k]|] eqn:Hm.
      * unfold re_tab_or_spaces2 in Hm. destruct (c =? TAB)%N; [discriminate|].
        apply space_run_spaces in Hm as [Hle _]. lia.
      * constructor; [|apply Hnext]. apply Hgood.
        unfold re_tab_or_spaces2 in Hm. destruct (N.eqb_spec c TAB) as [->|_].
        -- apply tab_is_space.
        -- by apply space_run_cons in Hm as [Hc _].
      * destruct (is_space c) eqn:Hc.
        -- (* a single blank: the next code unit is not white space *)
           destruct s as [|c' s'] eqn:Hs.
           { exfalso. specialize (Hend c eq_refl). congruence. }
           assert (is_space c' = false) as Hc'.
           { unfold re_tab_or_spaces2 in Hm.
             destruct (c =? TAB)%N; [discriminate|].
             unfold space_run in Hm. simpl in Hm. rewrite Hc in Hm.
             destruct (is_space c'); [discriminate | reflexivity]. }
           apply IH; [by apply Hend' | done |].
           intros _. right. by exists c', s'.
        -- destruct s as [|c' s'] eqn:Hs.
           { simpl. constructor; [by apply good_snoc | constructor]. }
           apply IH; [by apply Hend' | done |].
           intros _. left. by apply good_snoc.
    + rewrite (Hskip ltac:(done)). apply Hnext.
Qed.

Lemma filter_ext_Forall {A} (f g : A -> bool) (l : list A) :
  Forall (fun x => f x = g x) l -> List.filter f l = List.filter g l.
Proof.
  induction 1 as [|x l Hx _ IH]; simpl; [reflexivity|].
  rewrite Hx, IH. reflexivity.
Qed.

Lemma row_cells_trimmed (raw : jsstring) :
  row_cells (trim raw) = spec_cells (trim raw).
Proof.
  unfold row_cells, spec_cells. apply filter_ext_Forall.
  eapply Forall_impl; [|intros seg; apply good_filter].
  unfold split_re. destruct (trim raw) as [|c s] eqn:Ht.
  - simpl. repeat constructor.
  - apply split_pieces_good; [| done | intros _; left; by left].
    rewrite <- Ht. apply trim_clean_end.
Qed.

(** ** The table heuristic *)

Lemma scan_line_classify (st : TableScan) (raw : jsstring) :
  scan_line st raw =
  match classify raw with
  | Row cells =>
      {| currentTable := currentTable st ++ [List.map CStr cells];
         nextIndex := nextIndex st; foundTables := foundTables st |}
  | Skipped => st
  | Prose =>
      match currentTable st with
      | [] => st
      | _ =>
          if big (currentTable st) then
            {| currentTable := []; nextIndex := nextIndex st + 1;
               foundTables := foundTables st
                 ++ [mkTable 1 (nextIndex st) (currentTable st)] |}
          else
            {| currentTable := []; nextIndex := nextIndex st;
               foundTables := foundTables st |}
      end
  end.
Proof.
  unfold scan_line, classify, is_row_candidate.
  rewrite row_cells_trimmed.
  destruct (includes TAB (trim raw) || (2 <? len (split_re re_spaces2 (trim raw)))).
  - destruct (1 <? len (spec_cells (trim raw))); reflexivity.
  - destruct (currentTable st); reflexivity.
Qed.

Lemma scan_spec (lines : list jsstring) : forall st,
  scan_flush (fold_left scan_line lines st)
  = foundTables st
    ++ number_tables (nextIndex st)
         (List.filter big (spec_groups (currentTable st) lines)).
Proof.
  induction lines as [|l ls IH]; intros st.
  - unfold scan_flush. simpl. fold (big (currentTable st)).
    destruct (big (currentTable st)); simpl; [reflexivity|].
    by rewrite app_nil_r.
  - cbn [fold_left spec_groups]. rewrite IH, scan_line_classify.
    destruct (classify l) as [cells| |]; [reflexivity | reflexivity |].
    destruct (currentTable st) as [|r g] eqn:Hcur.
    + rewrite Hcur. reflexivity.
    + cbn [List.filter]. destruct (big (r :: g)); cbn [currentTable nextIndex foundTables].
      * cbn [number_tables]. by rewrite <- app_assoc.
      * reflexivity.
Qed.

Lemma number_tables_index gs : forall i,
  List.map tableIndex (number_tables i gs) = seqZ i (len gs).
Proof.
  induction gs as [|g gs IH]; intros i; [reflexivity|].
  cbn [number_tables List.map]. rewrite IH. unfold len. cbn [length].
  rewrite Nat2Z.inj_succ, (seqZ_cons i) by lia.
  do 3 f_equal. lia.
Qed.

Lemma number_tables_length gs : forall i,
  length (number_tables i gs) = length gs.
Proof.
  induction gs as [|g gs IH]; intros i; [reflexivity|].
  cbn [number_tables length]. by rewrite IH.
Qed.

Lemma number_tables_shape gs : forall i,
  Forall (fun g => big g = true) gs ->
  Forall (fun t => pageNumber t = 1
                   /\ 1 < rows (structure t)
                   /\ rows (structure t) = len (data t)
                   /\ columns (structure t) = first_row_length (data t))
         (number_tables i gs).
Proof.
  induction gs as [|g gs IH]; intros i Hb; [constructor|].
  apply Forall_cons in Hb as [Hg Hb]. cbn [number_tables].
  constructor; [|by apply IH].
  unfold big in Hg. apply Z.ltb_lt in Hg. simpl. auto.
Qed.

Lemma filter_Forall_true {A} (f : A -> bool) (l : list A) :
  Forall (fun x => f x = true) (List.filter f l).
Proof.
  induction l as [|x l IH]; simpl; [constructor|].
  destruct (f x) eqn:Hx; [constructor|]; auto.
Qed.

Lemma detectTables_spec (lines : list jsstring) :
  detectTables lines = spec_detectTables lines.
Proof. unfold detectTables. rewrite scan_spec. reflexivity. Qed.

(** C2.  The table heuristic does what the design document describes:
    each line is trimmed, it is a row candidate exactly when it holds a
    tab or splits on runs of two or more blanks into more than two
    pieces, its cells are the non-empty pieces between tabs and such
    runs, the cells are accumulated when there is more than one, and an
    accumulator is emitted (at a line that is no candidate, or after the
    last line) only with more than one row, as a table of page 1 whose
    index is its rank among the emitted tables and whose column count is
    the length of its first row.  The two examples of the document come
    out as stated. *)
Theorem C2_table_heuristic :
  (forall lines, detectTables lines = spec_detectTables lines)
  /\ (forall lines,
        List.map tableIndex (detectTables lines)
        = seqZ 0 (len (detectTables lines))
        /\ Forall (fun t => pageNumber t = 1
                            /\ 1 < rows (structure t)
                            /\ rows (structure t) = len (data t)
                            /\ columns (structure t) = first_row_length (data t))
                  (detectTables lines))
  /\ detectTables ex_table_lines
     = [ {| pageNumber := 1; tableIndex := 0;
            data := [ [CStr (js "a"); CStr (js "b"); CStr (js "c")];
                      [CStr (js "1"); CStr (js "2"); CStr (js "3")] ];
            structure := {| rows := 2; columns := 3 |} |} ]
  /\ detectTables ex_single_row = [].
Proof.
  split; [exact detectTables_spec|]. split; [|split; reflexivity].
  intros lines. rewrite detectTables_spec. unfold spec_detectTables. split.
  - rewrite number_tables_index. unfold len.
    by rewrite number_tables_length.
  - apply number_tables_shape. apply (filter_Forall_true big).
Qed.

(** ** Running the monad *)

Lemma bind_run {A B} (c : M A) (f : A -> M B) (s : State) :
  (c ≫= f) s = match c s with
               | (Return a, s') => f a s'
               | (Throw e, s') => (Throw e, s')
               end.
Proof. reflexivity. Qed.

Lemma lift_bind_run {A B} (o : Outcome A) (f : A -> M B) (s : State) :
  (lift o ≫= f) s = match o with
                    | Return a => f a s
                    | Throw e => (Throw e, s)
                    end.
Proof. rewrite bind_run. unfold lift. by destruct o. Qed.

Lemma lookup_put (l : nat) (t t' : ProgressTracker) (s : State) :
  heap s !! l = Some t -> heap (put_tracker l t' s) !! l = Some t'.
Proof.
  intros H. simpl. apply list_lookup_insert_eq. by eapply lookup_lt_Some.
Qed.

Lemma readTracker_run (l : nat) (t : ProgressTracker) (s : State) :
  heap s !! l = Some t -> readTracker l s = (Return t, s).
Proof. intros H. unfold readTracker. by rewrite H. Qed.

Section Runs.

Variable W : World.

Lemma updateProgress_run l p step s t :
  heap s !! l = Some t ->
  updateProgress W l p step s
  = (Return tt,
     log (Emit l (progress_event (clock s) (with_progress p step t)))
       (put_tracker l (with_progress p step t) s)).
Proof.
  intros H. unfold updateProgress. rewrite bind_run, (readTracker_run _ _ _ H).
  cbn zeta. rewrite bind_run. unfold writeTracker, modify.
  rewrite bind_run. unfold Date_now, gets, emit.
  rewrite bind_run, (readTracker_run l (with_progress p step t)).
  - reflexivity.
  - by eapply lookup_put.
Qed.

Lemma setStatus_run l st step s t :
  heap s !! l = Some t ->
  setStatus W l st step s
  = (Return tt,
     log (Emit l (status_event (clock s) (with_status st step t)))
       (put_tracker l (with_status st step t) s)).
Proof.
  intros H. unfold setStatus. rewrite bind_run, (readTracker_run _ _ _ H).
  cbn zeta. rewrite bind_run. unfold writeTracker, modify.
  rewrite bind_run. unfold Date_now, gets, emit.
  rewrite bind_run, (readTracker_run l (with_status st step t)).
  - reflexivity.
  - by eapply lookup_put.
Qed.

Lemma complete_run l s t :
  heap s !! l = Some t ->
  complete W l s
  = (Return tt,
     let t1 := with_status completed (js "Processing complete") t in
     let t2 := with_progress 100 (js "Complete") t1 in
     log (Emit l (progress_event (clock s) t2))
       (put_tracker l t2
          (log (Emit l (status_event (clock s) t1)) (put_tracker l t1 s)))).
Proof.
  intros H. unfold complete. rewrite bind_run, (setStatus_run _ _ _ _ _ H).
  erewrite updateProgress_run; [reflexivity|].
  by eapply lookup_put.
Qed.

(** [fail] on a tracker that has no listener for ['error']: the status is
    set, then the event is thrown at the caller. *)
Lemma fail_run_unhandled l error s t :
  heap s !! l = Some t ->
  errorListeners t = 0%nat ->
  fail W l error s
  = (let t1 := with_status failed (js "Error: " ++ message error) t in
     (Throw (ERR_UNHANDLED_ERROR W
               {| ee_documentId := documentId t;
                  ee_error := message error;
                  ee_elapsed := clock s - startTime t |}),
      log (Emit l (status_event (clock s) t1)) (put_tracker l t1 s))).
Proof.
  intros H Hl. unfold fail. rewrite bind_run, (setStatus_run _ _ _ _ _ H).
  rewrite bind_run.
  rewrite (readTracker_run l (with_status failed (js "Error: " ++ message error) t))
    by (by eapply lookup_put).
  rewrite bind_run. unfold Date_now, gets, emit. rewrite bind_run.
  rewrite (readTracker_run l (with_status failed (js "Error: " ++ message error) t))
    by (by eapply lookup_put).
  unfold error_event. cbn [errorListeners with_status]. rewrite Hl. reflexivity.
Qed.

Lemma fail_run_handled l error s t :
  heap s !! l = Some t ->
  errorListeners t <> 0%nat ->
  fail W l error s
  = (let t1 := with_status failed (js "Error: " ++ message error) t in
     (Return tt,
      log (Emit l (error_event (clock s) t1 error))
        (log (Emit l (status_event (clock s) t1)) (put_tracker l t1 s)))).
Proof.
  intros H Hl. unfold fail. rewrite bind_run, (setStatus_run _ _ _ _ _ H).
  rewrite bind_run.
  rewrite (readTracker_run l (with_status failed (js "Error: " ++ message error) t))
    by (by eapply lookup_put).
  rewrite bind_run. unfold Date_now, gets, emit. rewrite bind_run.
  rewrite (readTracker_run l (with_status failed (js "Error: " ++ message error) t))
    by (by eapply lookup_put).
  unfold error_event. cbn [errorListeners with_status].
  destruct (errorListeners t); [done | reflexivity].
Qed.

End Runs.

(** ** The parsers *)

Lemma result_estimated (t words : jsstring) (confidence : Z) (tbls : list Table) :
  {| text := t;
     metadata := {| pageCount := estimatedPages words;
                    extractionConfidence := confidence;
                    processedPages := pages_upto (estimatedPages words) |};
     tables := tbls |}
  = estimated_result t words confidence tbls.
Proof.
  unfold estimated_result. by rewrite pages_upto_seqZ, estimatedPages_spec.
Qed.

Lemma existsb_filter {A} (f : A -> bool) (l : list A) :
  (0 <? len (List.filter f l)) = existsb f l.
Proof.
  induction l as [|x l IH]; [reflexivity|]. simpl.
  destruct (f x); simpl; [|exact IH].
  unfold len. simpl. apply Z.ltb_lt. lia.
Qed.

Lemma sheet_fold (W : World) (wb : Workbook) (names : list jsstring) :
  forall (i : Z) (acc : jsstring * list Table),
  fold_left (sheet_step W wb) (combine (seqZ i (len names)) names) acc
  = (fst acc ++ concat (List.map (sheet_text W wb) names),
     snd acc ++ concat (List.map (spec_sheet_table wb)
                          (combine (seqZ i (len names)) names))).
Proof.
  induction names as [|n names IH]; intros i [txt tbls].
  - simpl. by rewrite !app_nil_r.
  - unfold len. cbn [length]. rewrite Nat2Z.inj_succ, (seqZ_cons i) by lia.
    replace (Z.pred (Z.succ (Z.of_nat (length names)))) with (len names)
      by (unfold len; lia).
    cbn [combine fold_left List.map concat]. rewrite IH.
    unfold sheet_step, spec_sheet_table, sheet_has_data, sheet_text.
    cbn [fst snd]. unfold cleanRows at 1. rewrite existsb_filter.
    f_equal.
    + by rewrite <- !app_assoc.
    + destruct (existsb (existsb cell_filled) (sheet_rows wb n)).
      * by rewrite <- app_assoc.
      * reflexivity.
Qed.

Section Parsers.

Variable W : World.

Lemma extractTXTText_run path s :
  extractTXTText W path s = (txt_outcome W path, log (Invoke TXT path) s).
Proof.
  unfold extractTXTText, txt_outcome, result. rewrite bind_run. cbn.
  unfold try_catch. rewrite lift_bind_run.
  destruct (fs_readFileSync W path) as [bytes|e]; cbn; [|reflexivity].
  by rewrite result_estimated.
Qed.

Lemma extractDOCXText_run path s :
  extractDOCXText W path s = (docx_outcome W path, log (Invoke DOCX path) s).
Proof.
  unfold extractDOCXText, docx_outcome, result. rewrite bind_run. cbn.
  unfold try_catch at 1. rewrite lift_bind_run.
  destruct (mammoth_extractRawText W path) as [[t messages]|e];
    cbn; [|reflexivity].
  rewrite bind_run. unfold try_catch. rewrite lift_bind_run. cbn.
  rewrite result_estimated, detectTables_spec.
  destruct messages; reflexivity.
Qed.

Lemma extractOCRText_run path s :
  extractOCRText W path s = (ocr_outcome W path, log (Invoke OCR path) s).
Proof.
  unfold extractOCRText, ocr_outcome, result. rewrite bind_run. cbn.
  unfold try_catch. rewrite lift_bind_run.
  destruct (fs_readFileSync W path) as [bytes|e]; cbn; [|reflexivity].
  rewrite lift_bind_run.
  destruct (Tesseract_recognize W bytes) as [[t c]|e]; cbn; [|reflexivity].
  by rewrite result_estimated.
Qed.

Lemma extractExcelData_run path s :
  extractExcelData W path s = (excel_outcome W path, log (Invoke EXCEL path) s).
Proof.
  unfold extractExcelData, excel_outcome. rewrite bind_run. cbn.
  unfold try_catch. rewrite lift_bind_run.
  destruct (XLSX_readFile W path) as [wb|e]; cbn; [|reflexivity].
  unfold indexed. rewrite sheet_fold, pages_upto_seqZ. reflexivity.
Qed.

Lemma extractPDFText_run path s :
  extractPDFText W path s = (pdf_outcome W path, log (Invoke PDF path) s).
Proof.
  unfold extractPDFText, pdf_outcome. rewrite bind_run. cbn.
  unfold try_catch. rewrite lift_bind_run.
  destruct (fs_readFileSync W path) as [bytes|e]; cbn; [|reflexivity].
  rewrite lift_bind_run.
  destruct (PDFParse_load W bytes) as [parser|e]; cbn; [|reflexivity].
  rewrite lift_bind_run.
  destruct (getText parser) as [t|e]; cbn; [|reflexivity].
  by rewrite pages_upto_seqZ.
Qed.

End Parsers.

(** ** The orchestrator *)

Lemma lookup_log l t e s : heap s !! l = Some t -> heap (log e s) !! l = Some t.
Proof. done. Qed.

Lemma lookup_set_documents l t f s :
  heap s !! l = Some t -> heap (set_documents f s) !! l = Some t.
Proof. done. Qed.

Ltac norm :=
  unfold log, put_tracker, set_heap, set_documents, set_timers, set_spawned,
    set_activeProgress;
  cbn [clock heap documents activeProgress timers spawned trace].

Ltac heap_lookup :=
  norm;
  first [ eassumption
        | apply list_lookup_insert_eq; rewrite ?length_insert;
          eapply lookup_lt_Some; eassumption ].

Ltac run_step lem :=
  rewrite bind_run; erewrite lem by heap_lookup; norm;
  rewrite ?list_insert_insert_eq.

Lemma jsstring_eqb_eq a b : jsstring_eqb a b = true -> a = b.
Proof. unfold jsstring_eqb. apply bool_decide_eq_true_1. Qed.

Lemma Document_findByIdAndUpdate_run id w s :
  Document_findByIdAndUpdate id w s
  = (Return (alter (apply_write w) id (documents s) !! id),
     set_documents (fun m => alter (apply_write w) id m) (log (DbUpdate id w) s)).
Proof. reflexivity. Qed.

Section Orchestrator.

Variable W : World.

Lemma dispatch_run tag path l t s :
  heap s !! l = Some t ->
  dispatch W tag path l s
  = (dispatch_outcome W tag path,
     match extractor_of tag with
     | None => s
     | Some x =>
         log (Invoke x path)
           (if is_image tag
            then log (Emit l (progress_event (clock s)
                                (with_progress 50 (js "Performing OCR on image") t)))
                   (put_tracker l
                      (with_progress 50 (js "Performing OCR on image") t) s)
            else s)
     end).
Proof.
  intros H. unfold dispatch, dispatch_outcome, extractor_of.
  destruct (jsstring_eqb tag (js "pdf")) eqn:E1.
  { apply jsstring_eqb_eq in E1 as ->. by rewrite extractPDFText_run. }
  destruct (jsstring_eqb tag (js "docx")) eqn:E2.
  { apply jsstring_eqb_eq in E2 as ->. by rewrite extractDOCXText_run. }
  destruct (jsstring_eqb tag (js "xlsx") || jsstring_eqb tag (js "xls")) eqn:E3.
  { apply orb_true_iff in E3 as [E3|E3]; apply jsstring_eqb_eq in E3 as ->;
      by rewrite extractExcelData_run. }
  destruct (jsstring_eqb tag (js "txt")) eqn:E4.
  { apply jsstring_eqb_eq in E4 as ->. by rewrite extractTXTText_run. }
  destruct (is_image tag) eqn:E5; [|reflexivity].
  rewrite bind_run, (updateProgress_run _ _ _ _ _ _ H), extractOCRText_run.
  reflexivity.
Qed.

Lemma processDocument_success id path tag l t s r :
  heap s !! l = Some t ->
  dispatch_outcome W tag path = Return r ->
  processDocument W id path tag l s
  = (Return tt,
     {| documents :=
          alter (apply_write (WriteCompleted r (clock s))) id
            (alter (apply_write WriteProcessing) id (documents s));
        heap := <[l := t_done W tag t]> (heap s);
        activeProgress := activeProgress s;
        timers := timers s ++ [(cleanup_delay, id)];
        spawned := spawned s;
        clock := clock s;
        trace := trace s ++ success_effects W id path tag l t (clock s) r |}).
Proof.
  intros H Hr. destruct s as [docs hp reg tm sp ck tr]. cbn [heap] in H.
  unfold processDocument, try_finally, try_catch.
  rewrite bind_run, Document_findByIdAndUpdate_run. norm.
  run_step updateProgress_run. run_step updateProgress_run.
  run_step dispatch_run. rewrite Hr.
  unfold success_effects, opening_effects, t_done, t_completed, t_saving,
    t_dispatched, t_processing, t_read.
  destruct (extractor_of tag) as [x|] eqn:Hx.
  2:{ unfold dispatch_outcome in Hr. rewrite Hx in Hr. discriminate. }
  destruct (is_image tag) eqn:Himg; norm.
  - run_step updateProgress_run.
    rewrite bind_run. unfold Date_now, gets. norm.
    rewrite bind_run, Document_findByIdAndUpdate_run. norm.
    erewrite complete_run by heap_lookup. cbv zeta. norm.
    rewrite bind_run. unfold tell, modify. norm.
    rewrite ?list_insert_insert_eq, <- ?app_assoc. reflexivity.
  - run_step updateProgress_run.
    rewrite bind_run. unfold Date_now, gets. norm.
    rewrite bind_run, Document_findByIdAndUpdate_run. norm.
    erewrite complete_run by heap_lookup. cbv zeta. norm.
    rewrite bind_run. unfold tell, modify. norm.
    rewrite ?list_insert_insert_eq, <- ?app_assoc. reflexivity.
Qed.

Lemma processDocument_failure_unhandled id path tag l t s e :
  heap s !! l = Some t ->
  errorListeners t = 0%nat ->
  dispatch_outcome W tag path = Throw e ->
  processDocument W id path tag l s
  = (Throw (ERR_UNHANDLED_ERROR W
              {| ee_documentId := documentId t;
                 ee_error := message e;
                 ee_elapsed := clock s - startTime t |}),
     {| documents := alter (apply_write WriteProcessing) id (documents s);
        heap := <[l := t_failed W tag e t]> (heap s);
        activeProgress := activeProgress s;
        timers := timers s ++ [(cleanup_delay, id)];
        spawned := spawned s;
        clock := clock s;
        trace := trace s ++ opening_effects W id path tag l t (clock s)
                 ++ [ Emit l (status_event (clock s) (t_failed W tag e t));
                      SetTimeout cleanup_delay id ] |}).
Proof.
  intros H Hl He. destruct s as [docs hp reg tm sp ck tr]. cbn [heap] in H.
  unfold processDocument, try_finally, try_catch.
  rewrite bind_run, Document_findByIdAndUpdate_run. norm.
  run_step updateProgress_run. run_step updateProgress_run.
  run_step dispatch_run. rewrite He.
  unfold opening_effects, t_failed, t_dispatched, t_processing, t_read.
  destruct (extractor_of tag) as [x|] eqn:Hx;
    [destruct (is_image tag) eqn:Himg|]; norm.
  - rewrite bind_run. erewrite fail_run_unhandled by (heap_lookup || done).
    cbv zeta. norm. rewrite bind_run. unfold tell, modify. norm.
    rewrite ?list_insert_insert_eq, <- ?app_assoc. reflexivity.
  - rewrite bind_run. erewrite fail_run_unhandled by (heap_lookup || done).
    cbv zeta. norm. rewrite bind_run. unfold tell, modify. norm.
    rewrite ?list_insert_insert_eq, <- ?app_assoc. reflexivity.
  - assert (is_image tag = false) as ->.
    { unfold extractor_of in Hx. repeat destruct (jsstring_eqb _ _); try done;
        simpl in Hx; by destruct (is_image tag). }
    rewrite bind_run. erewrite fail_run_unhandled by (heap_lookup || done).
    cbv zeta. norm. rewrite bind_run. unfold tell, modify. norm.
    rewrite ?list_insert_insert_eq, <- ?app_assoc. reflexivity.
Qed.

Lemma processDocument_failure_handled id path tag l t s e :
  heap s !! l = Some t ->
  errorListeners t <> 0%nat ->
  dispatch_outcome W tag path = Throw e ->
  processDocument W id path tag l s
  = (Return tt,
     {| documents :=
          alter (apply_write (WriteFailed (message e))) id
            (alter (apply_write WriteProcessing) id (documents s));
        heap := <[l := t_failed W tag e t]> (heap s);
        activeProgress := activeProgress s;
        timers := timers s ++ [(cleanup_delay, id)];
        spawned := spawned s;
        clock := clock s;
        trace := trace s ++ opening_effects W id path tag l t (clock s)
                 ++ [ Emit l (status_event (clock s) (t_failed W tag e t));
                      Emit l (error_event (clock s) (t_failed W tag e t) e);
                      DbUpdate id (WriteFailed (message e));
                      SetTimeout cleanup_delay id ] |}).
Proof.
  intros H Hl He. destruct s as [docs hp reg tm sp ck tr]. cbn [heap] in H.
  unfold processDocument, try_finally, try_catch.
  rewrite bind_run, Document_findByIdAndUpdate_run. norm.
  run_step updateProgress_run. run_step updateProgress_run.
  run_step dispatch_run. rewrite He.
  unfold opening_effects, t_failed, t_dispatched, t_processing, t_read.
  destruct (extractor_of tag) as [x|] eqn:Hx;
    [destruct (is_image tag) eqn:Himg|]; norm.
  - rewrite bind_run. erewrite fail_run_handled by (heap_lookup || done).
    cbv zeta. norm. rewrite bind_run, Document_findByIdAndUpdate_run. norm.
    unfold mret, M_ret. rewrite bind_run. unfold tell, modify. norm.
    rewrite ?list_insert_insert_eq, <- ?app_assoc. reflexivity.
  - rewrite bind_run. erewrite fail_run_handled by (heap_lookup || done).
    cbv zeta. norm. rewrite bind_run, Document_findByIdAndUpdate_run. norm.
    unfold mret, M_ret. rewrite bind_run. unfold tell, modify. norm.
    rewrite ?list_insert_insert_eq, <- ?app_assoc. reflexivity.
  - assert (is_image tag = false) as ->.
    { unfold extractor_of in Hx. repeat destruct (jsstring_eqb _ _); try done;
        simpl in Hx; by destruct (is_image tag). }
    rewrite bind_run. erewrite fail_run_handled by (heap_lookup || done).
    cbv zeta. norm. rewrite bind_run, Document_findByIdAndUpdate_run. norm.
    unfold mret, M_ret. rewrite bind_run. unfold tell, modify. norm.
    rewrite ?list_insert_insert_eq, <- ?app_assoc. reflexivity.
Qed.

End Orchestrator.

(** ** Unsupported types *)

Lemma extractor_of_None (tag : jsstring) :
  tag ∉ allowedTypes -> extractor_of tag = None.
Proof.
  intros Hn. unfold extractor_of, is_image, jsstring_eqb.
  repeat match goal with
  | |- context [bool_decide (tag = ?x)] =>
      destruct (bool_decide_reflect (tag = x)) as [->|_];
      [exfalso; apply Hn; unfold allowedTypes; set_solver|]
  end.
  reflexivity.
Qed.

Lemma new_trace_app {A} (c : M A) (s : State) (o : Outcome A) (s' : State)
  (tr : list Effect) :
  c s = (o, s') -> trace s' = trace s ++ tr -> new_trace c s = tr.
Proof.
  intros Hc Ht. unfold new_trace, exec. rewrite Hc. cbn [snd].
  rewrite Ht. apply drop_app_length.
Qed.

(** ** Failing jobs *)

(** On a tracker nobody listens to for ['error'] (the only kind the
    source creates), a parser's error does not end in a failed record:
    [fail] sets the tracker's status and then throws, the write of
    [failed] is skipped and the exception leaves [processDocument]. *)
Lemma parser_error_escapes W id path tag l t s e :
  heap s !! l = Some t ->
  errorListeners t = 0%nat ->
  dispatch_outcome W tag path = Throw e ->
  (exists err, eval (processDocument W id path tag l) s = Throw err
               /\ context err <> None)
  /\ List.filter is_terminal_write (new_trace (processDocument W id path tag l) s)
     = []
  /\ documents (exec (processDocument W id path tag l) s)
     = alter (apply_write WriteProcessing) id (documents s).
Proof.
  intros H Hl He.
  pose proof (processDocument_failure_unhandled W id path tag l t s e H Hl He)
    as Hrun.
  split; [|split].
  - eexists. unfold eval. rewrite Hrun. split; [reflexivity|done].
  - erewrite new_trace_app; [| exact Hrun | reflexivity].
    unfold opening_effects.
    destruct (extractor_of tag); [destruct (is_image tag)|]; reflexivity.
  - unfold exec. rewrite Hrun. reflexivity.
Qed.

(** C5 (the code at a failing input).  The job of an uploaded text file
    that cannot be read: the parser's error is caught and [fail] is
    called, but the exception of the unhandled ['error'] event escapes
    [processDocument], and the record keeps status [processing] and no
    error message. *)
Theorem C5_error_event_escapes :
  spawned s_lost = [lost_job]
  /\ dispatch_outcome demo_world (job_type lost_job) (job_path lost_job)
     = Throw (Error (js "Failed to extract TXT content: "
                     ++ js "ENOENT: no such file or directory"))
  /\ (status <$> heap (exec (run_job demo_world lost_job) s_lost) !! 0%nat)
     = Some failed
  /\ (context <$> returned_error (eval (run_job demo_world lost_job) s_lost))
     = Some (Some {| ee_documentId := js "id7";
                     ee_error := js "Failed to extract TXT content: "
                                 ++ js "ENOENT: no such file or directory";
                     ee_elapsed := 0 |})
  /\ ((fun d => (processingStatus d, errorMessage d))
        <$> documents (exec (run_job demo_world lost_job) s_lost) !! js "id7")
     = Some (processing, None).
Proof. vm_compute. repeat split; reflexivity. Qed.

(** C4 (the code at a failing input).  The job of an uploaded document
    that the engine rejects performs no terminal write at all: neither the
    completed fields nor the failed fields are written, and the record is
    left in [processing]. *)
Theorem C4_no_terminal_write :
  spawned s_corrupt = [corrupt_job]
  /\ returned (dispatch_outcome demo_world (job_type corrupt_job)
                 (job_path corrupt_job)) = None
  /\ List.filter is_terminal_write
       (new_trace (run_job demo_world corrupt_job) s_corrupt) = []
  /\ (processingStatus
        <$> documents (exec (run_job demo_world corrupt_job) s_corrupt) !! js "id9")
     = Some processing.
Proof. vm_compute. repeat split; reflexivity. Qed.

(** ** Progress *)

Lemma updateProgress_clamps W l p step s t :
  heap s !! l = Some t ->
  heap (exec (updateProgress W l p step) s) !! l
  = Some (with_progress p step t)
  /\ progress (with_progress p step t) = Z.min 100 (Z.max 0 p)
  /\ 0 <= progress (with_progress p step t) <= 100.
Proof.
  intros H. unfold exec. rewrite (updateProgress_run W _ _ _ _ _ H).
  split; [|split].
  - cbn [snd]. by eapply lookup_put.
  - reflexivity.
  - cbn [progress with_progress]. lia.
Qed.

Lemma progress_values_app (a b : list Effect) :
  progress_values (a ++ b) = progress_values a ++ progress_values b.
Proof. unfold progress_values. by rewrite map_app, concat_app. Qed.

(** C8.  In a successful job the progress values reported at the
    orchestrator's checkpoints are 10, 30, then 50 for images only, then
    80 and 100; from the tracker's initial 0 on they never decrease, the
    tracker ends at 100, and [updateProgress] stores its argument clamped
    to the interval from 0 to 100. *)
Theorem C8_progress_checkpoints (W : World) (id path tag : jsstring)
  (l : nat) (t : ProgressTracker) (s : State) (r : ExtractionResult) :
  heap s !! l = Some t ->
  dispatch_outcome W tag path = Return r ->
  progress_values (new_trace (processDocument W id path tag l) s)
  = [10; 30] ++ (if is_image tag then [50] else []) ++ [80; 100]
  /\ Sorted Z.le
       (0 :: progress_values (new_trace (processDocument W id path tag l) s))
  /\ (progress <$> heap (exec (processDocument W id path tag l) s) !! l)
     = Some 100
  /\ (forall p step,
        (progress <$> heap (exec (updateProgress W l p step) s) !! l)
        = Some (Z.min 100 (Z.max 0 p))
        /\ 0 <= Z.min 100 (Z.max 0 p) <= 100).
Proof.
  intros H Hr.
  pose proof (processDocument_success W id path tag l t s r H Hr) as Hrun.
  assert (progress_values (new_trace (processDocument W id path tag l) s)
          = [10; 30] ++ (if is_image tag then [50] else []) ++ [80; 100]) as Hv.
  { erewrite new_trace_app; [| exact Hrun | reflexivity].
    unfold success_effects, opening_effects.
    destruct (extractor_of tag) as [x|] eqn:Hx.
    2:{ unfold dispatch_outcome in Hr. rewrite Hx in Hr. discriminate. }
    unfold t_done, t_completed, t_saving, t_dispatched.
    destruct (is_image tag); reflexivity. }
  split; [exact Hv|]. split; [|split].
  - rewrite Hv. destruct (is_image tag); simpl;
      repeat (constructor; try lia).
  - unfold exec. rewrite Hrun. cbn [snd heap].
    rewrite list_lookup_insert_eq by (by eapply lookup_lt_Some). reflexivity.
  - intros p step.
    destruct (updateProgress_clamps W l p step s t H) as (Hh & Hp & Hb).
    rewrite Hh. cbn [fmap option_fmap option_map]. rewrite <- Hp. auto.
Qed.

(** The theorem at the job of the uploaded notes. *)
Lemma C8_progress_checkpoints_witness :
  progress_values (new_trace (run_job demo_world notes_job) s_uploaded)
  = [10; 30; 80; 100].
Proof.
  refine (proj1 (C8_progress_checkpoints demo_world (js "id1")
                   (js "uploads/notes.txt") (js "txt") 0%nat
                   (with_status processing (js "Starting document processing")
                      (new_ProgressTracker (js "id1") 0))
                   s_uploaded
                   (estimated_result (js "hello wide world")
                      (js "hello wide world") 100 [])
                   _ _)); reflexivity.
Defined.

(** ** What the parsers report *)

Lemma estimated_result_pages t words c tb :
  estimated_pages words (estimated_result t words c tb).
Proof.
  unfold estimated_pages, estimated_result, spec_pageCount. cbn.
  by rewrite Qceiling_div500.
Qed.

(** C6.  The plain-text, word-processor and OCR parsers report
    [pageCount = max(1, ceil(wordCount / 500))], where the words are the
    maximal runs of code units that are not white space, and
    [processedPages = 1..pageCount]; a text of 1000 words gives 2 pages
    and the pages 1 and 2. *)
Theorem C6_estimated_pages (W : World) (path : jsstring) (s : State) :
  on_success (fs_readFileSync W path) (eval (extractTXTText W path) s)
    (fun bytes r => estimated_pages (utf8_decode W bytes) r)
  /\ on_success (mammoth_extractRawText W path) (eval (extractDOCXText W path) s)
       (fun x r => estimated_pages (fst x) r)
  /\ on_success (fs_readFileSync W path ≫= Tesseract_recognize W)
       (eval (extractOCRText W path) s)
       (fun x r => estimated_pages (fst x) r)
  /\ (forall text, wordCount text = len (tokens text))
  /\ len (tokens thousand_words) = 1000
  /\ (metadata <$> returned (eval (extractTXTText (text_world thousand_words) path) s))
     = Some {| pageCount := 2; extractionConfidence := 100;
               processedPages := [1; 2] |}.
Proof.
  split; [|split; [|split; [|split; [|split]]]].
  - unfold eval. rewrite extractTXTText_run. cbn [fst]. unfold txt_outcome.
    destruct (fs_readFileSync W path); cbn; [|reflexivity].
    eexists. split; [reflexivity|]. apply estimated_result_pages.
  - unfold eval. rewrite extractDOCXText_run. cbn [fst]. unfold docx_outcome.
    destruct (mammoth_extractRawText W path); cbn; [|reflexivity].
    eexists. split; [reflexivity|]. apply estimated_result_pages.
  - unfold eval. rewrite extractOCRText_run. cbn [fst]. unfold ocr_outcome.
    destruct (fs_readFileSync W path) as [b|]; cbn; [|reflexivity].
    destruct (Tesseract_recognize W b); cbn; [|reflexivity].
    eexists. split; [reflexivity|]. apply estimated_result_pages.
  - exact wordCount_tokens.
  - vm_compute. reflexivity.
  - unfold eval. rewrite extractTXTText_run. vm_compute. reflexivity.
Qed.

Lemma Math_round_nearest (q : Q) : nearest_integer q (Math_round q).
Proof.
  unfold nearest_integer, Math_round.
  pose proof (Qfloor_le (q + (1 # 2))) as Hle.
  pose proof (Qlt_floor (q + (1 # 2))) as Hlt.
  rewrite inject_Z_plus in Hlt. split.
  - apply (Qplus_le_l _ _ (1 # 2)). ring_simplify. exact Hle.
  - apply (Qplus_lt_l _ _ (1 # 2)).
    eapply Qlt_le_trans; [exact Hlt|]. ring_simplify. apply Qle_refl.
Qed.

(** C9.  The confidence a parser reports: 100 for plain text, 98 for a
    spreadsheet, 95 for a page-structured document, 95 for a
    word-processor document that the converter had no message about and
    85 otherwise, and for an image the OCR engine's confidence rounded to
    the nearest integer. *)
Theorem C9_confidence (W : World) (path : jsstring) (s : State) :
  on_success (fs_readFileSync W path) (eval (extractTXTText W path) s)
    (fun _ r => confidence r = 100)
  /\ on_success (XLSX_readFile W path) (eval (extractExcelData W path) s)
       (fun _ r => confidence r = 98)
  /\ on_success
       (b ← fs_readFileSync W path; doc ← PDFParse_load W b; getText doc)
       (eval (extractPDFText W path) s)
       (fun _ r => confidence r = 95)
  /\ on_success (mammoth_extractRawText W path) (eval (extractDOCXText W path) s)
       (fun x r => confidence r = match snd x with [] => 95 | _ :: _ => 85 end)
  /\ on_success (fs_readFileSync W path ≫= Tesseract_recognize W)
       (eval (extractOCRText W path) s)
       (fun x r => confidence r = Math_round (snd x)
                   /\ nearest_integer (snd x) (confidence r)).
Proof.
  split; [|split; [|split; [|split]]]; unfold eval.
  - rewrite extractTXTText_run. cbn [fst]. unfold txt_outcome.
    destruct (fs_readFileSync W path); cbn; [|reflexivity].
    eexists. split; reflexivity.
  - rewrite extractExcelData_run. cbn [fst]. unfold excel_outcome.
    destruct (XLSX_readFile W path); cbn; [|reflexivity].
    eexists. split; reflexivity.
  - rewrite extractPDFText_run. cbn [fst]. unfold pdf_outcome.
    destruct (fs_readFileSync W path) as [b|]; cbn; [|reflexivity].
    destruct (PDFParse_load W b) as [d|]; cbn; [|reflexivity].
    destruct (getText d); cbn; [|reflexivity].
    eexists. split; reflexivity.
  - rewrite extractDOCXText_run. cbn [fst]. unfold docx_outcome.
    destruct (mammoth_extractRawText W path) as [[t m]|]; cbn; [|reflexivity].
    eexists. split; [reflexivity|]. by destruct m.
  - rewrite extractOCRText_run. cbn [fst]. unfold ocr_outcome.
    destruct (fs_readFileSync W path) as [b|]; cbn; [|reflexivity].
    destruct (Tesseract_recognize W b) as [[t c]|]; cbn; [|reflexivity].
    eexists. split; [reflexivity|]. split; [reflexivity|].
    apply Math_round_nearest.
Qed.

(** ** Spreadsheets *)

Lemma cleanRows_In (jsonData : list (list Cell)) (row : list Cell) :
  In row (cleanRows jsonData)
  <-> In row jsonData /\ exists cell, In cell row /\ cell <> CStr [].
Proof.
  unfold cleanRows. rewrite filter_In, existsb_exists.
  split; intros [Hin (cell & Hc & Hf)]; (split; [done|]); exists cell;
    (split; [done|]).
  - intros ->. discriminate.
  - destruct cell as [[|]| |]; try reflexivity. by destruct Hf.
Qed.

Lemma spec_sheet_tables_index (wb : Workbook) (names : list jsstring) :
  forall i,
  List.map tableIndex
    (concat (List.map (spec_sheet_table wb) (combine (seqZ i (len names)) names)))
  = List.map fst
      (List.filter (fun item => sheet_has_data wb (snd item))
         (combine (seqZ i (len names)) names)).
Proof.
  induction names as [|n names IH]; intros i; [reflexivity|].
  unfold len. cbn [length]. rewrite Nat2Z.inj_succ, (seqZ_cons i) by lia.
  replace (Z.pred (Z.succ (Z.of_nat (length names)))) with (len names)
    by (unfold len; lia).
  cbn [combine List.map concat List.filter snd]. rewrite map_app, IH.
  unfold spec_sheet_table at 1. cbn [snd fst].
  destruct (sheet_has_data wb n); reflexivity.
Qed.

(** C7.  The spreadsheet parser reports one table for each sheet that
    keeps at least one row once the rows without any filled cell are
    dropped: the table of the sheet at index [i] has page number [i + 1],
    table index [i], the kept rows as data, their number as [rows] and
    the length of the first kept row as [columns]; [pageCount] is the
    number of sheets.  The workbook with the sheets Sheet1 and Sheet2, of
    which Sheet2 has only empty cells, gives [pageCount = 2] and the one
    table of Sheet1. *)
Theorem C7_spreadsheet_tables (W : World) (path : jsstring) (s : State) :
  on_success (XLSX_readFile W path) (eval (extractExcelData W path) s)
    (fun wb r =>
       tables r = spec_sheet_tables wb
       /\ List.map tableIndex (tables r)
          = List.map fst
              (List.filter (fun item => sheet_has_data wb (snd item))
                 (indexed (SheetNames wb)))
       /\ pageCount (metadata r) = len (SheetNames wb)
       /\ processedPages (metadata r) = seqZ 1 (len (SheetNames wb)))
  /\ (forall wb i name,
        spec_sheet_table wb (i, name)
        = if sheet_has_data wb name
          then [ {| pageNumber := i + 1; tableIndex := i;
                    data := cleanRows (sheet_rows wb name);
                    structure :=
                      {| rows := len (cleanRows (sheet_rows wb name));
                         columns := first_row_length
                                      (cleanRows (sheet_rows wb name)) |} |} ]
          else [])
  /\ (forall wb name,
        sheet_has_data wb name = (0 <? len (cleanRows (sheet_rows wb name))))
  /\ (forall jsonData row,
        In row (cleanRows jsonData)
        <-> In row jsonData /\ exists cell, In cell row /\ cell <> CStr [])
  /\ (forall shts n1 n2,
        spec_sheet_tables {| SheetNames := [n1; n2]; Sheets := shts |}
        = spec_sheet_table {| SheetNames := [n1; n2]; Sheets := shts |} (0, n1)
          ++ spec_sheet_table {| SheetNames := [n1; n2]; Sheets := shts |} (1, n2))
  /\ sheet_has_data demo_workbook (js "Sheet2") = false
  /\ ((fun r => (pageCount (metadata r), tables r))
        <$> returned (eval (extractExcelData demo_world (js "uploads/book.xlsx")) s))
     = Some (2, [ {| pageNumber := 1; tableIndex := 0;
                     data := [ [CStr (js "name"); CStr (js "qty")];
                               [CStr (js "bolt"); CStr (js "4")] ];
                     structure := {| rows := 2; columns := 2 |} |} ]).
Proof.
  split; [|split; [|split; [|split; [|split; [|split]]]]].
  - unfold eval. rewrite extractExcelData_run. cbn [fst]. unfold excel_outcome.
    destruct (XLSX_readFile W path) as [wb|]; cbn; [|reflexivity].
    eexists. split; [reflexivity|]. cbn [tables metadata pageCount processedPages].
    repeat split. apply spec_sheet_tables_index.
  - reflexivity.
  - intros wb name. unfold sheet_has_data, cleanRows.
    by rewrite existsb_filter.
  - exact cleanRows_In.
  - intros shts n1 n2. unfold spec_sheet_tables, indexed.
    cbn [SheetNames]. change (seqZ 0 (len [n1; n2])) with [0; 1].
    cbn [List.map concat combine]. by rewrite app_nil_r.
  - vm_compute. reflexivity.
  - unfold eval. rewrite extractExcelData_run. vm_compute. reflexivity.
Qed.

(** ** The progress query *)

(** C10.  For a document that exists and has no tracker in the registry
    the progress query answers 200 with the record's status, progress 100
    when that status is [completed] and 0 otherwise (so also for a failed
    job), the status string as the step, and [elapsed = 0]; the state is
    not changed. *)
Theorem C10_progress_fallback (id : jsstring) (s : State) (d : Document) :
  activeProgress s !! id = None ->
  documents s !! id = Some d ->
  getDocumentProgress id s
  = (Return {| statusCode := 200;
               body := ProgressBody id (processingStatus d)
                         (match processingStatus d with
                          | completed => 100
                          | _ => 0
                          end)
                         (status_string (processingStatus d)) 0 |}, s).
Proof.
  intros Hreg Hdoc. unfold getDocumentProgress, try_catch.
  rewrite bind_run. unfold getProgressTracker, gets. rewrite Hreg.
  rewrite bind_run. unfold Document_findById, gets. rewrite Hdoc.
  unfold json, mret, M_ret. by destruct (processingStatus d).
Qed.

(** The theorem at the processed notes, once their tracker is removed. *)
Lemma C10_progress_fallback_witness :
  getDocumentProgress (js "id1") s_notes_done
  = (Return {| statusCode := 200;
               body := ProgressBody (js "id1") completed 100 (js "completed") 0 |},
     s_notes_done).
Proof.
  apply (C10_progress_fallback (js "id1") s_notes_done d_notes_done);
    vm_compute; reflexivity.
Defined.

(** ** Invariants of the registry *)

Lemma preserves_ret {A} I (a : A) : preserves I (mret a).
Proof. intros s H. exact H. Qed.

Lemma preserves_throw {A} I e : preserves I (@throw A e).
Proof. intros s H. exact H. Qed.

Lemma preserves_gets {A} I (f : State -> A) : preserves I (gets f).
Proof. intros s H. exact H. Qed.

Lemma preserves_lift {A} I (o : Outcome A) : preserves I (lift o).
Proof. intros s H. exact H. Qed.

Lemma preserves_modify I (f : State -> State) :
  (forall s, I s -> I (f s)) -> preserves I (modify f).
Proof. intros Hf s H. by apply Hf. Qed.

Lemma preserves_bind {A B} I (c : M A) (f : A -> M B) :
  preserves I c -> (forall a, preserves I (f a)) -> preserves I (c ≫= f).
Proof.
  intros Hc Hf s H. rewrite bind_run. specialize (Hc s H).
  destruct (c s) as [[a|e] s']; cbn [snd] in *; [by apply Hf | done].
Qed.

Lemma preserves_try_catch {A} I (c : M A) (h : Exn -> M A) :
  preserves I c -> (forall e, preserves I (h e)) -> preserves I (try_catch c h).
Proof.
  intros Hc Hh s H. unfold try_catch. specialize (Hc s H).
  destruct (c s) as [[a|e] s']; cbn [snd] in *; [done | by apply Hh].
Qed.

Lemma preserves_try_finally {A} I (c : M A) (f : M unit) :
  preserves I c -> preserves I f -> preserves I (try_finally c f).
Proof.
  intros Hc Hf s H. unfold try_finally. specialize (Hc s H).
  destruct (c s) as [o s']. cbn [snd] in Hc. specialize (Hf s' Hc).
  destruct (f s') as [[[]|e] s'']; exact Hf.
Qed.

Lemma registry_not_pending_same (s s' : State) :
  heap s' = heap s -> activeProgress s' = activeProgress s ->
  registry_not_pending s -> registry_not_pending s'.
Proof. unfold registry_not_pending. intros -> ->. done. Qed.

Lemma registry_not_pending_put l t' s :
  (forall t, heap s !! l = Some t -> status t <> pending -> status t' <> pending) ->
  registry_not_pending s -> registry_not_pending (put_tracker l t' s).
Proof.
  intros Ht H id l0 Hreg. destruct (H id l0 Hreg) as (t0 & Hl0 & Hs0).
  cbn [heap put_tracker set_heap]. destruct (decide (l = l0)) as [->|Hne].
  - exists t'. split; [|by eapply Ht].
    apply list_lookup_insert_eq. by eapply lookup_lt_Some.
  - exists t0. split; [|done]. by rewrite list_lookup_insert_ne.
Qed.

Lemma preserves_tell (e : Effect) : preserves registry_not_pending (tell e).
Proof. apply preserves_modify. intros s. by apply registry_not_pending_same. Qed.

Lemma preserves_readTracker l : preserves registry_not_pending (readTracker l).
Proof. intros s H. unfold readTracker. by destruct (heap s !! l). Qed.

Section Invariant.

Variable W : World.

Lemma preserves_emit l e : preserves registry_not_pending (emit W l e).
Proof.
  apply preserves_bind; [apply preserves_readTracker|]. intros t.
  destruct e; try apply preserves_tell.
  destruct (errorListeners t =? 0)%nat;
    [apply preserves_throw | apply preserves_tell].
Qed.

Lemma preserves_updateProgress l p step :
  preserves registry_not_pending (updateProgress W l p step).
Proof.
  intros s H. destruct (heap s !! l) as [t|] eqn:Hl.
  - rewrite (updateProgress_run W _ _ _ _ _ Hl). cbn [snd].
    eapply registry_not_pending_same; [reflexivity | reflexivity |].
    apply registry_not_pending_put; [|done].
    intros t0 Ht0 Hs. rewrite Hl in Ht0. by injection Ht0 as ->.
  - unfold updateProgress. rewrite bind_run. unfold readTracker.
    by rewrite Hl.
Qed.

Lemma preserves_setStatus l st step :
  st <> pending -> preserves registry_not_pending (setStatus W l st step).
Proof.
  intros Hst s H. destruct (heap s !! l) as [t|] eqn:Hl.
  - rewrite (setStatus_run W _ _ _ _ _ Hl). cbn [snd].
    eapply registry_not_pending_same; [reflexivity | reflexivity |].
    apply registry_not_pending_put; done.
  - unfold setStatus. rewrite bind_run. unfold readTracker.
    by rewrite Hl.
Qed.

Lemma preserves_findByIdAndUpdate id w :
  preserves registry_not_pending (Document_findByIdAndUpdate id w).
Proof. intros s H. by eapply registry_not_pending_same. Qed.

Lemma preserves_dispatch tag path l :
  preserves registry_not_pending (dispatch W tag path l).
Proof.
  intros s H. unfold dispatch.
  repeat match goal with
  | |- context [if ?b then _ else _] => destruct b
  end.
  - rewrite extractPDFText_run. by eapply registry_not_pending_same.
  - rewrite extractDOCXText_run. by eapply registry_not_pending_same.
  - rewrite extractExcelData_run. by eapply registry_not_pending_same.
  - rewrite extractTXTText_run. by eapply registry_not_pending_same.
  - revert s H. apply preserves_bind; [apply preserves_updateProgress|].
    intros _ s H. rewrite extractOCRText_run.
    by eapply registry_not_pending_same.
  - exact H.
Qed.

Lemma preserves_processDocument id path tag l :
  preserves registry_not_pending (processDocument W id path tag l).
Proof.
  unfold processDocument. apply preserves_try_finally.
  - apply preserves_try_catch.
    + apply preserves_bind; [apply preserves_findByIdAndUpdate|]. intros _.
      apply preserves_bind; [apply preserves_updateProgress|]. intros _.
      apply preserves_bind; [apply preserves_updateProgress|]. intros _.
      apply preserves_bind; [apply preserves_dispatch|]. intros r.
      apply preserves_bind; [apply preserves_updateProgress|]. intros _.
      apply preserves_bind; [apply preserves_gets|]. intros now.
      apply preserves_bind; [apply preserves_findByIdAndUpdate|]. intros _.
      apply preserves_bind; [by apply preserves_setStatus|]. intros _.
      apply preserves_updateProgress.
    + intros e.
      apply preserves_bind.
      { apply preserves_bind; [by apply preserves_setStatus|]. intros _.
        apply preserves_bind; [apply preserves_readTracker|]. intros t.
        apply preserves_bind; [apply preserves_gets|]. intros now.
        apply preserves_emit. }
      intros _.
      apply preserves_bind; [apply preserves_findByIdAndUpdate|]. intros _.
      apply preserves_ret.
  - apply preserves_bind; [apply preserves_tell|]. intros _.
    apply preserves_modify. intros s. by apply registry_not_pending_same.
Qed.

End Invariant.

Lemma createProgressTracker_run id s :
  createProgressTracker id s
  = (Return (length (heap s)),
     set_activeProgress (fun m => <[id := length (heap s)]> m)
       (set_heap (fun h => h ++ [new_ProgressTracker id (clock s)]) s)).
Proof. reflexivity. Qed.

Lemma lookup_fresh (h : list ProgressTracker) (t : ProgressTracker) :
  (h ++ [t]) !! length h = Some t.
Proof. by rewrite lookup_app_r, Nat.sub_diag. Qed.

(** Creating a tracker and setting its status, as [uploadDocument] does. *)
Lemma register_not_pending W id st step s :
  st <> pending ->
  registry_not_pending s ->
  registry_not_pending
    (snd ((l ← createProgressTracker id; setStatus W l st step) s)).
Proof.
  intros Hst H. rewrite bind_run, createProgressTracker_run.
  erewrite setStatus_run by apply lookup_fresh.
  cbn [snd]. intros id0 l0. norm.
  destruct (decide (id = id0)) as [->|Hne].
  - rewrite lookup_insert_eq. intros [= <-].
    exists (with_status st step (new_ProgressTracker id0 (clock s))).
    split; [|exact Hst].
    apply list_lookup_insert_eq. rewrite length_app. simpl. lia.
  - rewrite lookup_insert_ne by done. intros Hreg.
    destruct (H id0 l0 Hreg) as (t0 & Hl0 & Hs0).
    exists t0. split; [|done].
    pose proof (lookup_lt_Some _ _ _ Hl0) as Hlt.
    rewrite list_lookup_insert_ne by lia.
    by rewrite lookup_app_l.
Qed.

Lemma preserves_uploadDocument W f oid :
  preserves registry_not_pending (uploadDocument W f oid).
Proof.
  unfold uploadDocument. apply preserves_try_catch;
    [|intros e; apply preserves_ret].
  destruct f as [file|]; [|apply preserves_ret].
  repeat match goal with
  | |- context [if ?b then _ else _] => destruct b; [apply preserves_ret|]
  end.
  apply preserves_bind; [apply preserves_gets|]. intros now.
  apply preserves_bind.
  { unfold Document_save. destruct (schema_valid _); [|apply preserves_throw].
    apply preserves_bind; [apply preserves_tell|]. intros _.
    apply preserves_modify. intros s. by apply registry_not_pending_same. }
  intros _ s H. rewrite bind_run, createProgressTracker_run.
  rewrite bind_run.
  pose proof (register_not_pending W oid processing
                (js "Starting document processing") s ltac:(done) H) as Hreg.
  rewrite bind_run, createProgressTracker_run in Hreg.
  destruct (setStatus W _ _ _ _) as [[[]|e] s']; cbn [snd] in Hreg |- *;
    [|exact Hreg].
  revert s' Hreg.
  apply preserves_bind; [|intros _; apply preserves_ret].
  apply preserves_modify. intros s'. by apply registry_not_pending_same.
Qed.

Lemma preserves_getDocumentProgress id :
  preserves registry_not_pending (getDocumentProgress id).
Proof.
  unfold getDocumentProgress. apply preserves_try_catch;
    [|intros e; apply preserves_ret].
  apply preserves_bind; [apply preserves_gets|]. intros [l|].
  - apply preserves_bind; [apply preserves_readTracker|]. intros t.
    apply preserves_bind; [apply preserves_gets|]. intros now.
    apply preserves_ret.
  - apply preserves_bind; [apply preserves_gets|]. intros [d|];
      apply preserves_ret.
Qed.

Lemma preserves_removeProgressTracker id :
  preserves registry_not_pending (removeProgressTracker id).
Proof.
  intros s H id0 l0. cbn. intros Hreg.
  apply lookup_delete_Some in Hreg as [_ Hreg]. exact (H id0 l0 Hreg).
Qed.

Lemma reachable_not_pending W s : reachable W s -> registry_not_pending s.
Proof.
  induction 1 as [|s s' _ IH Hstep].
  - intros id l Hreg. unfold initial_state in Hreg.
    cbn [activeProgress] in Hreg. by rewrite lookup_empty in Hreg.
  - destruct Hstep; unfold exec.
    + by apply preserves_uploadDocument.
    + unfold run_job. apply (preserves_processDocument W).
      by eapply registry_not_pending_same.
    + by apply preserves_getDocumentProgress.
    + apply (preserves_removeProgressTracker id).
      by eapply registry_not_pending_same.
    + by eapply registry_not_pending_same.
Qed.

(** C3 (as stated, refuted).  The tracker that the registry's create
    operation returns is not in status [processing]. *)
Lemma C3_counterexample :
  ~ (forall id s,
       exists l t, eval (createProgressTracker id) s = Return l
                   /\ heap (exec (createProgressTracker id) s) !! l = Some t
                   /\ status t = processing).
Proof.
  intros H. destruct (H (js "id1") initial_state) as (l & t & Hl & Ht & Hs).
  vm_compute in Hl. injection Hl as <-.
  vm_compute in Ht. injection Ht as <-.
  discriminate Hs.
Qed.

(** C3 (amended).  The tracker that the registry's create operation
    returns has status [pending], progress 0 and an empty step, and is the
    one registered for the job.  [uploadDocument] sets it to [processing]
    in the same uninterrupted step, so in every state the system reaches
    between two steps no tracker of the registry is [pending], and the
    progress query reports a status other than [pending] for a job that
    has a tracker. *)
Theorem C3_tracker_status (W : World) (s : State) :
  reachable W s ->
  (forall id,
     eval (createProgressTracker id) s = Return (length (heap s))
     /\ activeProgress (exec (createProgressTracker id) s) !! id
        = Some (length (heap s))
     /\ heap (exec (createProgressTracker id) s) !! length (heap s)
        = Some (new_ProgressTracker id (clock s))
     /\ status (new_ProgressTracker id (clock s)) = pending
     /\ progress (new_ProgressTracker id (clock s)) = 0
     /\ currentStep (new_ProgressTracker id (clock s)) = [])
  /\ (forall id,
        registry_not_pending
          (exec (l ← createProgressTracker id;
                 setStatus W l processing (js "Starting document processing")) s))
  /\ registry_not_pending s
  /\ (forall id l,
        activeProgress s !! id = Some l ->
        exists t,
          heap s !! l = Some t /\ status t <> pending
          /\ getDocumentProgress id s
             = (Return {| statusCode := 200;
                          body := ProgressBody id (status t) (progress t)
                                    (currentStep t) (clock s - startTime t) |},
                s)).
Proof.
  intros Hreach. pose proof (reachable_not_pending W s Hreach) as Hinv.
  split; [|split; [|split]].
  - intros id. unfold eval, exec. rewrite createProgressTracker_run.
    cbn [fst snd]. norm. split; [reflexivity|].
    split; [apply lookup_insert_eq|]. split; [apply lookup_fresh|].
    repeat split.
  - intros id. by apply register_not_pending.
  - exact Hinv.
  - intros id l Hreg. destruct (Hinv id l Hreg) as (t & Hl & Hs).
    exists t. split; [done|]. split; [done|].
    unfold getDocumentProgress, try_catch.
    rewrite bind_run. unfold getProgressTracker, gets. rewrite Hreg.
    rewrite bind_run, (readTracker_run _ _ _ Hl). reflexivity.
Qed.

Lemma s_uploaded_reachable : reachable demo_world s_uploaded.
Proof.
  apply (reach_step demo_world initial_state); [apply reach_init|].
  apply (step_upload demo_world (Some (demo_file "Notes.TXT" "notes.txt"))
           (js "id1") initial_state).
  reflexivity.
Defined.

(** The theorem at the state after the upload of the notes. *)
Lemma C3_tracker_status_witness :
  reachable demo_world s_uploaded /\ registry_not_pending s_uploaded.
Proof.
  split; [exact s_uploaded_reachable|].
  apply (C3_tracker_status demo_world s_uploaded s_uploaded_reachable).
Defined.

(** ** Invariants of the store *)

(** What [uploadDocument] does to the state: nothing, or it adds a fresh
    record in status [pending], a tracker and a job for it. *)
Lemma uploadDocument_cases W f oid s :
  exec (uploadDocument W f oid) s = s
  \/ exists d t e1 e2 path tag,
       fresh_record d
       /\ tag ∈ allowedTypes
       /\ exec (uploadDocument W f oid) s
          = {| documents := <[oid := d]> (documents s);
               heap := heap s ++ [t];
               activeProgress := <[oid := length (heap s)]> (activeProgress s);
               timers := timers s;
               spawned := spawned s
                 ++ [{| job_id := oid; job_path := path; job_type := tag;
                        job_tracker := length (heap s) |}];
               clock := clock s;
               trace := trace s ++ [e1; e2] |}.
Proof.
  destruct s as [docs hp reg tm sp ck tr].
  unfold exec, uploadDocument, try_catch.
  destruct f as [file|]; [|by left].
  destruct (bool_decide_reflect (fileExt_of W file ∈ allowedTypes))
    as [Hext|_]; cbn [negb]; [|by left].
  repeat match goal with
  | |- context [if ?b then _ else _] => destruct b; [by left|]
  end.
  rewrite bind_run. unfold Date_now, gets.
  rewrite bind_run. unfold Document_save.
  destruct (schema_valid _); [|by left].
  rewrite bind_run. unfold tell, modify. rewrite bind_run.
  rewrite createProgressTracker_run.
  rewrite bind_run. erewrite setStatus_run by apply lookup_fresh.
  rewrite bind_run. unfold json, mret, M_ret. cbn [snd].
  right. eexists _, _, _, _, _, _. split; [|split]; cycle 2.
  - norm. rewrite <- app_assoc.
    replace (length hp) with (length hp + 0)%nat at 1 by lia.
    rewrite insert_app_r. reflexivity.
  - split; reflexivity.
  - exact Hext.
Qed.

Lemma store_invariant_same (s s' : State) :
  documents s' = documents s -> spawned s' = spawned s ->
  length (heap s') = length (heap s) ->
  store_invariant s -> store_invariant s'.
Proof. unfold store_invariant. intros -> -> ->. done. Qed.

Lemma getDocumentProgress_pure id s : exec (getDocumentProgress id) s = s.
Proof.
  unfold exec, getDocumentProgress, try_catch.
  rewrite bind_run. unfold getProgressTracker, gets.
  destruct (activeProgress s !! id) as [l|].
  - rewrite bind_run. unfold readTracker.
    destruct (heap s !! l); reflexivity.
  - rewrite bind_run. unfold Document_findById, gets.
    destruct (documents s !! id); reflexivity.
Qed.

Lemma consistent_after_write (d : Document) (w : DbWrite) :
  errorMessage d = None -> record_consistent (apply_write w d).
Proof.
  intros Hd. destruct w; split; cbn; intros H; try discriminate; done.
Qed.

(** A run of [processDocument] writes [processing] and then at most one
    of the two terminal writes to the record of its job, and to no other
    record. *)
Lemma processDocument_writes W id path tag l t s :
  heap s !! l = Some t ->
  exists ws,
    (ws = [] \/ (exists r now, ws = [WriteCompleted r now])
     \/ (exists msg, ws = [WriteFailed msg]))
    /\ documents (exec (processDocument W id path tag l) s)
       = fold_left (fun m w => alter (apply_write w) id m)
           (WriteProcessing :: ws) (documents s)
    /\ length (heap (exec (processDocument W id path tag l) s)) = length (heap s)
    /\ spawned (exec (processDocument W id path tag l) s) = spawned s.
Proof.
  intros H. unfold exec.
  destruct (dispatch_outcome W tag path) as [r|e] eqn:Hd.
  - rewrite (processDocument_success W id path tag l t s r H Hd). cbn [snd].
    exists [WriteCompleted r (clock s)]. norm. rewrite length_insert.
    repeat split. right. left. by eexists _, _.
  - destruct (decide (errorListeners t = 0%nat)) as [Hl|Hl].
    + rewrite (processDocument_failure_unhandled W id path tag l t s e H Hl Hd).
      cbn [snd]. exists []. norm. rewrite length_insert.
      repeat split. by left.
    + rewrite (processDocument_failure_handled W id path tag l t s e H Hl Hd).
      cbn [snd]. exists [WriteFailed (message e)]. norm. rewrite length_insert.
      repeat split. right. right. by eexists.
Qed.

Lemma fold_alter_lookup_ne (ws : list DbWrite) (id id0 : jsstring) :
  id <> id0 ->
  forall m : gmap jsstring Document,
  fold_left (fun m w => alter (apply_write w) id m) ws m !! id0 = m !! id0.
Proof.
  intros Hne. induction ws as [|w ws IH]; intros m; [reflexivity|].
  cbn [fold_left]. rewrite IH. by apply lookup_alter_ne.
Qed.

Lemma fold_alter_lookup_eq (ws : list DbWrite) (id : jsstring) :
  forall (m : gmap jsstring Document) (d : Document),
  m !! id = Some d ->
  fold_left (fun m w => alter (apply_write w) id m) ws m !! id
  = Some (fold_left (fun d w => apply_write w d) ws d).
Proof.
  induction ws as [|w ws IH]; intros m d Hd; [exact Hd|].
  cbn [fold_left]. apply IH. rewrite lookup_alter_eq, Hd. reflexivity.
Qed.

Lemma store_invariant_job W (j : Job) (q1 q2 : list Job) (s : State) :
  spawned s = q1 ++ j :: q2 ->
  store_invariant s ->
  store_invariant (exec (run_job W j) (set_spawned (fun _ => q1 ++ q2) s)).
Proof.
  intros Hq (Hrec & Hjobs & Hnd).
  assert (j ∈ spawned s) as Hj.
  { rewrite Hq. apply elem_of_app. right. apply elem_of_cons. by left. }
  destruct (Hjobs j Hj) as ((d & Hd & Hp & He) & Hlt & _).
  apply lookup_lt_is_Some_2 in Hlt as [t Ht].
  destruct (processDocument_writes W (job_id j) (job_path j) (job_type j)
              (job_tracker j) t (set_spawned (fun _ => q1 ++ q2) s) Ht)
    as (ws & Hws & Hdocs & Hlen & Hsp).
  fold (run_job W j) in Hdocs, Hlen, Hsp.
  rewrite Hq, map_app in Hnd. cbn [List.map] in Hnd.
  apply NoDup_app in Hnd as (Hn1 & Hn12 & Hn2).
  apply NoDup_cons in Hn2 as [Hnj Hn2].
  assert (forall j', j' ∈ q1 ++ q2 -> job_id j' <> job_id j) as Hother.
  { intros j' Hin Heq. apply elem_of_app in Hin as [Hin|Hin].
    - apply (Hn12 (job_id j')); [by apply list_elem_of_fmap_2|].
      rewrite Heq. apply elem_of_cons. by left.
    - apply Hnj. rewrite <- Heq. by apply list_elem_of_fmap_2. }
  split; [|split].
  - intros id0 d0. rewrite Hdocs. cbn [documents set_spawned].
    destruct (decide (job_id j = id0)) as [<-|Hne].
    + rewrite (fold_alter_lookup_eq _ _ _ d Hd). intros [= <-].
      destruct Hws as [->|[(r & now & ->)|(msg & ->)]].
      * exact (consistent_after_write d WriteProcessing He).
      * exact (consistent_after_write (apply_write WriteProcessing d)
                 (WriteCompleted r now) He).
      * exact (consistent_after_write (apply_write WriteProcessing d)
                 (WriteFailed msg) He).
    + rewrite fold_alter_lookup_ne by done. apply Hrec.
  - intros j'. rewrite Hsp. cbn [spawned set_spawned]. intros Hin.
    assert (j' ∈ spawned s) as Hin'.
    { rewrite Hq. apply elem_of_app.
      apply elem_of_app in Hin as [Hin|Hin]; [by left|].
      right. apply elem_of_cons. by right. }
    destruct (Hjobs j' Hin') as (Hd' & Hlt' & Htag'). split; [|split].
    + rewrite Hdocs. cbn [documents set_spawned].
      rewrite fold_alter_lookup_ne; [done|].
      intros Heq. by apply (Hother j' Hin).
    + rewrite Hlen. exact Hlt'.
    + exact Htag'.
  - rewrite Hsp. cbn [spawned set_spawned]. rewrite map_app.
    apply NoDup_app. split; [done|]. split; [|done].
    intros x Hx1 Hx2. apply (Hn12 x Hx1). apply elem_of_cons. by right.
Qed.

Lemma store_invariant_upload W f oid s :
  documents s !! oid = None ->
  store_invariant s ->
  store_invariant (exec (uploadDocument W f oid) s).
Proof.
  intros Hfree (Hrec & Hjobs & Hnd).
  destruct (uploadDocument_cases W f oid s)
    as [->|(d & t & e1 & e2 & path & tag & Hd & Htag & ->)]; [done|].
  assert (forall j, j ∈ spawned s -> job_id j <> oid) as Hother.
  { intros j Hin Heq. destruct (Hjobs j Hin) as ((d' & Hd' & _) & _).
    rewrite Heq in Hd'. congruence. }
  split; [|split]; cbn [documents spawned heap].
  - intros id0 d0. destruct (decide (oid = id0)) as [<-|Hne].
    + rewrite lookup_insert_eq. intros [= <-].
      destruct Hd as [Hp He]. split; rewrite Hp; discriminate.
    + rewrite lookup_insert_ne by done. apply Hrec.
  - intros j Hin. rewrite length_app. cbn [length].
    apply elem_of_app in Hin as [Hin|Hin].
    + destruct (Hjobs j Hin) as (Hd' & Hlt & Htag').
      split; [|split; [lia|done]].
      rewrite lookup_insert_ne; [done|].
      intros Heq. by apply (Hother j Hin).
    + apply list_elem_of_singleton in Hin as ->.
      cbn [job_id job_tracker job_type].
      split; [|split; [lia|done]]. exists d. by rewrite lookup_insert_eq.
  - rewrite map_app. apply NoDup_app. split; [done|].
    split; [|apply NoDup_singleton].
    intros x Hx1 Hx2. cbn in Hx2. apply list_elem_of_singleton in Hx2 as ->.
    apply list_elem_of_fmap in Hx1 as (j & Hj & Hin).
    by apply (Hother j Hin).
Qed.

(** In every state the system reaches, a record in status [completed]
    has no error message and a record in status [failed] has one, and
    every job that waits has a supported file type. *)
Lemma reachable_store_invariant W s : reachable W s -> store_invariant s.
Proof.
  induction 1 as [|s s' _ IH Hstep].
  - split; [|split].
    + intros id d Hd. unfold initial_state in Hd. cbn [documents] in Hd.
      by rewrite lookup_empty in Hd.
    + intros j Hj. by apply elem_of_nil in Hj.
    + constructor.
  - destruct Hstep.
    + by apply store_invariant_upload.
    + by apply store_invariant_job.
    + by rewrite getDocumentProgress_pure.
    + by eapply store_invariant_same.
    + by eapply store_invariant_same.
Qed.

(** ** Unsupported types, in the system *)

Lemma uploadDocument_outcome W f oid s :
  (exists code b,
     uploadDocument W f oid s
     = (Return {| statusCode := code; body := ErrorBody (fst b) (snd b) |}, s)
     /\ (code = 400 \/ code = 500))
  \/ (exists file,
        f = Some file
        /\ fileExt_of W file ∈ allowedTypes
        /\ size file <= maxSize
        /\ trim (originalname file) <> []
        /\ uploadDocument W f oid s
           = (Return {| statusCode := 201;
                        body := UploadedBody oid (originalname file)
                                  (fileExt_of W file) pending |},
              uploaded_state W file oid s)).
Proof.
  destruct s as [docs hp reg tm sp ck tr].
  unfold uploadDocument, try_catch.
  destruct f as [file|].
  2:{ left. eexists 400, (_, _). split; [reflexivity | by left]. }
  destruct (bool_decide_reflect (fileExt_of W file ∈ allowedTypes))
    as [Hext|_]; cbn [negb].
  2:{ left. eexists 400, (_, _). split; [reflexivity | by left]. }
  destruct (Z.ltb_spec maxSize (size file)) as [Hsz|Hsz].
  { left. eexists 400, (_, _). split; [reflexivity | by left]. }
  destruct (jsstring_eqb (originalname file) []
            || (len (trim (originalname file)) =? 0)) eqn:Hname.
  { left. eexists 400, (_, _). split; [reflexivity | by left]. }
  rewrite bind_run. unfold Date_now, gets.
  rewrite bind_run. unfold Document_save.
  destruct (schema_valid _).
  2:{ left. eexists 500, (_, _). split; [reflexivity | by right]. }
  rewrite bind_run. unfold tell, modify. rewrite bind_run.
  rewrite createProgressTracker_run.
  rewrite bind_run. erewrite setStatus_run by apply lookup_fresh.
  rewrite bind_run. unfold json, mret, M_ret.
  right. exists file. split; [done|]. split; [done|]. split; [done|].
  split.
  - apply orb_false_iff in Hname as [_ Hname]. apply Z.eqb_neq in Hname.
    intros Ht. rewrite Ht in Hname. by apply Hname.
  - unfold uploaded_state, uploaded_tracker, uploaded_record. norm.
    rewrite <- app_assoc.
    replace (length hp) with (length hp + 0)%nat at 1 by lia.
    rewrite insert_app_r. reflexivity.
Qed.

Lemma Invoke_not_in_opening W id path tag l t now x p :
  extractor_of tag = None ->
  Invoke x p ∉ opening_effects W id path tag l t now.
Proof.
  intros Hx. unfold opening_effects. rewrite Hx, app_nil_r.
  intros Hin. repeat (apply elem_of_cons in Hin as [Hin|Hin]; [discriminate|]).
  by apply elem_of_nil in Hin.
Qed.

(** [processDocument] called with a tag outside the supported set: no
    parser is called and "Unsupported file type" is handed to [fail] on
    the tracker, after the write of [processing] and the checkpoints 10
    and 30.  (No call the system makes passes such a tag, see below.) *)
Lemma processDocument_unsupported (W : World) (tag : jsstring) :
  tag ∉ allowedTypes ->
  forall id path l t s,
    heap s !! l = Some t ->
    dispatch_outcome W tag path = Throw unsupported
    /\ (forall x p,
          Invoke x p ∉ new_trace (processDocument W id path tag l) s)
    /\ (exists rest,
          new_trace (processDocument W id path tag l) s
          = [ DbUpdate id WriteProcessing;
              Emit l (progress_event (clock s) (t_read t));
              Emit l (progress_event (clock s) (t_processing W tag t));
              Emit l (status_event (clock s) (t_failed W tag unsupported t)) ]
            ++ rest)
    /\ heap (exec (processDocument W id path tag l) s) !! l
       = Some (t_failed W tag unsupported t)
    /\ status (t_failed W tag unsupported t) = failed
    /\ currentStep (t_failed W tag unsupported t)
       = js "Error: " ++ js "Unsupported file type"
    /\ progress (t_failed W tag unsupported t) = 30.
Proof.
  intros Hn id path l t s H.
  pose proof (extractor_of_None tag Hn) as Hx.
  assert (dispatch_outcome W tag path = Throw unsupported) as Hd
    by (unfold dispatch_outcome; by rewrite Hx).
  assert (is_image tag = false) as Himg.
  { unfold extractor_of in Hx. repeat destruct (jsstring_eqb _ _); try done;
      simpl in Hx; by destruct (is_image tag). }
  split; [exact Hd|].
  assert (exists o s' rest,
            processDocument W id path tag l s = (o, s')
            /\ trace s' = trace s ++ opening_effects W id path tag l t (clock s)
                 ++ Emit l (status_event (clock s) (t_failed W tag unsupported t))
                    :: rest
            /\ (forall x p, Invoke x p ∉ rest)
            /\ heap s' = <[l := t_failed W tag unsupported t]> (heap s))
    as (o & s' & rest & Hrun & Htr & Hrest & Hheap).
  { destruct (decide (errorListeners t = 0%nat)) as [Hl|Hl].
    - eexists _, _, [SetTimeout cleanup_delay id].
      split; [by apply processDocument_failure_unhandled|].
      cbn [trace heap]. split; [reflexivity|]. split; [|reflexivity].
      intros x p Hin. apply list_elem_of_singleton in Hin. discriminate.
    - eexists _, _, [_; _; _].
      split; [by apply processDocument_failure_handled|].
      cbn [trace heap]. split; [reflexivity|]. split; [|reflexivity].
      intros x p Hin.
      repeat (apply elem_of_cons in Hin as [Hin|Hin]; [discriminate|]).
      by apply elem_of_nil in Hin. }
  rewrite (new_trace_app _ _ _ _ _ Hrun Htr).
  unfold exec. rewrite Hrun. cbn [snd]. rewrite Hheap.
  split; [|split; [|split; [|split; [|split]]]].
  - intros x p Hin. apply elem_of_app in Hin as [Hin|Hin].
    + by apply Invoke_not_in_opening in Hin.
    + apply elem_of_cons in Hin as [Hin|Hin]; [discriminate|].
      by apply Hrest in Hin.
  - exists rest. unfold opening_effects. by rewrite Hx, app_nil_r.
  - apply list_lookup_insert_eq. by eapply lookup_lt_Some.
  - reflexivity.
  - reflexivity.
  - unfold t_failed, t_dispatched. rewrite Himg. reflexivity.
Qed.

Lemma supported_alter (w : DbWrite) (id : jsstring)
  (m : gmap jsstring Document) :
  (forall id0 d, m !! id0 = Some d -> fileType d ∈ allowedTypes) ->
  forall id0 d, alter (apply_write w) id m !! id0 = Some d ->
    fileType d ∈ allowedTypes.
Proof.
  intros H id0 d. destruct (decide (id = id0)) as [<-|Hne].
  - rewrite lookup_alter_eq. destruct (m !! id) as [d0|] eqn:Hd0;
      [|discriminate].
    intros [= <-]. specialize (H id d0 Hd0). by destruct w.
  - rewrite lookup_alter_ne by done. apply H.
Qed.

Lemma supported_writes (ws : list DbWrite) (id : jsstring) :
  forall m : gmap jsstring Document,
    (forall id0 d, m !! id0 = Some d -> fileType d ∈ allowedTypes) ->
    forall id0 d,
      fold_left (fun m w => alter (apply_write w) id m) ws m !! id0 = Some d ->
      fileType d ∈ allowedTypes.
Proof.
  induction ws as [|w ws IH]; intros m H; [exact H|].
  cbn [fold_left]. apply IH. by apply supported_alter.
Qed.

Lemma reachable_records_supported W s :
  reachable W s -> records_supported s.
Proof.
  induction 1 as [|s s' Hreach IH Hstep].
  - intros id d Hd. unfold initial_state in Hd. cbn [documents] in Hd.
    by rewrite lookup_empty in Hd.
  - destruct Hstep as [f oid s Hfree|j q1 q2 s Hq|id0 s|dl id0 t1 t2 s Ht|dt s Hdt].
    + unfold exec.
      destruct (uploadDocument_outcome W f oid s)
        as [(code & b & -> & _)|(file & _ & Hext & _ & _ & ->)]; [exact IH|].
      cbn [snd]. intros id d. cbn [documents uploaded_state].
      destruct (decide (oid = id)) as [<-|Hne].
      * rewrite lookup_insert_eq. intros [= <-]. exact Hext.
      * rewrite lookup_insert_ne by done. apply IH.
    + destruct (reachable_store_invariant W s Hreach) as (_ & Hjobs & _).
      assert (j ∈ spawned s) as Hj.
      { rewrite Hq. apply elem_of_app. right. apply elem_of_cons. by left. }
      destruct (Hjobs j Hj) as (_ & Hlt & _).
      apply lookup_lt_is_Some_2 in Hlt as [t Ht].
      destruct (processDocument_writes W (job_id j) (job_path j) (job_type j)
                  (job_tracker j) t (set_spawned (fun _ => q1 ++ q2) s) Ht)
        as (ws & _ & Hdocs & _).
      intros id d. unfold run_job. rewrite Hdocs.
      apply supported_writes. exact IH.
    + by rewrite getDocumentProgress_pure.
    + exact IH.
    + exact IH.
Qed.

Lemma dispatch_unsupported (W : World) (tag path : jsstring) (l : nat)
  (s : State) :
  tag ∉ allowedTypes -> dispatch W tag path l s = (Throw unsupported, s).
Proof.
  intros Hn. unfold dispatch, is_image, jsstring_eqb.
  repeat match goal with
  | |- context [bool_decide (tag = ?x)] =>
      destruct (bool_decide_reflect (tag = x)) as [->|_];
      [exfalso; apply Hn; unfold allowedTypes; set_solver|]
  end.
  reflexivity.
Qed.

(** C1.  A file type outside the supported set never reaches processing.
    [uploadDocument] answers an upload whose extension is such a tag with
    400 INVALID_FILE_TYPE and changes nothing: no record is created or
    set to [processing], no tracker and no job is made, and no parser is
    called.  Hence in every state the system reaches no job has such a
    tag and no record has such a file type.  The [switch] of
    [processDocument] answers such a tag at once with the error
    "Unsupported file type", calling no parser and changing nothing. *)
Theorem C1_unsupported_type (W : World) (tag : jsstring) :
  tag ∉ allowedTypes ->
  (forall file oid s,
     fileExt_of W file = tag ->
     uploadDocument W (Some file) oid s
     = (Return {| statusCode := 400;
                  body := ErrorBody (js "Invalid file type")
                            (js "INVALID_FILE_TYPE") |}, s))
  /\ (forall s, reachable W s ->
        (forall j, j ∈ spawned s -> job_type j <> tag)
        /\ (forall id d, documents s !! id = Some d -> fileType d <> tag))
  /\ (forall path l s, dispatch W tag path l s = (Throw unsupported, s)).
Proof.
  intros Hn. split; [|split].
  - intros file oid s Hext. unfold uploadDocument, try_catch.
    rewrite Hext, bool_decide_eq_false_2 by done. reflexivity.
  - intros s Hreach. split.
    + intros j Hj Heq.
      destruct (reachable_store_invariant W s Hreach) as (_ & Hjobs & _).
      destruct (Hjobs j Hj) as (_ & _ & Htag). apply Hn. by rewrite <- Heq.
    + intros id d Hd Heq. apply Hn. rewrite <- Heq.
      exact (reachable_records_supported W s Hreach id d Hd).
  - intros path l s. by apply dispatch_unsupported.
Qed.

Lemma bmp_unsupported : js "bmp" ∉ allowedTypes.
Proof.
  unfold allowedTypes. rewrite !not_elem_of_cons.
  repeat split; try (vm_compute; discriminate). apply not_elem_of_nil.
Defined.

(** The theorem at the tag ["bmp"], on the state after the upload of the
    notes. *)
Lemma C1_unsupported_type_witness :
  (js "bmp" ∉ allowedTypes)
  /\ uploadDocument demo_world (Some (demo_file "photo.BMP" "photo.bmp"))
       (js "id2") s_uploaded
     = (Return {| statusCode := 400;
                  body := ErrorBody (js "Invalid file type")
                            (js "INVALID_FILE_TYPE") |}, s_uploaded)
  /\ dispatch demo_world (js "bmp") (js "uploads/photo.bmp") 0 s_uploaded
     = (Throw unsupported, s_uploaded).
Proof.
  split; [exact bmp_unsupported|].
  destruct (C1_unsupported_type demo_world (js "bmp") bmp_unsupported)
    as (Hup & _ & Hsw).
  split.
  - apply Hup. reflexivity.
  - apply Hsw.
Defined.

(** * Further properties *)

(** ** Uploads *)

(** X1.  [uploadDocument] always answers (no exception leaves it), and an
    upload that is not answered with 201 is answered with 400 or 500 and
    leaves the store, the registry, the trackers, the job queue and the
    trace exactly as they were. *)
Theorem X1_upload_rejection_atomic (W : World) (f : option File)
  (oid : jsstring) (s : State) :
  exists r,
    eval (uploadDocument W f oid) s = Return r
    /\ (statusCode r = 201
        \/ (exec (uploadDocument W f oid) s = s
            /\ (statusCode r = 400 \/ statusCode r = 500))).
Proof.
  unfold eval, exec.
  destruct (uploadDocument_outcome W f oid s)
    as [(code & b & -> & Hc)|(file & _ & _ & _ & _ & ->)].
  - eexists. split; [reflexivity|]. right. by split.
  - eexists. split; [reflexivity|]. by left.
Qed.

(** X2.  An upload answered with 201 had a file with a supported
    extension, at most 10 MiB and a name that is not blank; it has saved
    one record under the new id (status [pending], no text, no tables, no
    error message), appended one tracker in status [processing] with
    progress 0 and registered it under the id, queued exactly one job for
    that id on that tracker, and scheduled no timer. *)
Theorem X2_upload_accepted (W : World) (f : option File) (oid : jsstring)
  (s : State) (r : Response) :
  eval (uploadDocument W f oid) s = Return r ->
  statusCode r = 201 ->
  exists file,
    f = Some file
    /\ fileExt_of W file ∈ allowedTypes
    /\ size file <= 10485760
    /\ trim (originalname file) <> []
    /\ body r = UploadedBody oid (originalname file) (fileExt_of W file) pending
    /\ exec (uploadDocument W f oid) s = uploaded_state W file oid s
    /\ documents (exec (uploadDocument W f oid) s) !! oid
       = Some (uploaded_record W file (clock s))
    /\ activeProgress (exec (uploadDocument W f oid) s) !! oid
       = Some (length (heap s))
    /\ heap (exec (uploadDocument W f oid) s) !! length (heap s)
       = Some (uploaded_tracker oid (clock s))
    /\ status (uploaded_tracker oid (clock s)) = processing
    /\ progress (uploaded_tracker oid (clock s)) = 0.
Proof.
  unfold eval, exec. intros Hr Hc.
  destruct (uploadDocument_outcome W f oid s)
    as [(code & b & Hrun & Hcode)|(file & Hf & Hext & Hsz & Hname & Hrun)];
    rewrite Hrun in Hr |- *; cbn [fst snd] in *; injection Hr as <-.
  - cbn in Hc. lia.
  - exists file. repeat split; try done.
    + cbn. apply lookup_insert_eq.
    + cbn. apply lookup_insert_eq.
    + cbn. apply lookup_fresh.
Qed.

Lemma X2_upload_accepted_witness :
  exec demo_upload initial_state
  = uploaded_state demo_world (demo_file "Notes.TXT" "notes.txt") (js "id1")
      initial_state.
Proof.
  destruct (X2_upload_accepted demo_world
              (Some (demo_file "Notes.TXT" "notes.txt")) (js "id1")
              initial_state
              {| statusCode := 201;
                 body := UploadedBody (js "id1") (js "Notes.TXT") (js "txt")
                           pending |}
              eq_refl eq_refl)
    as (file & Hf & _ & _ & _ & _ & Hs & _).
  injection Hf as <-. exact Hs.
Defined.

Lemma dropWhile_nil {A} (p : A -> bool) (l : list A) :
  dropWhile p l = [] -> Forall (fun x => p x = true) l.
Proof.
  induction l as [|x l IH]; simpl; [constructor|].
  destruct (p x) eqn:Hx; [|discriminate]. intros H. constructor; auto.
Qed.

Lemma trim_nil_spaces (s : jsstring) :
  trim s = [] -> Forall (fun c => is_space c = true) s.
Proof.
  unfold trim. intros H.
  apply (f_equal (@rev N)) in H. rewrite rev_involutive in H. simpl in H.
  apply dropWhile_nil in H.
  destruct (dropWhile is_space s) as [|x a] eqn:Ha.
  - by apply dropWhile_nil.
  - exfalso. apply dropWhile_head in Ha.
    rewrite Forall_forall in H. specialize (H x).
    rewrite H in Ha; [discriminate|].
    apply list_elem_of_In, in_rev. rewrite rev_involutive. by left.
Qed.

Lemma blank_name_unsupported (W : World) (file : File) :
  extname_within_name W -> lower_keeps_space W ->
  trim (originalname file) = [] ->
  fileExt_of W file ∉ allowedTypes.
Proof.
  intros Hsuf Hlow Hblank Hin.
  apply trim_nil_spaces in Hblank.
  destruct (Hsuf (originalname file)) as (p & q & Hp).
  rewrite Hp in Hblank. apply Forall_app in Hblank as [_ Hext].
  apply Forall_app in Hext as [Hext _].
  unfold fileExt_of in Hin. rewrite (Hlow _ Hext) in Hin.
  assert (Forall (fun c => is_space c = true)
            (drop 1 (path_extname W (originalname file)))) as Hd
    by (by apply Forall_drop).
  unfold allowedTypes in Hin.
  repeat (apply elem_of_cons in Hin as [Hin|Hin];
          [rewrite Hin in Hd; vm_compute in Hd;
           apply Forall_cons in Hd as [Hd _]; discriminate|]).
  by apply elem_of_nil in Hin.
Qed.

(** X3.  The answer INVALID_FILE_NAME is never given: a name that is empty
    or blank has an extension outside the supported set, so the check of
    the file type, which comes first, has already answered.  (Given that
    the extension [path.extname] returns is a piece of the name and that
    [toLowerCase] leaves white space as it is.) *)
Theorem X3_invalid_file_name_unreachable (W : World) (f : option File)
  (oid : jsstring) (s : State) :
  extname_within_name W ->
  lower_keeps_space W ->
  (body <$> returned (eval (uploadDocument W f oid) s))
  <> Some invalid_file_name.
Proof.
  intros Hsuf Hlow. unfold eval, uploadDocument, try_catch.
  destruct f as [file|]; [|vm_compute; discriminate].
  destruct (bool_decide_reflect (fileExt_of W file ∈ allowedTypes))
    as [Hext|_]; cbn [negb]; [|vm_compute; discriminate].
  destruct (maxSize <? size file); [vm_compute; discriminate|].
  destruct (jsstring_eqb (originalname file) []
            || (len (trim (originalname file)) =? 0)) eqn:Hname.
  { exfalso. apply (blank_name_unsupported W file Hsuf Hlow); [|done].
    apply orb_true_iff in Hname as [Hname|Hname].
    - apply jsstring_eqb_eq in Hname. by rewrite Hname.
    - apply Z.eqb_eq in Hname. unfold len in Hname.
      destruct (trim (originalname file)); [done|simpl in Hname; lia]. }
  rewrite bind_run. unfold Date_now, gets.
  rewrite bind_run. unfold Document_save.
  destruct (schema_valid _); [|vm_compute; discriminate].
  rewrite bind_run. unfold tell, modify. rewrite bind_run.
  rewrite createProgressTracker_run.
  rewrite bind_run. erewrite setStatus_run by apply lookup_fresh.
  rewrite bind_run. unfold json, mret, M_ret. cbn. discriminate.
Qed.

Lemma last_dot_suffix_suffix (s r : jsstring) :
  last_dot_suffix s = Some r -> exists p, s = p ++ r.
Proof.
  revert r. induction s as [|c s IH]; intros r; simpl; [discriminate|].
  destruct (last_dot_suffix s) as [r'|].
  - intros [= <-]. destruct (IH r' eq_refl) as [p ->]. by exists (c :: p).
  - destruct (c =? 46)%N; [|discriminate]. intros [= <-]. by exists [].
Qed.

Lemma demo_extname_within_name : extname_within_name demo_world.
Proof.
  intros name. cbn. unfold plain_extname. destruct name as [|c s].
  - by exists [], [].
  - destruct (last_dot_suffix s) as [r|] eqn:Hr; cbn.
    + destruct (last_dot_suffix_suffix s r Hr) as [p ->].
      exists (c :: p), []. by rewrite app_nil_r.
    + exists (c :: s), []. by rewrite app_nil_r.
Qed.

Lemma demo_lower_keeps_space : lower_keeps_space demo_world.
Proof.
  intros x Hx. cbn. unfold ascii_lower.
  induction Hx as [|c x Hc _ IH]; [reflexivity|]. cbn [List.map].
  rewrite IH. f_equal.
  destruct ((65 <=? c) && (c <=? 90))%N eqn:Hr; [|reflexivity].
  exfalso. apply andb_true_iff in Hr as [H1 H2].
  apply N.leb_le in H1, H2. unfold is_space in Hc.
  repeat (apply orb_true_iff in Hc as [Hc|Hc]);
    repeat match goal with
    | H : (_ && _)%bool = true |- _ => apply andb_true_iff in H as [? ?]
    | H : (_ <=? _)%N = true |- _ => apply N.leb_le in H
    | H : (_ =? _)%N = true |- _ => apply N.eqb_eq in H
    end; lia.
Qed.

Lemma X3_invalid_file_name_unreachable_witness :
  (body <$> returned (eval (uploadDocument demo_world (Some blank_file)
                              (js "id3")) initial_state))
  <> Some invalid_file_name.
Proof.
  apply (X3_invalid_file_name_unreachable demo_world (Some blank_file)
           (js "id3") initial_state
           demo_extname_within_name demo_lower_keeps_space).
Defined.

(** ** What a run leaves alone *)

Lemma job_frame_refl l id s : job_frame l id s s.
Proof.
  repeat split; try done. exists []. by rewrite app_nil_r.
Qed.

Lemma job_frame_trans l id s1 s2 s3 :
  job_frame l id s1 s2 -> job_frame l id s2 s3 -> job_frame l id s1 s3.
Proof.
  intros (Ha & Hb & Hc & Hd & He & Hf & Hg & Hh & tr1 & Hi)
         (Ha' & Hb' & Hc' & Hd' & He' & Hf' & Hg' & Hh' & tr2 & Hi').
  split; [congruence|]. split; [congruence|]. split; [congruence|].
  split; [congruence|]. split; [congruence|].
  split. { intros l' Hl. rewrite Hf', Hf; done. }
  split. { intros id' Hid. rewrite Hg', Hg; done. }
  split. { intros id'. rewrite Hh'. apply Hh. }
  exists (tr1 ++ tr2). by rewrite Hi', Hi, app_assoc.
Qed.

Lemma frames_ret {A} l id (a : A) : frames l id (mret a).
Proof. intros s. apply job_frame_refl. Qed.

Lemma frames_throw {A} l id e : frames l id (@throw A e).
Proof. intros s. apply job_frame_refl. Qed.

Lemma frames_gets {A} l id (f : State -> A) : frames l id (gets f).
Proof. intros s. apply job_frame_refl. Qed.

Lemma frames_lift {A} l id (o : Outcome A) : frames l id (lift o).
Proof. intros s. apply job_frame_refl. Qed.

Lemma frames_bind {A B} l id (c : M A) (f : A -> M B) :
  frames l id c -> (forall a, frames l id (f a)) -> frames l id (c ≫= f).
Proof.
  intros Hc Hf s. rewrite bind_run. specialize (Hc s).
  destruct (c s) as [[a|e] s']; cbn [snd] in *; [|done].
  eapply job_frame_trans; [exact Hc | apply Hf].
Qed.

Lemma frames_try_catch {A} l id (c : M A) (h : Exn -> M A) :
  frames l id c -> (forall e, frames l id (h e)) -> frames l id (try_catch c h).
Proof.
  intros Hc Hh s. unfold try_catch. specialize (Hc s).
  destruct (c s) as [[a|e] s']; cbn [snd] in *; [done|].
  eapply job_frame_trans; [exact Hc | apply Hh].
Qed.

Lemma frames_tell l id e : frames l id (tell e).
Proof.
  intros s. repeat split; try done. by exists [e].
Qed.

Lemma frames_readTracker l id l0 : frames l id (readTracker l0).
Proof.
  intros s. unfold readTracker.
  destruct (heap s !! l0); apply job_frame_refl.
Qed.

Lemma frames_writeTracker l id t : frames l id (writeTracker l t).
Proof.
  intros s. cbn. repeat split; try done.
  - apply length_insert.
  - intros l' Hl. by apply list_lookup_insert_ne.
  - exists []. by rewrite app_nil_r.
Qed.

Lemma frames_findByIdAndUpdate l id w :
  frames l id (Document_findByIdAndUpdate id w).
Proof.
  intros s. rewrite Document_findByIdAndUpdate_run. cbn [snd].
  unfold job_frame. norm. repeat split; try done.
  - intros id' Hid. by apply lookup_alter_ne.
  - intros [d Hd]. destruct (decide (id = id')) as [->|Hne].
    + rewrite lookup_alter_eq in Hd. destruct (documents s !! id'); [eauto|done].
    + rewrite lookup_alter_ne in Hd by done. eauto.
  - intros [d Hd]. destruct (decide (id = id')) as [->|Hne].
    + rewrite lookup_alter_eq, Hd. eauto.
    + rewrite lookup_alter_ne by done. eauto.
  - by exists [DbUpdate id w].
Qed.

Section Frames.

Variable W : World.

Lemma frames_emit l id e : frames l id (emit W l e).
Proof.
  apply frames_bind; [apply frames_readTracker|]. intros t.
  destruct e; try apply frames_tell.
  destruct (errorListeners t =? 0)%nat; [apply frames_throw | apply frames_tell].
Qed.

Lemma frames_updateProgress l id p step : frames l id (updateProgress W l p step).
Proof.
  apply frames_bind; [apply frames_readTracker|]. intros t.
  apply frames_bind; [apply frames_writeTracker|]. intros _.
  apply frames_bind; [apply frames_gets|]. intros now.
  apply frames_emit.
Qed.

Lemma frames_setStatus l id st step : frames l id (setStatus W l st step).
Proof.
  apply frames_bind; [apply frames_readTracker|]. intros t.
  apply frames_bind; [apply frames_writeTracker|]. intros _.
  apply frames_bind; [apply frames_gets|]. intros now.
  apply frames_emit.
Qed.

Lemma frames_dispatch l id tag path : frames l id (dispatch W tag path l).
Proof.
  unfold dispatch.
  repeat match goal with
  | |- context [if ?b then _ else _] => destruct b
  end.
  - intros s. rewrite extractPDFText_run. apply (frames_tell l id).
  - intros s. rewrite extractDOCXText_run. apply (frames_tell l id).
  - intros s. rewrite extractExcelData_run. apply (frames_tell l id).
  - intros s. rewrite extractTXTText_run. apply (frames_tell l id).
  - apply frames_bind; [apply frames_updateProgress|]. intros _ s.
    rewrite extractOCRText_run. apply (frames_tell l id).
  - apply frames_throw.
Qed.

(** The [try ... catch] of [processDocument], before the [finally]. *)
Lemma frames_processDocument_body l id path tag :
  frames l id
    (try_catch
       (_ ← Document_findByIdAndUpdate id WriteProcessing;
        updateProgress W l 10 (js "Reading file") ;;
        updateProgress W l 30
          (js "Processing " ++ toUpperCase W tag ++ js " file") ;;
        extractedData ← dispatch W tag path l;
        updateProgress W l 80 (js "Saving extracted data") ;;
        now ← Date_now;
        _ ← Document_findByIdAndUpdate id (WriteCompleted extractedData now);
        complete W l)
       (fun error =>
          fail W l error ;;
          _ ← Document_findByIdAndUpdate id (WriteFailed (message error));
          mret tt)).
Proof.
  apply frames_try_catch.
  - apply frames_bind; [apply frames_findByIdAndUpdate|]. intros _.
    apply frames_bind; [apply frames_updateProgress|]. intros _.
    apply frames_bind; [apply frames_updateProgress|]. intros _.
    apply frames_bind; [apply frames_dispatch|]. intros r.
    apply frames_bind; [apply frames_updateProgress|]. intros _.
    apply frames_bind; [apply frames_gets|]. intros now.
    apply frames_bind; [apply frames_findByIdAndUpdate|]. intros _.
    apply frames_bind; [apply frames_setStatus|]. intros _.
    apply frames_updateProgress.
  - intros e. apply frames_bind.
    { apply frames_bind; [apply frames_setStatus|]. intros _.
      apply frames_bind; [apply frames_readTracker|]. intros t.
      apply frames_bind; [apply frames_gets|]. intros now.
      apply frames_emit. }
    intros _.
    apply frames_bind; [apply frames_findByIdAndUpdate|]. intros _.
    apply frames_ret.
Qed.

Lemma processDocument_other_records id path tag l s id' :
  id' <> id ->
  documents (exec (processDocument W id path tag l) s) !! id'
  = documents s !! id'.
Proof.
  intros Hne. unfold exec, processDocument, try_finally.
  pose proof (frames_processDocument_body l id path tag s) as Hf.
  destruct (try_catch _ _ s) as [o s1]. cbn [snd] in Hf.
  destruct Hf as (_ & _ & _ & _ & _ & _ & Hh & _).
  cbn. by apply Hh.
Qed.

Lemma processDocument_same_ids id path tag l s id' :
  is_Some (documents (exec (processDocument W id path tag l) s) !! id')
  <-> is_Some (documents s !! id').
Proof.
  unfold exec, processDocument, try_finally.
  pose proof (frames_processDocument_body l id path tag s) as Hf.
  destruct (try_catch _ _ s) as [o s1]. cbn [snd] in Hf.
  destruct Hf as (_ & _ & _ & _ & _ & _ & _ & Hi & _).
  cbn. apply Hi.
Qed.

(** X5.  A run of [processDocument], however it ends and whatever state
    and tracker reference it is given, touches only its own tracker and
    its own record: the registry, the job queue and the clock are the
    same afterwards, every other tracker object and every other record is
    the same, and no record is created or deleted (a job whose record is
    gone does not bring it back). *)
Theorem X5_processDocument_frame (id path tag : jsstring) (l : nat)
  (s : State) :
  activeProgress (exec (processDocument W id path tag l) s) = activeProgress s
  /\ spawned (exec (processDocument W id path tag l) s) = spawned s
  /\ clock (exec (processDocument W id path tag l) s) = clock s
  /\ length (heap (exec (processDocument W id path tag l) s)) = length (heap s)
  /\ (forall l', l' <> l ->
        heap (exec (processDocument W id path tag l) s) !! l' = heap s !! l')
  /\ (forall id', id' <> id ->
        documents (exec (processDocument W id path tag l) s) !! id'
        = documents s !! id')
  /\ (forall id',
        is_Some (documents (exec (processDocument W id path tag l) s) !! id')
        <-> is_Some (documents s !! id')).
Proof.
  unfold exec, processDocument, try_finally.
  pose proof (frames_processDocument_body l id path tag s) as Hf.
  destruct (try_catch _ _ s) as [o s1]. cbn [snd] in Hf.
  destruct Hf as (Ha & Hb & Hc & Hd & He & Hg & Hh & Hi & _).
  cbn. repeat split; try done; apply Hi.
Qed.

(** X6.  Every run of [processDocument] schedules exactly one cleanup of
    its tracker, 300000 ms (5 minutes) ahead, as its last effect: after a
    parser result, after a parser error, and also when the tracker
    reference is not valid. *)
Theorem X6_cleanup_always_scheduled (id path tag : jsstring) (l : nat)
  (s : State) :
  timers (exec (processDocument W id path tag l) s)
  = timers s ++ [(300000, id)]
  /\ last (trace (exec (processDocument W id path tag l) s))
     = Some (SetTimeout 300000 id).
Proof.
  unfold exec, processDocument, try_finally.
  pose proof (frames_processDocument_body l id path tag s) as Hf.
  destruct (try_catch _ _ s) as [o s1]. cbn [snd] in Hf.
  destruct Hf as (_ & _ & Ht & _).
  rewrite bind_run. unfold tell, modify. norm. cbn [snd timers trace].
  rewrite Ht. split; [reflexivity|]. apply last_snoc.
Qed.

End Frames.
(** ** The registry *)

(** X4.  The registry's operations round-trip: after
    [createProgressTracker id] a lookup of [id] gives the tracker that was
    returned, and after [removeProgressTracker id] it gives none; neither
    changes what any other id maps to, nor any tracker object that exists
    (removal leaves the object itself alone, so a holder of the reference
    can go on updating it); a second create for the same id replaces the
    entry by the newer tracker. *)
Theorem X4_registry_round_trip (id id' : jsstring) (s : State) :
  id' <> id ->
  let s1 := exec (createProgressTracker id) s in
  let s2 := exec (removeProgressTracker id) s1 in
  let s3 := exec (createProgressTracker id) s1 in
  eval (getProgressTracker id) s1 = Return (returned (eval (createProgressTracker id) s))
  /\ eval (getProgressTracker id') s1 = eval (getProgressTracker id') s
  /\ (forall l t, heap s !! l = Some t -> heap s1 !! l = Some t)
  /\ eval (getProgressTracker id) s2 = Return None
  /\ eval (getProgressTracker id') s2 = eval (getProgressTracker id') s
  /\ heap s2 = heap s1
  /\ eval (getProgressTracker id) s3 = Return (Some (S (length (heap s))))
  /\ heap s3 !! length (heap s) = Some (new_ProgressTracker id (clock s))
  /\ heap s3 !! S (length (heap s)) = Some (new_ProgressTracker id (clock s)).
Proof.
  intros Hne s1 s2 s3. subst s1 s2 s3.
  unfold eval, exec. rewrite !createProgressTracker_run. cbn [fst snd].
  unfold getProgressTracker, removeProgressTracker, gets, modify.
  cbn [fst snd]. norm.
  split. { by rewrite lookup_insert_eq. }
  split. { by rewrite lookup_insert_ne. }
  split. { intros l t Hl. by apply lookup_app_l_Some. }
  split. { by rewrite lookup_delete_eq. }
  split. { by rewrite lookup_delete_ne, lookup_insert_ne. }
  split; [reflexivity|].
  rewrite length_app. cbn [length].
  replace (length (heap s) + 1)%nat with (S (length (heap s))) by lia.
  split. { by rewrite lookup_insert_eq. }
  split.
  - rewrite lookup_app_l by (rewrite length_app; simpl; lia).
    apply lookup_fresh.
  - replace (S (length (heap s)))
      with (length (heap s ++ [new_ProgressTracker id (clock s)]))
      by (rewrite length_app; simpl; lia).
    apply lookup_fresh.
Qed.

Lemma X4_registry_round_trip_witness :
  eval (getProgressTracker (js "id1"))
    (exec (removeProgressTracker (js "id1"))
       (exec (createProgressTracker (js "id1")) initial_state))
  = Return None.
Proof.
  apply (X4_registry_round_trip (js "id1") (js "id2") initial_state).
  vm_compute. discriminate.
Defined.


(** ** From the upload to the stored result *)

Lemma getDocumentProgress_tracker id l t s :
  activeProgress s !! id = Some l ->
  heap s !! l = Some t ->
  getDocumentProgress id s
  = (Return (progress_reply id (status t) (progress t) (currentStep t)
               (clock s - startTime t)), s).
Proof.
  intros Hreg Hl. unfold getDocumentProgress, try_catch.
  rewrite bind_run. unfold getProgressTracker, gets. rewrite Hreg.
  rewrite bind_run, (readTracker_run _ _ _ Hl). reflexivity.
Qed.

Lemma getDocumentProgress_record id d s :
  activeProgress s !! id = None ->
  documents s !! id = Some d ->
  getDocumentProgress id s
  = (Return (progress_reply id (processingStatus d)
               (if bool_decide (processingStatus d = completed) then 100 else 0)
               (status_string (processingStatus d)) 0), s).
Proof.
  intros Hreg Hdoc. unfold getDocumentProgress, try_catch.
  rewrite bind_run. unfold getProgressTracker, gets. rewrite Hreg.
  rewrite bind_run. unfold Document_findById, gets. rewrite Hdoc.
  reflexivity.
Qed.




(** ** Records whose job has run *)

(** X8.  A completed record is final: no later step of the system
    (upload, run of a job, progress query, cleanup timer, passing time)
    changes a record whose status is [completed]. *)
Theorem X8_completed_record_final (W : World) (s s' : State)
  (id : jsstring) (d : Document) :
  reachable W s ->
  step W s s' ->
  documents s !! id = Some d ->
  processingStatus d = completed ->
  documents s' !! id = Some d.
Proof.
  intros Hreach Hstep Hd Hp.
  destruct (reachable_store_invariant W s Hreach) as (_ & Hjobs & _).
  destruct Hstep as [f oid s Hfree|j q1 q2 s Hq|id0 s|dl id0 t1 t2 s Ht|dt s Hdt].
  - unfold exec.
    destruct (uploadDocument_outcome W f oid s)
      as [(code & b & -> & _)|(file & _ & _ & _ & _ & ->)]; cbn [snd].
    + exact Hd.
    + cbn. rewrite lookup_insert_ne; [exact Hd|]. intros <-. congruence.
  - assert (j ∈ spawned s) as Hj.
    { rewrite Hq. apply elem_of_app. right. apply elem_of_cons. by left. }
    destruct (Hjobs j Hj) as ((d0 & Hd0 & Hfresh & _) & _).
    unfold run_job. rewrite processDocument_other_records; [exact Hd|].
    intros ->. rewrite Hd in Hd0. injection Hd0 as <-. congruence.
  - by rewrite getDocumentProgress_pure.
  - exact Hd.
  - exact Hd.
Qed.

Lemma s_notes_processed_reachable : reachable demo_world s_notes_processed.
Proof.
  apply (reach_step demo_world s_uploaded); [exact s_uploaded_reachable|].
  apply (step_job demo_world notes_job [] [] s_uploaded). reflexivity.
Defined.

Lemma X8_completed_record_final_witness :
  documents (advance 1000 s_notes_processed) !! js "id1" = Some d_notes_done.
Proof.
  apply (X8_completed_record_final demo_world s_notes_processed
           (advance 1000 s_notes_processed) (js "id1") d_notes_done
           s_notes_processed_reachable).
  - apply step_time. lia.
  - vm_compute. reflexivity.
  - reflexivity.
Defined.



(** ** Reading and deleting documents *)

Lemma getDocumentById_run id s :
  getDocumentById id s
  = (Return (if is_objectId id
             then match documents s !! id with
                  | Some d => {| doc_status := 200; doc_body := DocFound d |}
                  | None => not_found
                  end
             else {| doc_status := 400;
                     doc_body := DocError (js "Invalid document ID")
                                   (js "INVALID_DOCUMENT_ID") |}), s).
Proof.
  unfold getDocumentById, try_catch. destruct (is_objectId id); cbn [negb].
  - rewrite bind_run. unfold Document_findById, gets.
    destruct (documents s !! id); reflexivity.
  - reflexivity.
Qed.

(** X9.  What was uploaded can be read back: after an accepted upload
    under a well-formed id, [getDocumentById] answers 200 with the record
    as saved (status [pending], the upload's names, path, extension and
    size, nothing extracted), and reading changes nothing. *)
Theorem X9_upload_then_get (W : World) (file : File) (oid : jsstring)
  (s : State) (r : Response) :
  is_objectId oid = true ->
  eval (uploadDocument W (Some file) oid) s = Return r ->
  statusCode r = 201 ->
  getDocumentById oid (exec (uploadDocument W (Some file) oid) s)
  = (Return {| doc_status := 200;
               doc_body := DocFound (uploaded_record W file (clock s)) |},
     exec (uploadDocument W (Some file) oid) s).
Proof.
  intros Hid Hr Hc. unfold eval, exec in *.
  destruct (uploadDocument_outcome W (Some file) oid s)
    as [(code & b & Hrun & Hcode)|(file' & Hf & _ & _ & _ & Hrun)];
    rewrite Hrun in Hr |- *; cbn [fst snd] in *.
  { injection Hr as <-. cbn in Hc. lia. }
  injection Hf as <-. rewrite getDocumentById_run, Hid.
  cbn [documents uploaded_state]. by rewrite lookup_insert_eq.
Qed.

Lemma X9_upload_then_get_witness :
  getDocumentById demo_oid s_demo_oid
  = (Return {| doc_status := 200;
               doc_body := DocFound (uploaded_record demo_world
                                       (demo_file "Notes.TXT" "notes.txt") 0) |},
     s_demo_oid).
Proof.
  apply (X9_upload_then_get demo_world (demo_file "Notes.TXT" "notes.txt")
           demo_oid initial_state
           {| statusCode := 201;
              body := UploadedBody demo_oid (js "Notes.TXT") (js "txt")
                        pending |}
           eq_refl eq_refl eq_refl).
Defined.

Lemma deleteDocument_run unlink id d s :
  is_objectId id = true ->
  documents s !! id = Some d ->
  deleteDocument unlink id s
  = (Return {| doc_status := 200;
               doc_body := DocDeleted id (originalName d) (fileType d) |},
     set_documents (fun m => delete id m) s).
Proof.
  intros Hid Hd. unfold deleteDocument. unfold try_catch at 1.
  rewrite Hid. cbn [negb].
  rewrite bind_run. unfold Document_findById, gets. rewrite Hd.
  rewrite bind_run. unfold try_catch, lift.
  destruct (unlink (filePath d)) as [[]|e]; reflexivity.
Qed.

(** X10.  Deleting a document that exists answers 200 whether or not the
    file could be removed from disk, and removes exactly that record:
    reading or deleting it again answers 404 and every other record is
    untouched.  The deletion does not reach the processing side: the
    document's tracker stays in the registry (the progress query answers
    from it as before), its job stays in the queue, and when that job
    runs later it does not bring the record back. *)
Theorem X10_delete_document (W : World) (unlink : jsstring -> Outcome unit)
  (id : jsstring) (d : Document) (s : State) :
  is_objectId id = true ->
  documents s !! id = Some d ->
  let s' := exec (deleteDocument unlink id) s in
  eval (deleteDocument unlink id) s
  = Return {| doc_status := 200;
              doc_body := DocDeleted id (originalName d) (fileType d) |}
  /\ documents s' !! id = None
  /\ (forall id', id' <> id -> documents s' !! id' = documents s !! id')
  /\ activeProgress s' = activeProgress s
  /\ heap s' = heap s
  /\ spawned s' = spawned s
  /\ eval (getDocumentById id) s' = Return not_found
  /\ eval (deleteDocument unlink id) s' = Return not_found
  /\ (forall l, activeProgress s !! id = Some l ->
        eval (getDocumentProgress id) s' = eval (getDocumentProgress id) s)
  /\ (forall path tag l,
        documents (exec (processDocument W id path tag l) s') !! id = None).
Proof.
  intros Hid Hd s'. subst s'. unfold eval, exec.
  rewrite (deleteDocument_run unlink id d s Hid Hd). cbn [fst snd]. norm.
  split; [reflexivity|]. split; [apply lookup_delete_eq|].
  split. { intros id' Hne. by apply lookup_delete_ne. }
  split; [reflexivity|]. split; [reflexivity|]. split; [reflexivity|].
  split. { rewrite getDocumentById_run, Hid. cbn. by rewrite lookup_delete_eq. }
  split.
  { unfold deleteDocument, try_catch. rewrite Hid. cbn [negb].
    rewrite bind_run. unfold Document_findById, gets. cbn [documents].
    by rewrite lookup_delete_eq. }
  split.
  - intros l Hreg. unfold getDocumentProgress, try_catch.
    rewrite !bind_run. unfold getProgressTracker, gets. cbn [activeProgress].
    rewrite Hreg. rewrite !bind_run. unfold readTracker. cbn [heap].
    destruct (heap s !! l); reflexivity.
  - intros path tag l.
    apply eq_None_not_Some. intros Hs.
    apply (processDocument_same_ids W) in Hs. cbn [documents] in Hs.
    rewrite lookup_delete_eq in Hs. by destruct Hs.
Qed.

Lemma X10_delete_document_witness :
  documents (exec (deleteDocument (fun _ => Throw ENOENT) demo_oid) s_demo_oid)
    !! demo_oid = None.
Proof.
  apply (X10_delete_document demo_world (fun _ => Throw ENOENT) demo_oid
           (uploaded_record demo_world (demo_file "Notes.TXT" "notes.txt") 0)
           s_demo_oid); reflexivity.
Defined.


(** ** More on the parsers *)

Lemma extractor_run W x path s :
  run_extractor W x path s = (extractor_outcome W x path, log (Invoke x path) s).
Proof.
  destruct x; cbn [run_extractor extractor_outcome].
  - apply extractPDFText_run.
  - apply extractDOCXText_run.
  - apply extractExcelData_run.
  - apply extractTXTText_run.
  - apply extractOCRText_run.
Qed.

(** X11.  A parser fails exactly when one of the engine calls in its
    [try] fails, and then it throws a plain [Error] whose message is its
    own prefix ("Failed to extract TXT content: ", ...) followed by the
    message of that engine error; otherwise it returns a result.  Either
    way all it leaves in the state is the mark of its call. *)
Theorem X11_parser_failure (W : World) (x : Extractor) (path : jsstring)
  (s : State) :
  match engine_failure W x path with
  | Some e0 =>
      eval (run_extractor W x path) s
      = Throw (Error (failure_prefix x ++ message e0))
  | None => exists r, eval (run_extractor W x path) s = Return r
  end
  /\ exec (run_extractor W x path) s = log (Invoke x path) s.
Proof.
  unfold eval, exec. rewrite extractor_run. cbn [fst snd].
  split; [|reflexivity].
  destruct x; cbn [engine_failure extractor_outcome failure_prefix].
  - unfold pdf_outcome, pdf_engine.
    destruct (fs_readFileSync W path) as [bytes|e]; cbn; [|reflexivity].
    destruct (PDFParse_load W bytes) as [doc|e]; cbn; [|reflexivity].
    destruct (getText doc) as [t|e]; cbn; [|reflexivity]. by eexists.
  - unfold docx_outcome.
    destruct (mammoth_extractRawText W path) as [r|e]; cbn; [|reflexivity].
    by eexists.
  - unfold excel_outcome.
    destruct (XLSX_readFile W path) as [wb|e]; cbn; [|reflexivity].
    by eexists.
  - unfold txt_outcome.
    destruct (fs_readFileSync W path) as [bytes|e]; cbn; [|reflexivity].
    by eexists.
  - unfold ocr_outcome.
    destruct (fs_readFileSync W path) as [bytes|e]; cbn; [|reflexivity].
    destruct (Tesseract_recognize W bytes) as [r|e]; cbn; [|reflexivity].
    by eexists.
Qed.

Lemma dropWhile_id {A} (p : A -> bool) (l : list A) :
  (forall x, head l = Some x -> p x = false) -> dropWhile p l = l.
Proof.
  destruct l as [|x l]; [reflexivity|]. intros H. simpl.
  by rewrite (H x eq_refl).
Qed.

Lemma trim_idempotent (s : jsstring) : trim (trim s) = trim s.
Proof.
  unfold trim.
  set (a := dropWhile is_space s).
  set (b := dropWhile is_space (rev a)).
  assert (forall x, head a = Some x -> is_space x = false) as Ha.
  { intros x Hx. subst a. destruct (dropWhile is_space s) as [|y a'] eqn:E;
      [discriminate|]. injection Hx as <-. by eapply dropWhile_head. }
  assert (forall x, head b = Some x -> is_space x = false) as Hb.
  { intros x Hx. subst b. destruct (dropWhile is_space (rev a)) as [|y b'] eqn:E;
      [discriminate|]. injection Hx as <-. by eapply dropWhile_head. }
  assert (forall x, head (rev b) = Some x -> is_space x = false) as Hrb.
  { intros x Hx. destruct b as [|y b'] eqn:Eb; [discriminate|].
    (* [b] is what is left of [rev a]: its last element is the head of [a] *)
    assert (exists p, rev a = p ++ y :: b') as [p Hp].
    { clear -Eb. subst b. revert Eb. generalize (rev a).
      induction l as [|z l IH]; simpl; [discriminate|].
      destruct (is_space z).
      - intros H. destruct (IH H) as [p ->]. by exists (z :: p).
      - intros [= -> ->]. by exists []. }
    apply Ha. apply (f_equal (@rev N)) in Hp.
    rewrite rev_involutive, rev_app_distr in Hp. rewrite Hp.
    destruct (rev (y :: b')) as [|w r] eqn:Er.
    { apply (f_equal (@length N)) in Er. rewrite length_rev in Er.
      discriminate. }
    cbn in Hx |- *. exact Hx. }
  rewrite (dropWhile_id _ (rev b) Hrb), rev_involutive.
  by rewrite (dropWhile_id _ b Hb).
Qed.

(** X12.  The plain-text and the OCR parser never report a table, and
    the text the OCR parser and the spreadsheet parser report is trimmed:
    trimming it again changes nothing. *)
Theorem X12_no_tables_and_trimmed_text (W : World) (path : jsstring)
  (s : State) :
  on_success (fs_readFileSync W path) (eval (extractTXTText W path) s)
    (fun bytes r => tables r = [] /\ text r = utf8_decode W bytes)
  /\ on_success (fs_readFileSync W path ≫= Tesseract_recognize W)
       (eval (extractOCRText W path) s)
       (fun x r => tables r = [] /\ text r = trim (fst x)
                   /\ trim (text r) = text r)
  /\ on_success (XLSX_readFile W path) (eval (extractExcelData W path) s)
       (fun _ r => trim (text r) = text r).
Proof.
  split; [|split]; unfold eval.
  - rewrite extractTXTText_run. cbn [fst]. unfold txt_outcome.
    destruct (fs_readFileSync W path); cbn; [|reflexivity].
    eexists. split; [reflexivity|]. by split.
  - rewrite extractOCRText_run. cbn [fst]. unfold ocr_outcome.
    destruct (fs_readFileSync W path) as [b|]; cbn; [|reflexivity].
    destruct (Tesseract_recognize W b) as [[t c]|]; cbn; [|reflexivity].
    eexists. split; [reflexivity|]. cbn.
    split; [reflexivity|]. split; [reflexivity|]. apply trim_idempotent.
  - rewrite extractExcelData_run. cbn [fst]. unfold excel_outcome.
    destruct (XLSX_readFile W path); cbn; [|reflexivity].
    eexists. split; [reflexivity|]. cbn. apply trim_idempotent.
Qed.

Lemma pdf_table_shape (p : Z) (item : Z * option PdfTable) (t : Table) :
  In t (pdf_table p item) ->
  pageNumber t = p /\ tableIndex t = fst item /\ table_well_formed t.
Proof.
  unfold pdf_table. destruct (snd item) as [[[rs|]]|]; try (intros []).
  destruct (Z.ltb_spec 0 (len rs)) as [Hlt|]; [|intros []].
  intros [<-|[]]. unfold table_well_formed, mkTable, len in *.
  cbn [pageNumber tableIndex data structure rows columns].
  rewrite length_map. auto.
Qed.

Lemma indexed_index {A} (l : list A) (item : Z * A) :
  In item (indexed l) -> 0 <= fst item < len l.
Proof.
  destruct item as [i a]. unfold indexed. intros H.
  apply in_combine_l in H. apply list_elem_of_In, elem_of_seqZ in H.
  cbn. lia.
Qed.

Lemma pdf_page_shape (doc : PdfDoc) (p : Z) (t : Table) :
  In t (pdf_page doc p) ->
  pageNumber t = p
  /\ table_well_formed t
  /\ exists pageTables, getPageTables doc p = Return (Some pageTables)
                        /\ 0 <= tableIndex t < len pageTables.
Proof.
  unfold pdf_page.
  destruct (getPageTables doc p) as [[pts|]|e]; try (intros []).
  destruct (0 <? len pts); [|intros []].
  intros H. apply in_concat in H as (ts & Hts & Ht).
  apply in_map_iff in Hts as (item & <- & Hitem).
  apply pdf_table_shape in Ht as (Hp & Hi & Hw).
  split; [exact Hp|]. split; [exact Hw|].
  exists pts. split; [reflexivity|]. rewrite Hi. by apply indexed_index.
Qed.

(** X13.  Whenever the file can be read and the PDF engine loads it and
    gives its text, the PDF parser returns a result, whatever the table
    detector does on the pages: a page whose detector fails or answers
    nothing contributes no table.  The result carries the engine's text
    and page count, and each of its tables lies on a page of the document
    at an index of the list the detector answered for that page, has at
    least one row, and its [rows] and [columns] are the number of its
    rows and the length of its first row. *)
Theorem X13_pdf_tables (W : World) (path : jsstring) (s : State) :
  on_success (pdf_engine W path) (eval (extractPDFText W path) s)
    (fun x r =>
       text r = snd x
       /\ pageCount (metadata r) = numPages (fst x)
       /\ Forall (fun t => pdf_table_placed (fst x) t /\ table_well_formed t)
            (tables r)
       /\ (forall p e, getPageTables (fst x) p = Throw e ->
             Forall (fun t => pageNumber t <> p) (tables r))).
Proof.
  unfold eval. rewrite extractPDFText_run. cbn [fst].
  unfold pdf_outcome, pdf_engine.
  destruct (fs_readFileSync W path) as [bytes|e]; cbn; [|reflexivity].
  destruct (PDFParse_load W bytes) as [doc|e]; cbn; [|reflexivity].
  destruct (getText doc) as [t|e]; cbn; [|reflexivity].
  eexists. split; [reflexivity|]. cbn.
  split; [reflexivity|]. split; [reflexivity|].
  assert (forall tb, In tb (concat (List.map (pdf_page doc) (seqZ 1 (numPages doc)))) ->
            pdf_table_placed doc tb /\ table_well_formed tb) as Hall.
  { intros tb H. apply in_concat in H as (ts & Hts & Htb).
    apply in_map_iff in Hts as (p & <- & Hp).
    apply list_elem_of_In, elem_of_seqZ in Hp.
    apply pdf_page_shape in Htb as (Hpage & Hw & pts & Hpts & Hidx).
    split; [|exact Hw]. unfold pdf_table_placed. rewrite Hpage.
    split; [lia|]. by exists pts. }
  split.
  - apply List.Forall_forall. exact Hall.
  - intros p e Hp. apply List.Forall_forall. intros tb Htb Heq.
    destruct (Hall tb Htb) as [(_ & pts & Hpts & _) _].
    rewrite Heq, Hp in Hpts. discriminate.
Qed.

Lemma split_no_tab (s : jsstring) : forall skip cur,
  ~ In TAB cur ->
  Forall (fun seg => ~ In TAB seg) (split_from re_tab_or_spaces2 skip cur s).
Proof.
  induction s as [|c s IH]; intros skip cur Hcur.
  - simpl. by constructor.
  - destruct skip as [|k]; cbn [split_from]; [|by apply IH].
    destruct (re_tab_or_spaces2 (c :: s)) as [[|k]|] eqn:Hm.
    + exfalso. unfold re_tab_or_spaces2 in Hm.
      destruct (c =? TAB)%N; [discriminate|].
      apply space_run_spaces in Hm as [Hle _]. lia.
    + constructor; [exact Hcur|]. apply IH. intros [].
    + apply IH. intros Hin. apply in_app_or in Hin as [Hin|[Hc|[]]]; [done|].
      unfold re_tab_or_spaces2 in Hm. rewrite Hc, N.eqb_refl in Hm.
      discriminate.
Qed.

Lemma split_re_no_tab (s : jsstring) :
  Forall (fun seg => ~ In TAB seg) (split_re re_tab_or_spaces2 s).
Proof.
  destruct s as [|c s].
  - cbn. constructor; [intros [] | constructor].
  - apply split_no_tab. intros [].
Qed.

Lemma dropWhile_all {A} (p : A -> bool) (l : list A) :
  Forall (fun x => p x = true) l -> dropWhile p l = [].
Proof.
  induction 1 as [|x l Hx _ IH]; simpl; [reflexivity|]. by rewrite Hx.
Qed.

Lemma nonspace_or_blank (s : jsstring) :
  has_nonspace s \/ Forall (fun c => is_space c = true) s.
Proof.
  induction s as [|c s [(x & Hin & Hx)|IH]].
  - right. constructor.
  - left. exists x. split; [by right | exact Hx].
  - destruct (is_space c) eqn:Hc.
    + right. by constructor.
    + left. exists c. split; [by left | exact Hc].
Qed.

Lemma trim_nonempty_nonspace (s : jsstring) :
  trim s <> [] -> has_nonspace s.
Proof.
  intros H. destruct (nonspace_or_blank s) as [Hs|Hs]; [exact Hs|].
  exfalso. apply H. unfold trim. by rewrite (dropWhile_all _ _ Hs).
Qed.

Lemma row_cells_text (line : jsstring) :
  Forall text_cell (List.map CStr (row_cells line)).
Proof.
  apply List.Forall_forall. intros c Hc.
  apply in_map_iff in Hc as (seg & <- & Hseg).
  unfold row_cells in Hseg. apply filter_In in Hseg as [Hin Hkeep].
  exists seg. split; [reflexivity|]. split.
  - apply trim_nonempty_nonspace. intros Ht. rewrite Ht in Hkeep.
    discriminate.
  - pose proof (split_re_no_tab line) as Hall.
    rewrite List.Forall_forall in Hall. by apply Hall.
Qed.

Lemma scan_line_rows (st : TableScan) (raw : jsstring) :
  Forall heuristic_row (currentTable st) ->
  Forall (fun t => Forall heuristic_row (data t)) (foundTables st) ->
  Forall heuristic_row (currentTable (scan_line st raw))
  /\ Forall (fun t => Forall heuristic_row (data t))
       (foundTables (scan_line st raw)).
Proof.
  intros Hcur Hfound. unfold scan_line.
  destruct (is_row_candidate (trim raw)).
  - destruct (Z.ltb_spec 1 (len (row_cells (trim raw)))) as [Hlt|];
      [|by split].
    cbn. split; [|exact Hfound].
    apply Forall_app. split; [exact Hcur|].
    constructor; [|constructor]. split; [|apply row_cells_text].
    unfold len in *. by rewrite length_map.
  - destruct (0 <? len (currentTable st)); [|by split].
    destruct (1 <? len (currentTable st)); cbn; (split; [constructor|]);
      [|exact Hfound].
    apply Forall_app. split; [exact Hfound|]. by constructor.
Qed.

Lemma detectTables_rows (lines : list jsstring) :
  Forall (fun t => Forall heuristic_row (data t)) (detectTables lines).
Proof.
  unfold detectTables.
  assert (forall st,
            Forall heuristic_row (currentTable st) ->
            Forall (fun t => Forall heuristic_row (data t)) (foundTables st) ->
            Forall (fun t => Forall heuristic_row (data t))
              (scan_flush (fold_left scan_line lines st))) as H.
  { induction lines as [|l ls IH]; intros st Hcur Hfound.
    - cbn [fold_left]. unfold scan_flush.
      destruct (1 <? len (currentTable st)); [|exact Hfound].
      apply Forall_app. split; [exact Hfound|]. by constructor.
    - cbn [fold_left].
      destruct (scan_line_rows st l Hcur Hfound) as [H1 H2]. by apply IH. }
  apply H; constructor.
Qed.

(** X14.  In every table the heuristic of the word-processor parser
    finds, each row has at least two cells, and each cell is a string
    that holds a code unit other than white space and no tab; the
    tables of a result of [extractDOCXText] are of this kind. *)
Theorem X14_heuristic_cells (W : World) (path : jsstring) (s : State) :
  (forall lines,
     Forall (fun t => Forall heuristic_row (data t)) (detectTables lines))
  /\ on_success (mammoth_extractRawText W path)
       (eval (extractDOCXText W path) s)
       (fun _ r => Forall (fun t => Forall heuristic_row (data t)) (tables r)).
Proof.
  split; [exact detectTables_rows|].
  unfold eval. rewrite extractDOCXText_run. cbn [fst]. unfold docx_outcome.
  destruct (mammoth_extractRawText W path) as [r|]; cbn; [|reflexivity].
  eexists. split; [reflexivity|]. cbn.
  rewrite <- detectTables_spec. apply detectTables_rows.
Qed.


(** ** Trackers over time *)

Lemma trackers_sane_same (s s' : State) :
  heap s' = heap s -> clock s' = clock s ->
  trackers_sane s -> trackers_sane s'.
Proof. unfold trackers_sane. intros -> ->. done. Qed.

Lemma trackers_sane_put l t' s :
  tracker_sane (clock s) t' ->
  trackers_sane s -> trackers_sane (put_tracker l t' s).
Proof.
  intros Ht H. unfold trackers_sane, put_tracker, set_heap.
  cbn [heap clock]. by apply Forall_insert.
Qed.

Lemma trackers_sane_lookup l t s :
  trackers_sane s -> heap s !! l = Some t -> tracker_sane (clock s) t.
Proof. intros H Hl. exact (Forall_lookup_1 _ _ _ _ H Hl). Qed.

Lemma sane_tell (e : Effect) : preserves trackers_sane (tell e).
Proof. apply preserves_modify. intros s. by apply trackers_sane_same. Qed.

Lemma sane_readTracker l : preserves trackers_sane (readTracker l).
Proof. intros s H. unfold readTracker. by destruct (heap s !! l). Qed.

Section Sane.

Variable W : World.

Lemma sane_emit l e : preserves trackers_sane (emit W l e).
Proof.
  apply preserves_bind; [apply sane_readTracker|]. intros t.
  destruct e; try apply sane_tell.
  destruct (errorListeners t =? 0)%nat;
    [apply preserves_throw | apply sane_tell].
Qed.

Lemma sane_updateProgress l p step :
  preserves trackers_sane (updateProgress W l p step).
Proof.
  intros s H. destruct (heap s !! l) as [t|] eqn:Hl.
  - rewrite (updateProgress_run W _ _ _ _ _ Hl). cbn [snd].
    eapply trackers_sane_same; [reflexivity | reflexivity |].
    apply trackers_sane_put; [|done].
    destruct (trackers_sane_lookup l t s H Hl) as [_ Hstart].
    split; [cbn; lia | exact Hstart].
  - unfold updateProgress. rewrite bind_run. unfold readTracker.
    by rewrite Hl.
Qed.

Lemma sane_setStatus l st step :
  preserves trackers_sane (setStatus W l st step).
Proof.
  intros s H. destruct (heap s !! l) as [t|] eqn:Hl.
  - rewrite (setStatus_run W _ _ _ _ _ Hl). cbn [snd].
    eapply trackers_sane_same; [reflexivity | reflexivity |].
    apply trackers_sane_put; [|done].
    exact (trackers_sane_lookup l t s H Hl).
  - unfold setStatus. rewrite bind_run. unfold readTracker.
    by rewrite Hl.
Qed.

Lemma sane_findByIdAndUpdate id w :
  preserves trackers_sane (Document_findByIdAndUpdate id w).
Proof. intros s H. by eapply trackers_sane_same. Qed.

Lemma sane_dispatch tag path l :
  preserves trackers_sane (dispatch W tag path l).
Proof.
  intros s H. unfold dispatch.
  repeat match goal with
  | |- context [if ?b then _ else _] => destruct b
  end.
  - rewrite extractPDFText_run. by eapply trackers_sane_same.
  - rewrite extractDOCXText_run. by eapply trackers_sane_same.
  - rewrite extractExcelData_run. by eapply trackers_sane_same.
  - rewrite extractTXTText_run. by eapply trackers_sane_same.
  - revert s H. apply preserves_bind; [apply sane_updateProgress|].
    intros _ s H. rewrite extractOCRText_run.
    by eapply trackers_sane_same.
  - exact H.
Qed.

Lemma sane_processDocument id path tag l :
  preserves trackers_sane (processDocument W id path tag l).
Proof.
  unfold processDocument. apply preserves_try_finally.
  - apply preserves_try_catch.
    + apply preserves_bind; [apply sane_findByIdAndUpdate|]. intros _.
      apply preserves_bind; [apply sane_updateProgress|]. intros _.
      apply preserves_bind; [apply sane_updateProgress|]. intros _.
      apply preserves_bind; [apply sane_dispatch|]. intros r.
      apply preserves_bind; [apply sane_updateProgress|]. intros _.
      apply preserves_bind; [apply preserves_gets|]. intros now.
      apply preserves_bind; [apply sane_findByIdAndUpdate|]. intros _.
      apply preserves_bind; [apply sane_setStatus|]. intros _.
      apply sane_updateProgress.
    + intros e.
      apply preserves_bind.
      { apply preserves_bind; [apply sane_setStatus|]. intros _.
        apply preserves_bind; [apply sane_readTracker|]. intros t.
        apply preserves_bind; [apply preserves_gets|]. intros now.
        apply sane_emit. }
      intros _.
      apply preserves_bind; [apply sane_findByIdAndUpdate|]. intros _.
      apply preserves_ret.
  - apply preserves_bind; [apply sane_tell|]. intros _.
    apply preserves_modify. intros s. by apply trackers_sane_same.
Qed.

Lemma sane_createProgressTracker id :
  preserves trackers_sane (createProgressTracker id).
Proof.
  intros s H. rewrite createProgressTracker_run. cbn [snd].
  unfold trackers_sane. norm. apply Forall_app. split; [exact H|].
  constructor; [|constructor]. split; cbn; lia.
Qed.

Lemma sane_uploadDocument f oid :
  preserves trackers_sane (uploadDocument W f oid).
Proof.
  unfold uploadDocument. apply preserves_try_catch;
    [|intros e; apply preserves_ret].
  destruct f as [file|]; [|apply preserves_ret].
  repeat match goal with
  | |- context [if ?b then _ else _] => destruct b; [apply preserves_ret|]
  end.
  apply preserves_bind; [apply preserves_gets|]. intros now.
  apply preserves_bind.
  { unfold Document_save. destruct (schema_valid _); [|apply preserves_throw].
    apply preserves_bind; [apply sane_tell|]. intros _.
    apply preserves_modify. intros s. by apply trackers_sane_same. }
  intros _.
  apply preserves_bind; [apply sane_createProgressTracker|]. intros l.
  apply preserves_bind; [apply sane_setStatus|]. intros _.
  apply preserves_bind; [|intros _; apply preserves_ret].
  apply preserves_modify. intros s. by apply trackers_sane_same.
Qed.

Lemma reachable_trackers_sane s : reachable W s -> trackers_sane s.
Proof.
  induction 1 as [|s s' _ IH Hstep].
  - constructor.
  - destruct Hstep; unfold exec.
    + by apply sane_uploadDocument.
    + unfold run_job. apply (sane_processDocument (job_id j)).
      by eapply trackers_sane_same.
    + pose proof (getDocumentProgress_pure id s) as Hp. unfold exec in Hp.
      by rewrite Hp.
    + unfold removeProgressTracker, modify. cbn [snd].
      by eapply trackers_sane_same.
    + unfold trackers_sane, advance. cbn [heap clock].
      eapply Forall_impl; [exact IH|]. intros t [Hp Hs]. split; [done | lia].
Qed.

End Sane.

(** X15.  In every state the system reaches, the progress query for an
    identifier that has a tracker or a record answers 200 (not the 500
    of its [catch]) without changing anything, with the identifier asked
    for, a progress between 0 and 100 and an elapsed time that is not
    negative. *)
Theorem X15_progress_query_reachable (W : World) (s : State) (id : jsstring) :
  reachable W s ->
  is_Some (activeProgress s !! id) \/ is_Some (documents s !! id) ->
  exists st p step elapsed,
    getDocumentProgress id s
    = (Return (progress_reply id st p step elapsed), s)
    /\ 0 <= p <= 100 /\ 0 <= elapsed.
Proof.
  intros Hreach Hknown.
  destruct (activeProgress s !! id) as [l|] eqn:Hreg.
  - destruct (reachable_not_pending W s Hreach id l Hreg) as (t & Hl & _).
    destruct (trackers_sane_lookup l t s (reachable_trackers_sane W s Hreach) Hl)
      as [Hp Hs].
    eexists _, _, _, _.
    split; [exact (getDocumentProgress_tracker id l t s Hreg Hl)|].
    split; [exact Hp | lia].
  - destruct Hknown as [[l Hl]|[d Hdoc]]; [discriminate|].
    eexists _, _, _, _.
    split; [exact (getDocumentProgress_record id d s Hreg Hdoc)|].
    split; [case_bool_decide; lia | lia].
Qed.

(** The theorem at the state after the upload of the notes. *)
Lemma X15_progress_query_reachable_witness :
  exists st p step elapsed,
    getDocumentProgress (js "id1") s_uploaded
    = (Return (progress_reply (js "id1") st p step elapsed), s_uploaded)
    /\ 0 <= p <= 100 /\ 0 <= elapsed.
Proof.
  apply (X15_progress_query_reachable demo_world s_uploaded (js "id1")
           s_uploaded_reachable).
  left. vm_compute. by eexists.
Defined.

(** ** The page estimate *)

Lemma tokens_from_bound (s : jsstring) : forall cur,
  2 * len (tokens_from cur s)
  <= len s + match cur with [] => 1 | _ => 2 end.
Proof.
  unfold len. induction s as [|c s IH]; intros cur.
  - destruct cur; cbn; lia.
  - cbn [tokens_from]. destruct (is_space c).
    + destruct cur; cbn [length]; specialize (IH []); cbn in IH; lia.
    + specialize (IH (cur ++ [c])).
      destruct (cur ++ [c]) eqn:E; [by destruct cur|].
      destruct cur; cbn [length]; lia.
Qed.

(** X16.  The page estimate of the plain-text, word-processor and OCR
    parsers is the least positive number of pages of 500 words that hold
    the words of the text, it lists that many pages, and a text of [n]
    code units has at most [(n + 1) / 2] words. *)
Theorem X16_page_estimate_bounds (text : jsstring) :
  0 <= wordCount text
  /\ 2 * wordCount text <= len text + 1
  /\ 1 <= estimatedPages text
  /\ wordCount text <= 500 * estimatedPages text
  /\ (forall q, 1 <= q -> wordCount text <= 500 * q -> estimatedPages text <= q)
  /\ len (pages_upto (estimatedPages text)) = estimatedPages text.
Proof.
  rewrite estimatedPages_spec, pages_upto_seqZ, wordCount_tokens.
  unfold spec_pageCount.
  pose proof (tokens_from_bound text []) as Hb. fold (tokens text) in Hb.
  set (n := len (tokens text)) in *.
  assert (0 <= n) as Hn by (unfold n, len; lia).
  pose proof (Z.div_mod (n + 499) 500 ltac:(lia)) as Hdiv.
  pose proof (Z.mod_pos_bound (n + 499) 500 ltac:(lia)) as Hmod.
  split; [exact Hn|]. split; [exact Hb|]. split; [lia|]. split; [lia|].
  split; [intros q Hq Hle; lia|].
  unfold len. rewrite length_seqZ. lia.
Qed.

(** ** A failing job whose tracker is listened to *)

Lemma opening_effects_no_terminal W id path tag l t now :
  List.filter is_terminal_write (opening_effects W id path tag l t now) = [].
Proof.
  unfold opening_effects. destruct (extractor_of tag); [|reflexivity].
  destruct (is_image tag); reflexivity.
Qed.

(** X17.  When an ['error'] listener is registered on the tracker, a run
    whose parser throws [e] ends without an exception: the record is
    [failed] with [errorMessage = e.message] and keeps its extracted
    text and tables, the tracker is [failed] at the step
    ["Error: " + e.message], the ['error'] event is emitted with that
    message, and the write of the failure is the only terminal write. *)
Theorem X17_failure_with_listener (W : World) (id path tag : jsstring)
  (l : nat) (t : ProgressTracker) (d : Document) (s : State) (e : Exn) :
  heap s !! l = Some t ->
  errorListeners t <> 0%nat ->
  documents s !! id = Some d ->
  dispatch_outcome W tag path = Throw e ->
  let s' := exec (processDocument W id path tag l) s in
  eval (processDocument W id path tag l) s = Return tt
  /\ (exists d', documents s' !! id = Some d'
                 /\ processingStatus d' = failed
                 /\ errorMessage d' = Some (message e)
                 /\ extractedText d' = extractedText d
                 /\ extractedTables d' = extractedTables d)
  /\ (exists t', heap s' !! l = Some t'
                 /\ status t' = failed
                 /\ currentStep t' = js "Error: " ++ message e)
  /\ In (Emit l (EvError {| ee_documentId := documentId t;
                            ee_error := message e;
                            ee_elapsed := clock s - startTime t |}))
        (new_trace (processDocument W id path tag l) s)
  /\ List.filter is_terminal_write
       (new_trace (processDocument W id path tag l) s)
     = [DbUpdate id (WriteFailed (message e))].
Proof.
  intros Hl Hlisten Hdoc He s'.
  pose proof (processDocument_failure_handled W id path tag l t s e
                Hl Hlisten He) as Hrun.
  assert (new_trace (processDocument W id path tag l) s
          = opening_effects W id path tag l t (clock s)
            ++ [ Emit l (status_event (clock s) (t_failed W tag e t));
                 Emit l (error_event (clock s) (t_failed W tag e t) e);
                 DbUpdate id (WriteFailed (message e));
                 SetTimeout cleanup_delay id ]) as Htrace.
  { eapply new_trace_app; [exact Hrun | reflexivity]. }
  subst s'. unfold exec, eval. rewrite Htrace, Hrun. cbn [fst snd].
  split; [reflexivity|]. split; [|split; [|split]].
  - norm. rewrite !lookup_alter_eq, Hdoc. cbn.
    eexists. split; [reflexivity|]. by repeat split.
  - norm. exists (t_failed W tag e t). split; [|by split].
    apply list_lookup_insert_eq. by eapply lookup_lt_Some.
  - apply in_or_app. right. right. left.
    unfold error_event, t_failed, t_dispatched, t_processing, t_read.
    by destruct (is_image tag).
  - rewrite List.filter_app, opening_effects_no_terminal. reflexivity.
Qed.

(** The theorem at the unreadable upload, with a listener registered. *)
Lemma X17_failure_with_listener_witness :
  eval (processDocument demo_world (js "id7") (js "uploads/lost.txt")
          (js "txt") 0) s_lost_listening
  = Return tt.
Proof.
  refine (proj1 (X17_failure_with_listener demo_world (js "id7")
                   (js "uploads/lost.txt") (js "txt") 0
                   (on_error (with_status processing
                                (js "Starting document processing")
                                (new_ProgressTracker (js "id7") 0)))
                   (uploaded_record demo_world
                      (demo_file "Lost.txt" "lost.txt") 0)
                   s_lost_listening
                   (Error (js "Failed to extract TXT content: "
                           ++ js "ENOENT: no such file or directory"))
                   _ _ _ _)).
  - reflexivity.
  - cbn. lia.
  - reflexivity.
  - reflexivity.
Defined.


(** ** What the store never holds *)

Lemma never_failed_same (s s' : State) :
  heap s' = heap s -> documents s' = documents s ->
  never_failed s -> never_failed s'.
Proof. unfold never_failed. intros -> ->. done. Qed.

Lemma never_failed_alter (w : DbWrite) (id : jsstring)
  (m : gmap jsstring Document) :
  (forall msg, w <> WriteFailed msg) ->
  (forall id0 d, m !! id0 = Some d ->
     processingStatus d <> failed /\ errorMessage d = None) ->
  forall id0 d, alter (apply_write w) id m !! id0 = Some d ->
    processingStatus d <> failed /\ errorMessage d = None.
Proof.
  intros Hw H id0 d. destruct (decide (id = id0)) as [<-|Hne].
  - rewrite lookup_alter_eq. destruct (m !! id) as [d0|] eqn:Hd0;
      [|discriminate].
    intros [= <-]. destruct (H id d0 Hd0) as [_ He].
    destruct w; cbn; [done | done | by destruct (Hw msg)].
  - rewrite lookup_alter_ne by done. apply H.
Qed.

Lemma never_failed_job W (j : Job) (q1 q2 : list Job) (s : State) :
  spawned s = q1 ++ j :: q2 ->
  store_invariant s ->
  never_failed s ->
  never_failed (exec (run_job W j) (set_spawned (fun _ => q1 ++ q2) s)).
Proof.
  intros Hq (_ & Hjobs & _) [Hheap Hdocs].
  assert (j ∈ spawned s) as Hj.
  { rewrite Hq. apply elem_of_app. right. apply elem_of_cons. by left. }
  destruct (Hjobs j Hj) as (_ & Hlt & _).
  apply lookup_lt_is_Some_2 in Hlt as [t Ht].
  pose proof (Forall_lookup_1 _ _ _ _ Hheap Ht) as Hlisten.
  cbn beta in Hlisten.
  set (s0 := set_spawned (fun _ => q1 ++ q2) s).
  assert (heap s0 !! job_tracker j = Some t) as Ht0 by exact Ht.
  unfold exec, run_job.
  destruct (dispatch_outcome W (job_type j) (job_path j)) as [r|e] eqn:Hd.
  - rewrite (processDocument_success W _ _ _ _ t s0 r Ht0 Hd). cbn [snd].
    split; cbn [heap documents].
    + apply Forall_insert; [exact Hheap|].
      unfold t_done, t_completed, t_saving, t_dispatched, t_processing, t_read.
      by destruct (is_image (job_type j)).
    + apply never_failed_alter; [done|].
      apply never_failed_alter; [done|]. exact Hdocs.
  - rewrite (processDocument_failure_unhandled W _ _ _ _ t s0 e Ht0 Hlisten Hd).
    cbn [snd]. split; cbn [heap documents].
    + apply Forall_insert; [exact Hheap|].
      unfold t_failed, t_dispatched, t_processing, t_read.
      by destruct (is_image (job_type j)).
    + apply never_failed_alter; [done|]. exact Hdocs.
Qed.

Lemma never_failed_upload W f oid s :
  never_failed s -> never_failed (exec (uploadDocument W f oid) s).
Proof.
  intros [Hheap Hdocs]. unfold exec.
  destruct (uploadDocument_outcome W f oid s)
    as [(code & b & -> & _)|(file & _ & _ & _ & _ & ->)]; [by split|].
  cbn [snd]. split; cbn [heap documents uploaded_state].
  - apply Forall_app. split; [exact Hheap|]. by repeat constructor.
  - intros id d. destruct (decide (oid = id)) as [<-|Hne].
    + rewrite lookup_insert_eq. intros [= <-]. by split.
    + rewrite lookup_insert_ne by done. apply Hdocs.
Qed.

Lemma reachable_never_failed W s : reachable W s -> never_failed s.
Proof.
  induction 1 as [|s s' Hreach IH Hstep].
  - split; [constructor|]. intros id d Hd. unfold initial_state in Hd.
    cbn [documents] in Hd. by rewrite lookup_empty in Hd.
  - destruct Hstep.
    + by apply never_failed_upload.
    + apply never_failed_job; [done | | done].
      by eapply reachable_store_invariant.
    + by rewrite getDocumentProgress_pure.
    + by eapply never_failed_same.
    + by eapply never_failed_same.
Qed.

(** X18.  In no state the system reaches is a record [failed] or does
    it carry an error message, and no tracker has a listener for
    ['error']: although [processDocument] has a write of
    [processingStatus = failed], the system never performs it, and the
    progress query never reports [failed] from a record. *)
Theorem X18_failed_never_persisted (W : World) (s : State) :
  reachable W s ->
  (forall id d, documents s !! id = Some d ->
     processingStatus d <> failed /\ errorMessage d = None)
  /\ (forall l t, heap s !! l = Some t -> errorListeners t = 0%nat)
  /\ (forall id st p step elapsed,
        activeProgress s !! id = None ->
        eval (getDocumentProgress id) s
        = Return (progress_reply id st p step elapsed) ->
        st <> failed).
Proof.
  intros Hreach. destruct (reachable_never_failed W s Hreach) as [Hheap Hdocs].
  split; [exact Hdocs|]. split.
  - intros l t Hl. exact (Forall_lookup_1 _ _ _ _ Hheap Hl).
  - intros id st p step elapsed Hreg. unfold eval.
    destruct (documents s !! id) as [d|] eqn:Hdoc.
    + rewrite (getDocumentProgress_record id d s Hreg Hdoc). cbn [fst].
      intros [= <- _ _]. by destruct (Hdocs id d Hdoc).
    + unfold getDocumentProgress, try_catch.
      rewrite bind_run. unfold getProgressTracker, gets. rewrite Hreg.
      rewrite bind_run. unfold Document_findById, gets. rewrite Hdoc.
      discriminate.
Qed.

(** The theorem at the record of the unreadable upload once its job has
    run. *)
Lemma X18_failed_never_persisted_witness :
  processingStatus
    (apply_write WriteProcessing
       (uploaded_record demo_world (demo_file "Lost.txt" "lost.txt") 0))
  <> failed
  /\ errorMessage
       (apply_write WriteProcessing
          (uploaded_record demo_world (demo_file "Lost.txt" "lost.txt") 0))
     = None.
Proof.
  refine (proj1 (X18_failed_never_persisted demo_world
                   (exec (run_job demo_world lost_job)
                      (set_spawned (fun _ => [] ++ []) s_lost)) _)
            (js "id7") _ _).
  - apply (reach_step demo_world s_lost).
    + apply (reach_step demo_world initial_state); [apply reach_init|].
      apply (step_upload demo_world (Some (demo_file "Lost.txt" "lost.txt"))
               (js "id7") initial_state).
      reflexivity.
    + apply (step_job demo_world lost_job [] [] s_lost). reflexivity.
  - vm_compute. reflexivity.
Defined.

(** ** From the upload to a failed job *)

(** X19.  When an upload is accepted and the parser chosen for its
    extension throws [e], the job started [dt] later does not end in a
    failed record: its promise is rejected with the error
    [EventEmitter] raises for an ['error'] event nobody listens to,
    which carries the event (the document's id, [e.message], the time
    elapsed); the record is left [processing] without an error message,
    and the tracker is [failed] at the progress the job had reached (30,
    or 50 for an image) and the step ["Error: " + e.message]. *)
Theorem X19_failed_upload_rejection (W : World) (file : File) (oid : jsstring)
  (s : State) (r : Response) (e : Exn) (dt : Z) :
  eval (uploadDocument W (Some file) oid) s = Return r ->
  statusCode r = 201 ->
  dispatch_outcome W (fileExt_of W file) (path_ file) = Throw e ->
  let job := processDocument W oid (path_ file) (fileExt_of W file)
               (length (heap s)) in
  let s1 := advance dt (exec (uploadDocument W (Some file) oid) s) in
  let s2 := exec job s1 in
  eval job s1
  = Throw (ERR_UNHANDLED_ERROR W {| ee_documentId := oid;
                                    ee_error := message e;
                                    ee_elapsed := dt |})
  /\ documents s2 !! oid
     = Some (apply_write WriteProcessing (uploaded_record W file (clock s)))
  /\ exists t, heap s2 !! length (heap s) = Some t
               /\ status t = failed
               /\ progress t = (if is_image (fileExt_of W file) then 50 else 30)
               /\ currentStep t = js "Error: " ++ message e.
Proof.
  intros Hr Hc He job s1 s2. subst job s1 s2.
  unfold eval, exec in *.
  destruct (uploadDocument_outcome W (Some file) oid s)
    as [(code & b & Hrun & Hcode)|(file' & Hf & _ & _ & _ & Hrun)];
    rewrite Hrun in Hr |- *; cbn [fst snd] in *.
  { injection Hr as <-. cbn in Hc. lia. }
  injection Hf as <-.
  assert (heap (advance dt (uploaded_state W file oid s)) !! length (heap s)
          = Some (uploaded_tracker oid (clock s))) as Hl
    by apply lookup_fresh.
  rewrite (processDocument_failure_unhandled W _ _ _ _ _ _ e Hl eq_refl He).
  cbn [fst snd]. split; [|split].
  - cbn. do 3 f_equal. lia.
  - cbn [documents advance uploaded_state].
    rewrite lookup_alter_eq, lookup_insert_eq. reflexivity.
  - exists (t_failed W (fileExt_of W file) e (uploaded_tracker oid (clock s))).
    split.
    + cbn [heap advance uploaded_state]. apply list_lookup_insert_eq.
      rewrite length_app. simpl. lia.
    + unfold t_failed, t_dispatched.
      by destruct (is_image (fileExt_of W file)).
Qed.

(** The theorem at the upload of the unreadable file, the job starting
    40 ms later. *)
Lemma X19_failed_upload_rejection_witness :
  documents (exec (run_job demo_world lost_job) (advance 40 s_lost))
    !! js "id7"
  = Some (apply_write WriteProcessing
            (uploaded_record demo_world (demo_file "Lost.txt" "lost.txt") 0)).
Proof.
  apply (X19_failed_upload_rejection demo_world
           (demo_file "Lost.txt" "lost.txt") (js "id7") initial_state
           {| statusCode := 201;
              body := UploadedBody (js "id7") (js "Lost.txt") (js "txt")
                        pending |}
           (Error (js "Failed to extract TXT content: "
                   ++ js "ENOENT: no such file or directory"))
           40 eq_refl eq_refl eq_refl).
Defined.
